(** * MedVision: the SSIM/MSE comparison core

    A shallow embedding of [modules/preprocess.py] and
    [modules/compare_ssim_mse.py], followed by the code around them: the
    prediction of [modules/cnn_model.py], [modules/gemini_api.py] and the
    request handlers of [app.py].

    Conventions of the embedding.
    - Python floats are modelled by exact rationals ([Q]); rounding errors of
      binary arithmetic are not modelled.  What is stated of a quotient is
      stated for operands of one sign, where the floating-point quotient is
      as well-conditioned as the exact one.  [float("inf")] appears once, as
      the initial error of the best-match tracker, and has its own
      constructor.
    - A call either returns a value or raises: [outcome].
    - OpenCV, scikit-image, the file system and the random generator are not
      part of the repository.  Their operations are fields of the records
      [OpenCV] and [World]; what the proofs need of their documented
      behaviour is stated in named contracts, which appear as hypotheses of
      the theorems that rely on them.
    - The selection [random.sample] makes for a population is an input of
      the run ([choose]); the hidden state of the generator is not
      modelled.
    - [os.listdir] can raise for a path for which [os.path.isdir] holds (a
      directory that cannot be read); the theorems that promise a result
      assume, in a hypothesis, that the directories of the categories can be
      listed.  The diagnostic [print] of [preprocess_image] is left out.
    - Strings are byte strings, in UTF-8 where the source has characters
      beyond ASCII.
    - TensorFlow, the Gemini client, PIL and Flask are environments too
      ([Cnn.Keras], [GeminiApi.Gemini], [App.Env]); the handlers of [app.py]
      pass the state of the application (files, session, flashed messages)
      explicitly, and their [print] calls are left out. *)

From Stdlib Require Import ZArith QArith Qround Qabs Lqa Lia List Ascii String.
From Stdlib Require Import Permutation Qpower.
From Stdlib.Strings Require Import Byte.
From stdpp Require Import base option list strings gmap.

Local Open Scope string_scope.

(** ** Exceptions and outcomes *)

(** The exception classes the modelled calls raise.  All of them derive from
    Python's [Exception]. *)
Inductive exn : Type :=
| ValueError (msg : string)
| TypeError (msg : string)
| IndexError (msg : string)
| OSError (msg : string)
| cv2_error (msg : string).

Inductive outcome (A : Type) : Type :=
| Returns (a : A)
| Raises (e : exn).
Arguments Returns {A} a.
Arguments Raises {A} e.

Definition obind {A B} (c : outcome A) (k : A -> outcome B) : outcome B :=
  match c with
  | Returns a => k a
  | Raises e => Raises e
  end.

Notation "'let!' x ':=' c 'in' k" := (obind c (fun x => k))
  (at level 10, x name, c at level 100, k at level 200).

(** [try: body except Exception as e: handler e] *)
Definition try_except_Exception {A} (body : outcome A) (handler : exn -> outcome A)
  : outcome A :=
  match body with
  | Returns a => Returns a
  | Raises e => handler e
  end.

Definition is_ValueError (e : exn) : bool :=
  match e with ValueError _ => true | _ => false end.

(** [try: body except ValueError: handler] *)
Definition try_except_ValueError {A} (body : outcome A) (handler : outcome A)
  : outcome A :=
  match body with
  | Returns a => Returns a
  | Raises e => if is_ValueError e then handler else Raises e
  end.

(** ** Strings and paths *)

Module Str.

Definition lower_ascii (c : ascii) : ascii :=
  let n := nat_of_ascii c in
  if (65 <=? n)%nat && (n <=? 90)%nat then ascii_of_nat (n + 32) else c.

(** [str.lower], on the ASCII letters. *)
Fixpoint lower (s : string) : string :=
  match s with
  | EmptyString => EmptyString
  | String c r => String (lower_ascii c) (lower r)
  end.

(** [s.endswith(suffix)] *)
Definition endswith (s suffix : string) : bool :=
  let n := String.length s in
  let k := String.length suffix in
  (k <=? n)%nat && String.eqb (substring (n - k) k s) suffix.

(** [s.startswith(prefix)] *)
Definition startswith (s prefix : string) : bool :=
  String.prefix prefix s.

(** [s.endswith((a, b, ...))] *)
Definition endswith_any (s : string) (suffixes : list string) : bool :=
  existsb (endswith s) suffixes.

(** [os.path.join(a, b)] of posixpath. *)
Definition path_join (a b : string) : string :=
  if startswith b "/" then b
  else if String.eqb a "" || endswith a "/" then a ++ b
  else a ++ "/" ++ b.

End Str.

(** ** Images *)

(** A [uint8] array: its [shape] tuple and its elements. *)
Record Mat8 : Type := { shape8 : list nat; data8 : list byte }.

(** A floating-point array. *)
Record MatF : Type := { shapeF : list nat; dataF : list Q }.

(** The number of elements that a shape announces, and the arrays that hold
    as many. *)
Definition size_of (shape : list nat) : nat := fold_right Nat.mul 1%nat shape.

Definition well_shaped (m : MatF) : Prop :=
  List.length (dataF m) = size_of (shapeF m).

Definition byte_value (b : byte) : Z := Z.of_N (Byte.to_N b).

(** [img.astype(np.float32) / 255.0] *)
Definition astype_unit (img : Mat8) : MatF :=
  {| shapeF := shape8 img;
     dataF := List.map (fun b => (inject_Z (byte_value b) / 255)%Q) (data8 img) |}.

(** The OpenCV calls of the program.  [dsize] is (width, height), as in
    [cv2.resize]. *)
Record OpenCV : Type := {
  imread : string -> outcome (option Mat8);
  resize : Mat8 -> nat * nat -> outcome Mat8;
  normalize : Mat8 -> outcome Mat8;
  clahe_apply : Mat8 -> outcome Mat8;
  GaussianBlur : Mat8 -> outcome Mat8;
  resizeF : MatF -> nat * nat -> outcome MatF
}.

(** What OpenCV documents about shapes: [resize] returns an array of the
    requested size, the other three keep the size of their argument. *)
Record cv2_contract (cv : OpenCV) : Prop := {
  resize_shape : forall img w h r,
    resize cv img (w, h) = Returns r -> shape8 r = [h; w];
  normalize_shape : forall img r,
    normalize cv img = Returns r -> shape8 r = shape8 img;
  clahe_shape : forall img r,
    clahe_apply cv img = Returns r -> shape8 r = shape8 img;
  blur_shape : forall img r,
    GaussianBlur cv img = Returns r -> shape8 r = shape8 img
}.

(** ** modules/preprocess.py *)

Definition preprocess_steps (cv : OpenCV) (image_path : string)
  : outcome (option Mat8) :=
  let! img := imread cv image_path in
  match img with
  | None => Returns None
  | Some img =>
      let! img := resize cv img (512, 512)%nat in
      let! img := normalize cv img in
      let! img := clahe_apply cv img in
      let! img := GaussianBlur cv img in
      Returns (Some img)
  end.

Definition preprocess_image (cv : OpenCV) (image_path : string)
  : outcome (option Mat8) :=
  try_except_Exception (preprocess_steps cv image_path) (fun _ => Returns None).

(** ** modules/compare_ssim_mse.py *)

Local Open Scope Q_scope.

Definition Qlt_bool (x y : Q) : bool := negb (Qle_bool y x).

(** *** Statistics of numpy and the built-in [round] *)

Fixpoint insert_sorted (x : Q) (l : list Q) : list Q :=
  match l with
  | [] => [x]
  | y :: r => if Qle_bool x y then x :: y :: r else y :: insert_sorted x r
  end.

Definition sorted (l : list Q) : list Q := foldr insert_sorted [] l.

(** [np.median]: the middle element of the sorted scores, or the mean of the
    two middle ones. *)
Definition median (l : list Q) : Q :=
  let s := sorted l in
  let n := List.length s in
  if Nat.even n
  then (nth (n / 2 - 1) s 0 + nth (n / 2) s 0) / 2
  else nth (n / 2) s 0.

Definition Qsum (l : list Q) : Q := foldr Qplus 0 l.

(** [np.mean] *)
Definition mean (l : list Q) : Q := Qsum l / inject_Z (Z.of_nat (List.length l)).

(** [mse(a, b)]: [float(np.mean((a - b) ** 2))], for two arrays of one shape
    that are not empty: the elements are paired in their order.  numpy
    broadcasts or raises for two different shapes; at the call of [mse] in
    [compare_with_dataset], [structural_similarity] has returned for the
    same two images, which it does for images of one shape only. *)
Definition mse (a b : MatF) : Q :=
  mean (zip_with (fun x y => (x - y) ^ 2) (dataF a) (dataF b)).

(** Rounding to the nearest integer, ties to the even one. *)
Definition round_half_even (x : Q) : Z :=
  let f := Qfloor x in
  let d := x - inject_Z f in
  if Qlt_bool d (1 # 2) then f
  else if Qlt_bool (1 # 2) d then (f + 1)%Z
  else if Z.even f then f else (f + 1)%Z.

(** [round(x, ndigits)] *)
Definition py_round (x : Q) (ndigits : nat) : Q :=
  let scale := inject_Z (10 ^ Z.of_nat ndigits) in
  inject_Z (round_half_even (x * scale)) / scale.

(** *** The environment of a run *)

Record World : Type := {
  cv : OpenCV;
  (** [skimage.metrics.structural_similarity(a, b, data_range=1.0)] *)
  structural_similarity : MatF -> MatF -> outcome Q;
  BASE_DATA_DIR : string;
  isdir : string -> bool;
  (** [os.listdir(path)]: the names, or the [OSError] of a directory that
      cannot be read *)
  listdir : string -> outcome (list string);
  (** the [k] elements the generator selects from a population *)
  choose : list string -> nat -> list string
}.

(** [random.sample(population, k)] *)
Definition random_sample (w : World) (population : list string) (k : Z)
  : outcome (list string) :=
  let n := Z.of_nat (List.length population) in
  if (0 <=? k)%Z && (k <=? n)%Z
  then Returns (choose w population (Z.to_nat k))
  else Raises (ValueError "Sample larger than population or is negative").

(** [random.sample] returns [k] elements of the population. *)
Record sample_contract (w : World) : Prop := {
  choose_length : forall population k,
    (k <= List.length population)%nat ->
    List.length (choose w population k) = k;
  choose_from : forall population k x,
    In x (choose w population k) -> In x population
}.

(** [structural_similarity] raises nothing but [ValueError]. *)
Definition ssim_raises_only_ValueError (w : World) : Prop :=
  forall a b e, structural_similarity w a b = Raises e -> is_ValueError e = true.

(** The structural similarity of two images lies strictly above -1 (its
    stabilising constants are positive); the tracker of the best match
    starts at -1.0. *)
Definition ssim_above_minus_one (w : World) : Prop :=
  forall a b s, structural_similarity w a b = Returns s -> -1 < s.

(** *** Records of the comparison *)

Inductive pyfloat : Type :=
| Finite (q : Q)
| Infinity.

(** The dict of the best-match tracker. *)
Record match_record : Type := {
  m_category : option string;
  m_ssim : Q;
  m_mse : pyfloat;
  m_path : option string
}.

Module Entry.
(** A value of [results_summary]. *)
Record t : Type := {
  avg_ssim : option Q;
  avg_mse : option Q;
  samples_compared : nat
}.
End Entry.

Module Report.
(** A value of the returned ["summary"]; [None] is Python's [None]. *)
Record t : Type := {
  avg_ssim : option Q;
  avg_mse : option Q;
  similarity_percent : Q;
  samples_compared : nat
}.
End Report.

Record Result : Type := {
  best_match : option match_record;
  summary : gmap string Report.t;
  confidence_diff : Q;
  prediction : string
}.

Definition NORMAL : string := "NORMAL".
Definition PNEUMONIA : string := "PNEUMONIA".

Definition uncertain_result : string := "Uncertain Result 🤔 (SSIM scores too close)".
Definition pneumonia_detected : string := "Pneumonia Detected 🫁".
Definition normal_lungs : string := "Normal Lungs ✅".

Definition initial_best_match : match_record :=
  {| m_category := None; m_ssim := -1; m_mse := Infinity; m_path := None |}.

Definition empty_entry : Entry.t :=
  {| Entry.avg_ssim := None; Entry.avg_mse := None; Entry.samples_compared := 0 |}.

(** *** The comparison *)

Definition image_extensions : list string := [".jpg"; ".jpeg"; ".png"].

(** [f.lower().endswith((".jpg", ".jpeg", ".png"))] *)
Definition eligible (f : string) : bool :=
  Str.endswith_any (Str.lower f) image_extensions.

(** The names [os.listdir] returns for a path; none when it raises. *)
Definition listing (w : World) (path : string) : list string :=
  match listdir w path with
  | Returns names => names
  | Raises _ => []
  end.

(** The list [files] of a category directory that can be listed. *)
Definition category_files (w : World) (cat_dir : string) : list string :=
  List.map (Str.path_join cat_dir) (List.filter eligible (listing w cat_dir)).

(** [os.listdir] returns for the directories of [categories] that exist. *)
Definition listable (w : World) (categories : list string) : Prop :=
  forall c, In c categories ->
    isdir w (Str.path_join (BASE_DATA_DIR w) c) = true ->
    exists names, listdir w (Str.path_join (BASE_DATA_DIR w) c) = Returns names.

(** [t[i]] on a tuple. *)
Definition getitem (t : list nat) (i : nat) : outcome nat :=
  match t !! i with
  | Some x => Returns x
  | None => Raises (IndexError "tuple index out of range")
  end.

(** Truth value of [best_match["path"]]: [None] and the empty string are
    false. *)
Definition truthy (path : option string) : bool :=
  match path with
  | None => false
  | Some s => negb (String.eqb s "")
  end.

(** [x or 0.0] for a score that is [None] or a float. *)
Definition or_zero (x : option Q) : Q :=
  match x with
  | None => 0
  | Some v => if Qeq_bool v 0 then 0 else v
  end.

(** One turn of the loop over [sampled], up to the scores: [None] stands for
    [continue]. *)
Definition compare_sample (w : World) (uploaded : MatF) (path : string)
  : outcome (option (Q * Q)) :=
  let! img := preprocess_image (cv w) path in
  match img with
  | None => Returns None
  | Some img =>
      let img := astype_unit img in
      let! img :=
        (if decide (shapeF img <> shapeF uploaded)
         then
           let! width := getitem (shapeF uploaded) 1 in
           let! height := getitem (shapeF uploaded) 0 in
           resizeF (cv w) img (width, height)
         else Returns img) in
      try_except_ValueError
        (let! s := structural_similarity w uploaded img in
         let m := mse uploaded img in
         Returns (Some (s, m)))
        (Returns None)
  end.

(** The tracker after a sample with scores [s], [m]. *)
Definition update_best (best_match : match_record) (category path : string)
    (s m : Q) : match_record :=
  if Qlt_bool (m_ssim best_match) s
  then {| m_category := Some category; m_ssim := s; m_mse := Finite m;
          m_path := Some path |}
  else best_match.

(** [for path in sampled: ...] *)
Fixpoint scan_samples (w : World) (uploaded : MatF) (category : string)
    (sampled : list string) (ssim_scores mse_scores : list Q)
    (best_match : match_record)
  : outcome (list Q * list Q * match_record) :=
  match sampled with
  | [] => Returns (ssim_scores, mse_scores, best_match)
  | path :: rest =>
      let! r := compare_sample w uploaded path in
      match r with
      | None =>
          scan_samples w uploaded category rest ssim_scores mse_scores best_match
      | Some (s, m) =>
          scan_samples w uploaded category rest
            (ssim_scores ++ [s]) (mse_scores ++ [m])
            (update_best best_match category path s m)
      end
  end.

Definition median_or_None (scores : list Q) : option Q :=
  match scores with
  | [] => None
  | _ => Some (median scores)
  end.

(** [for category in categories: ...] *)
Fixpoint scan_categories (w : World) (uploaded : MatF) (sample_size : Z)
    (categories : list string) (results_summary : gmap string Entry.t)
    (best_match : match_record)
  : outcome (gmap string Entry.t * match_record) :=
  match categories with
  | [] => Returns (results_summary, best_match)
  | category :: rest =>
      let cat_dir := Str.path_join (BASE_DATA_DIR w) category in
      if negb (isdir w cat_dir)
      then scan_categories w uploaded sample_size rest
             (<[category := empty_entry]> results_summary) best_match
      else
        let! names := listdir w cat_dir in
        let files :=
          List.map (Str.path_join cat_dir) (List.filter eligible names) in
        match files with
        | [] => scan_categories w uploaded sample_size rest
                  (<[category := empty_entry]> results_summary) best_match
        | _ =>
            let! sampled :=
              random_sample w files
                (Z.min sample_size (Z.of_nat (List.length files))) in
            let! scanned :=
              scan_samples w uploaded category sampled [] [] best_match in
            let '(ssim_scores, mse_scores, best_match) := scanned in
            let avg_ssim := median_or_None ssim_scores in
            let avg_mse := median_or_None mse_scores in
            scan_categories w uploaded sample_size rest
              (<[category :=
                   {| Entry.avg_ssim := avg_ssim;
                      Entry.avg_mse := avg_mse;
                      Entry.samples_compared := List.length ssim_scores |}]>
                 results_summary)
              best_match
        end
  end.

(** The margin logic on the two scores. *)
Definition decide_prediction (normal_score pneu_score : Q) : string :=
  let diff := Qabs (pneu_score - normal_score) in
  if Qlt_bool diff (2 # 100) then uncertain_result
  else if Qlt_bool normal_score pneu_score then pneumonia_detected
  else normal_lungs.

(** [total]: the sum of the two scores, or 1 when the sum is not positive. *)
Definition percent_total (normal_score pneu_score : Q) : Q :=
  if Qlt_bool 0 (normal_score + pneu_score)
  then normal_score + pneu_score else 1.

(** A value of the returned ["summary"]. *)
Definition category_report (results_summary : gmap string Entry.t)
    (category : string) (score percent : Q) : Report.t :=
  {| Report.avg_ssim := Some score;
     Report.avg_mse := results_summary !! category ≫= Entry.avg_mse;
     Report.similarity_percent := py_round percent 2;
     Report.samples_compared :=
       default 0%nat (Entry.samples_compared <$> results_summary !! category) |}.

(** The part of [compare_with_dataset] after the loop over the categories. *)
Definition report (results_summary : gmap string Entry.t)
    (best_match : match_record) : Result :=
  let normal_score := or_zero (results_summary !! NORMAL ≫= Entry.avg_ssim) in
  let pneu_score := or_zero (results_summary !! PNEUMONIA ≫= Entry.avg_ssim) in
  let diff := Qabs (pneu_score - normal_score) in
  let prediction := decide_prediction normal_score pneu_score in
  let total := percent_total normal_score pneu_score in
  let normal_percent := (normal_score / total) * 100 in
  let pneu_percent := (pneu_score / total) * 100 in
  {| best_match := if truthy (m_path best_match) then Some best_match else None;
     summary :=
       <[NORMAL := category_report results_summary NORMAL normal_score normal_percent]>
       (<[PNEUMONIA :=
            category_report results_summary PNEUMONIA pneu_score pneu_percent]> ∅);
     confidence_diff := py_round diff 4;
     prediction := prediction |}.

Definition compare_with_dataset (w : World) (uploaded_image_path : string)
    (sample_size : Z) (categories : list string) : outcome Result :=
  let! uploaded := preprocess_image (cv w) uploaded_image_path in
  match uploaded with
  | None => Raises (ValueError "❌ Uploaded image could not be preprocessed.")
  | Some uploaded =>
      let uploaded := astype_unit uploaded in
      let! scanned :=
        scan_categories w uploaded sample_size categories ∅ initial_best_match in
      let '(results_summary, best_match) := scanned in
      Returns (report results_summary best_match)
  end.

(** ** A small concrete environment

    Used to run the model.  An image file decodes to one pixel, the
    character code of the first letter of its path's last component; files
    whose name starts with [x] do not decode.  The similarity of a sample is
    looked up in a table by that pixel.  The generator selects the first [k]
    elements of a population. *)

Module Toy.

Fixpoint basename_from (s acc : string) : string :=
  match s with
  | EmptyString => acc
  | String c r =>
      if Ascii.eqb c "/" then basename_from r r else basename_from r acc
  end.

Definition basename (s : string) : string := basename_from s s.

Definition toy_imread (path : string) : outcome (option Mat8) :=
  match basename path with
  | EmptyString => Raises (cv2_error "empty file name")
  | String c _ =>
      if Ascii.eqb c "x" then Returns None
      else Returns (Some {| shape8 := [1; 1]%nat; data8 := [byte_of_ascii c] |})
  end.

Definition toy_cv : OpenCV :=
  {| imread := toy_imread;
     resize := fun img '(width, height) =>
       Returns {| shape8 := [height; width]; data8 := data8 img |};
     normalize := fun img => Returns img;
     clahe_apply := fun img => Returns img;
     GaussianBlur := fun img => Returns img;
     resizeF := fun img '(width, height) =>
       Returns {| shapeF := [height; width]; dataF := dataF img |} |}.

Definition pixel_code (img : MatF) : Z :=
  match dataF img with
  | v :: _ => Qfloor (v * 255)
  | [] => -1
  end.

Fixpoint lookup_score (table : list (string * Q)) (code : Z) : outcome Q :=
  match table with
  | [] => Raises (ValueError "degenerate image")
  | (String c _, s) :: rest =>
      if (Z.of_nat (nat_of_ascii c) =? code)%Z then Returns s
      else lookup_score rest code
  | _ :: rest => lookup_score rest code
  end.

Fixpoint lookup_dir (dirs : list (string * list string)) (path : string)
  : option (list string) :=
  match dirs with
  | [] => None
  | (d, names) :: rest =>
      if String.eqb d path then Some names else lookup_dir rest path
  end.

Definition world (dirs : list (string * list string))
    (scores : list (string * Q)) : World :=
  {| cv := toy_cv;
     structural_similarity := fun _ img => lookup_score scores (pixel_code img);
     BASE_DATA_DIR := "/srv/data";
     isdir := fun path => bool_decide (is_Some (lookup_dir dirs path));
     listdir := fun path => Returns (default [] (lookup_dir dirs path));
     choose := fun population k => take k population |}.

End Toy.

(** ** The samples of a run

    Specification-level views of the two loops, used to state what the run
    has compared. *)

Record sample : Type := {
  s_category : string;
  s_path : string;
  s_ssim : Q;
  s_mse : Q
}.

(** The files of [sampled] for which both scores were computed, in the order
    of the loop. *)
Fixpoint compared (w : World) (uploaded : MatF) (category : string)
    (sampled : list string) : list sample :=
  match sampled with
  | [] => []
  | path :: rest =>
      match compare_sample w uploaded path with
      | Returns (Some (s, m)) =>
          {| s_category := category; s_path := path; s_ssim := s; s_mse := m |}
          :: compared w uploaded category rest
      | _ => compared w uploaded category rest
      end
  end.

(** The files drawn for a category; none when its directory is absent or has
    no eligible file. *)
Definition drawn (w : World) (sample_size : Z) (category : string) : list string :=
  let cat_dir := Str.path_join (BASE_DATA_DIR w) category in
  if negb (isdir w cat_dir) then []
  else
    match category_files w cat_dir with
    | [] => []
    | files =>
        match random_sample w files
                (Z.min sample_size (Z.of_nat (List.length files))) with
        | Returns sampled => sampled
        | Raises _ => []
        end
    end.

(** Every sample compared during a run, in order. *)
Definition run_compared (w : World) (uploaded : MatF) (sample_size : Z)
    (categories : list string) : list sample :=
  flat_map (fun category => compared w uploaded category (drawn w sample_size category))
    categories.

(** The tracker dict built from a sample. *)
Definition as_match (x : sample) : match_record :=
  {| m_category := Some (s_category x); m_ssim := s_ssim x;
     m_mse := Finite (s_mse x); m_path := Some (s_path x) |}.

Definition track (best_match : match_record) (x : sample) : match_record :=
  update_best best_match (s_category x) (s_path x) (s_ssim x) (s_mse x).

(** The entry a category receives in [results_summary]. *)
Definition category_entry (w : World) (uploaded : MatF) (sample_size : Z)
    (category : string) : Entry.t :=
  let cat_dir := Str.path_join (BASE_DATA_DIR w) category in
  if negb (isdir w cat_dir) then empty_entry
  else
    match category_files w cat_dir with
    | [] => empty_entry
    | _ =>
        let seen := compared w uploaded category (drawn w sample_size category) in
        {| Entry.avg_ssim := median_or_None (List.map s_ssim seen);
           Entry.avg_mse := median_or_None (List.map s_mse seen);
           Entry.samples_compared := List.length seen |}
    end.

(** The median similarity of a category in a run, taken as 0 when the
    category has no compared sample. *)
Definition category_score (w : World) (uploaded : MatF) (sample_size : Z)
    (categories : list string) (category : string) : Q :=
  default 0
    (if bool_decide (category ∈ categories)
     then Entry.avg_ssim (category_entry w uploaded sample_size category)
     else None).

(** The categories the returned summary reports. *)
Definition two_categories (c : string) : bool :=
  String.eqb c NORMAL || String.eqb c PNEUMONIA.

(** The library functions of two runs are the same functions. *)
Record same_libraries (w1 w2 : World) : Prop := {
  same_resize : forall img dsize, resize (cv w1) img dsize = resize (cv w2) img dsize;
  same_normalize : forall img, normalize (cv w1) img = normalize (cv w2) img;
  same_clahe : forall img, clahe_apply (cv w1) img = clahe_apply (cv w2) img;
  same_blur : forall img, GaussianBlur (cv w1) img = GaussianBlur (cv w2) img;
  same_resizeF : forall img dsize, resizeF (cv w1) img dsize = resizeF (cv w2) img dsize;
  same_ssim : forall a b, structural_similarity w1 a b = structural_similarity w2 a b
}.

(** Two runs read the same input image, the same corpus for the given
    categories, and the generator makes the same selections. *)
Record same_inputs (w1 w2 : World) (path : string) (categories : list string)
  : Prop := {
  same_upload : imread (cv w1) path = imread (cv w2) path;
  same_base : BASE_DATA_DIR w1 = BASE_DATA_DIR w2;
  same_isdir : forall c, In c categories ->
    isdir w1 (Str.path_join (BASE_DATA_DIR w1) c)
    = isdir w2 (Str.path_join (BASE_DATA_DIR w1) c);
  same_listdir : forall c, In c categories ->
    listdir w1 (Str.path_join (BASE_DATA_DIR w1) c)
    = listdir w2 (Str.path_join (BASE_DATA_DIR w1) c);
  same_files : forall c f, In c categories ->
    In f (category_files w1 (Str.path_join (BASE_DATA_DIR w1) c)) ->
    imread (cv w1) f = imread (cv w2) f;
  same_choice : forall c k, In c categories ->
    choose w1 (category_files w1 (Str.path_join (BASE_DATA_DIR w1) c)) k
    = choose w2 (category_files w1 (Str.path_join (BASE_DATA_DIR w1) c)) k
}.

(** ** Concrete corpora *)

(** Two reference directories and a third one.  [e.png] and [c.jpeg] have
    the same, highest similarity among the two reference categories;
    [d.png] makes the similarity computation raise [ValueError],
    [xbad.png] does not decode and [notes.txt] is not an image file. *)
Definition clinic : World :=
  Toy.world
    [("/srv/data/NORMAL", ["a.png"; "b.JPG"; "notes.txt"; "xbad.png"; "e.png"]);
     ("/srv/data/PNEUMONIA", ["c.jpeg"; "d.png"; "f.png"]);
     ("/srv/data/OTHER", ["g.png"])]
    [("a", 3 # 4); ("b", 1 # 2); ("c", 9 # 10); ("e", 9 # 10); ("f", 1 # 4);
     ("g", 99 # 100)].

(** The same corpus on a disk that has one more directory. *)
Definition clinic_archived : World :=
  Toy.world
    [("/srv/data/NORMAL", ["a.png"; "b.JPG"; "notes.txt"; "xbad.png"; "e.png"]);
     ("/srv/data/PNEUMONIA", ["c.jpeg"; "d.png"; "f.png"]);
     ("/srv/data/OTHER", ["g.png"]);
     ("/srv/data/ARCHIVE", ["h.png"])]
    [("a", 3 # 4); ("b", 1 # 2); ("c", 9 # 10); ("e", 9 # 10); ("f", 1 # 4);
     ("g", 99 # 100)].

(** The same world, in which the directory [dir] cannot be read. *)
Definition unreadable (w : World) (dir : string) : World :=
  {| cv := cv w;
     structural_similarity := structural_similarity w;
     BASE_DATA_DIR := BASE_DATA_DIR w;
     isdir := isdir w;
     listdir := fun path =>
       if String.eqb path dir
       then Raises (OSError "[Errno 13] Permission denied")
       else listdir w path;
     choose := choose w |}.

(** One reference image, of negative similarity; no PNEUMONIA directory. *)
Definition inverted_corpus : World :=
  Toy.world [("/srv/data/NORMAL", ["a.png"])] [("a", -1 # 4)].

(** No reference directory at all. *)
Definition no_corpus : World := Toy.world [] [].

(** The places of [preprocess_image] at which a library call can raise. *)
Inductive step_failure (cv : OpenCV) (image_path : string) (e : exn) : Prop :=
| decode_fails :
    imread cv image_path = Raises e -> step_failure cv image_path e
| resize_fails i0 :
    imread cv image_path = Returns (Some i0) ->
    resize cv i0 (512, 512)%nat = Raises e -> step_failure cv image_path e
| normalize_fails i0 i1 :
    imread cv image_path = Returns (Some i0) ->
    resize cv i0 (512, 512)%nat = Returns i1 ->
    normalize cv i1 = Raises e -> step_failure cv image_path e
| clahe_fails i0 i1 i2 :
    imread cv image_path = Returns (Some i0) ->
    resize cv i0 (512, 512)%nat = Returns i1 ->
    normalize cv i1 = Returns i2 ->
    clahe_apply cv i2 = Raises e -> step_failure cv image_path e
| blur_fails i0 i1 i2 i3 :
    imread cv image_path = Returns (Some i0) ->
    resize cv i0 (512, 512)%nat = Returns i1 ->
    normalize cv i1 = Returns i2 ->
    clahe_apply cv i2 = Returns i3 ->
    GaussianBlur cv i3 = Raises e -> step_failure cv image_path e.

(** ** More of Python's strings and lists *)

Module Py.

(** [sub in s] *)
Fixpoint contains (sub s : string) : bool :=
  String.prefix sub s ||
  match s with
  | EmptyString => false
  | String _ r => contains sub r
  end.

(** The two parts of [s] around the last occurrence of [sep], if any. *)
Fixpoint rpartition (sep : ascii) (s : string) : option (string * string) :=
  match s with
  | EmptyString => None
  | String c r =>
      match rpartition sep r with
      | Some (before, after) => Some (String c before, after)
      | None => if Ascii.eqb c sep then Some (EmptyString, r) else None
      end
  end.

(** [s.rsplit(sep, 1)] for a one-character separator. *)
Definition rsplit1 (s : string) (sep : ascii) : list string :=
  match rpartition sep s with
  | Some (before, after) => [before; after]
  | None => [s]
  end.

(** [s.split(sep)] for a one-character separator. *)
Fixpoint split (s : string) (sep : ascii) : list string :=
  match s with
  | EmptyString => [EmptyString]
  | String c r =>
      if Ascii.eqb c sep then EmptyString :: split r sep
      else
        match split r sep with
        | h :: t => String c h :: t
        | [] => [String c EmptyString]
        end
  end.

(** [l[i]] for a non-negative index. *)
Definition getitem {A} (l : list A) (i : nat) : outcome A :=
  match l !! i with
  | Some x => Returns x
  | None => Raises (IndexError "list index out of range")
  end.

(** [l[-1]] *)
Definition getitem_last {A} (l : list A) : outcome A :=
  match List.rev l with
  | x :: _ => Returns x
  | [] => Raises (IndexError "list index out of range")
  end.

(** [l[-n:]] for a positive [n]. *)
Definition last_n {A} (n : nat) (l : list A) : list A :=
  drop (List.length l - n) l.

(** The UTF-8 encoding of the characters that [str.strip] removes: U+0009
    to U+000D, U+001C to U+0020, U+0085, U+00A0, U+1680, U+2000 to U+200A,
    U+2028, U+2029, U+202F, U+205F and U+3000. *)
Definition white_space : list string :=
  List.map (fun bytes => string_of_list_ascii (List.map ascii_of_nat bytes))
    [[9]; [10]; [11]; [12]; [13]; [28]; [29]; [30]; [31]; [32];
     [194; 133]; [194; 160]; [225; 154; 128];
     [226; 128; 128]; [226; 128; 129]; [226; 128; 130]; [226; 128; 131];
     [226; 128; 132]; [226; 128; 133]; [226; 128; 134]; [226; 128; 135];
     [226; 128; 136]; [226; 128; 137]; [226; 128; 138];
     [226; 128; 168]; [226; 128; 169]; [226; 128; 175]; [226; 129; 159];
     [227; 128; 128]]%nat.

Definition reverse (s : string) : string :=
  string_of_list_ascii (List.rev (list_ascii_of_string s)).

(** The length of the sequence of [seqs] that [s] starts with, or 0. *)
Definition leading (seqs : list string) (s : string) : nat :=
  match List.find (fun seq => String.prefix seq s) seqs with
  | Some seq => String.length seq
  | None => 0
  end.

(** [s] without the sequences of [seqs] it starts with; [skip] bytes of a
    sequence found are still to be dropped. *)
Fixpoint skip_leading (seqs : list string) (skip : nat) (s : string) : string :=
  match s with
  | EmptyString => EmptyString
  | String _ r =>
      match skip with
      | S k => skip_leading seqs k r
      | O =>
          match leading seqs s with
          | S k => skip_leading seqs k r
          | O => s
          end
      end
  end.

Definition lstrip (s : string) : string := skip_leading white_space 0 s.

Definition rstrip (s : string) : string :=
  reverse (skip_leading (List.map reverse white_space) 0 (reverse s)).

(** [s.strip()], for a string in UTF-8. *)
Definition strip (s : string) : string := rstrip (lstrip s).

(** Truth value of a string. *)
Definition nonempty (s : string) : bool := negb (String.eqb s "").

End Py.

(** ** app.py: the upload filter *)

Definition ALLOWED_EXTENSIONS : gset string := {["png"; "jpg"; "jpeg"]}.

Definition allowed_file (filename : string) : outcome bool :=
  if Py.contains "." filename then
    let! extension := Py.getitem (Py.rsplit1 filename ".") 1 in
    Returns (bool_decide (Str.lower extension ∈ ALLOWED_EXTENSIONS))
  else Returns false.

(** ** modules/cnn_model.py *)

Module Cnn.

(** [min(a, b)] and [max(a, b)] of the built-ins: the first argument is kept
    unless the second is strictly smaller (larger). *)
Definition py_min (a b : Q) : Q := if Qlt_bool b a then b else a.
Definition py_max (a b : Q) : Q := if Qlt_bool a b then b else a.

(** TensorFlow: [float(model.predict(img_array)[0][0])] for the model loaded
    from [model_path] and the image loaded from [image_path], scaled to
    [0, 1] (lines 106 to 114 of [predict_image]). *)
Record Keras : Type := {
  model_output : string -> string -> outcome Q
}.

Definition predict_image (k : Keras) (model_path image_path : string)
  : outcome (Q * string) :=
  let! pred := model_output k model_path image_path in
  let pred := py_max 0 (py_min 1 pred) in
  if Qlt_bool (1 # 2) pred
  then Returns (py_round (pred * 100) 2, pneumonia_detected)
  else Returns (py_round ((1 - pred) * 100) 2, normal_lungs).

End Cnn.

(** ** modules/gemini_api.py *)

Module GeminiApi.

Record ModelInfo : Type := {
  name : string;
  supported_generation_methods : list string
}.

(** An image opened by PIL, for the file at [pil_path]. *)
Record PILImage : Type := { pil_path : string }.

(** The environment of the module: the [google.generativeai] package, PIL,
    the process environment and the text of a float.  [Image_open] is
    [None] when PIL cannot be imported. *)
Record Gemini : Type := {
  GEMINI_AVAILABLE : bool;
  getenv : string -> option string;
  configure : string -> outcome unit;
  list_models : outcome (list ModelInfo);
  GenerativeModel : string -> outcome unit;
  (** [model.generate_content(...).text] for the model of that name *)
  generate_content : string -> string -> option PILImage -> outcome string;
  Image_open : option (string -> outcome PILImage);
  str_float : Q -> string
}.

Definition preferred_models : list string :=
  ["gemini-2.5-pro"; "gemini-2.5-flash"; "gemini-2.5-pro-preview-06-05";
   "gemini-2.5-pro-preview-05-06"; "gemini-2.5-pro-preview-03-25";
   "gemini-2.0-flash-exp"; "gemini-2.0-flash"; "gemini-2.0-flash-001";
   "gemini-1.5-flash"; "gemini-1.5-pro"; "gemini-pro-vision"; "gemini-pro"].

Definition alternative_models : list string :=
  ["gemini-2.5-flash"; "gemini-2.5-pro"; "gemini-2.0-flash-exp";
   "gemini-1.5-flash"; "gemini-1.5-pro"; "gemini-pro"].

(** [m.name.split('/')[-1] if '/' in m.name else m.name] *)
Definition short_name (full : string) : outcome string :=
  if Py.contains "/" full then Py.getitem_last (Py.split full "/")
  else Returns full.

(** The loop that fills [available_models]. *)
Fixpoint available_names (models : list ModelInfo) : outcome (list string) :=
  match models with
  | [] => Returns []
  | m :: rest =>
      if bool_decide ("generateContent" ∈ supported_generation_methods m)
      then
        let! model_name := short_name (name m) in
        let! others := available_names rest in
        Returns (model_name :: others)
      else available_names rest
  end.

(** The [try] block of [get_available_model]: the name it returns, or
    [None] when it falls through. *)
Definition listed_model (g : Gemini) : outcome (option string) :=
  let! models := list_models g in
  let! available_models := available_names models in
  match List.find (fun preferred => bool_decide (preferred ∈ available_models))
          preferred_models with
  | Some preferred => Returns (Some preferred)
  | None =>
      match available_models with
      | first :: _ => Returns (Some first)
      | [] => Returns None
      end
  end.

Definition constructs (g : Gemini) (model_name : string) : bool :=
  match GenerativeModel g model_name with
  | Returns _ => true
  | Raises _ => false
  end.

Definition get_available_model (g : Gemini) : option string :=
  if negb (GEMINI_AVAILABLE g) then None
  else
    match try_except_Exception (listed_model g) (fun _ => Returns None) with
    | Returns (Some model_name) => Some model_name
    | _ =>
        match List.find (constructs g) preferred_models with
        | Some model_name => Some model_name
        | None => Some "gemini-2.5-flash"
        end
    end.

(** [a or b] for two optional strings. *)
Definition or_else (a b : option string) : option string :=
  match a with
  | Some s => if Py.nonempty s then Some s else b
  | None => b
  end.

Definition initialize_gemini (g : Gemini) (api_key : option string) : bool :=
  if negb (GEMINI_AVAILABLE g) then false
  else
    match or_else api_key (getenv g "GEMINI_API_KEY") with
    | None => false
    | Some api_key =>
        if negb (Py.nonempty api_key) then false
        else
          match configure g api_key with
          | Returns _ => true
          | Raises _ => false
          end
    end.

(** [from PIL import Image; img = Image.open(image_path)] under
    [except ImportError: img = None]. *)
Definition open_image (g : Gemini) (image_path : string)
  : outcome (option PILImage) :=
  match Image_open g with
  | None => Returns None
  | Some open => let! img := open image_path in Returns (Some img)
  end.

(** [genai.GenerativeModel(name)] followed by [generate_content] and
    [response.text]. *)
Definition ask (g : Gemini) (model_name prompt : string) (img : option PILImage)
  : outcome string :=
  let! _ := GenerativeModel g model_name in
  generate_content g model_name prompt img.

(** The loop over the alternative models: the first answer obtained from a
    model other than [model_name]. *)
Fixpoint try_alternatives (g : Gemini) (model_name prompt : string)
    (img : option PILImage) (alternatives : list string) : option string :=
  match alternatives with
  | [] => None
  | alt_model :: rest =>
      if String.eqb alt_model model_name
      then try_alternatives g model_name prompt img rest
      else
        match ask g alt_model prompt img with
        | Returns text => Some text
        | Raises _ => try_alternatives g model_name prompt img rest
        end
  end.

(** The two dictionaries [analyze_xray_image] reads. *)
Record SsimResults : Type := {
  sr_prediction : option string;
  sr_summary : option (gmap string Report.t);
  sr_confidence_diff : option Q
}.

Inductive CnnInfo : Type :=
| CnnPrediction (confidence : Q) (label : string)
| CnnError (error : string).

(** [cnn.get("error")] is set and true. *)
Definition has_error (cnn : CnnInfo) : bool :=
  match cnn with
  | CnnPrediction _ _ => false
  | CnnError error => Py.nonempty error
  end.

Definition percent_text (g : Gemini) (results : SsimResults) (category : string)
  : string :=
  match default ∅ (sr_summary results) !! category with
  | Some entry => str_float g (Report.similarity_percent entry)
  | None => "0"
  end.

Definition analysis_context (g : Gemini) (ssim_results : SsimResults)
    (cnn_results : option CnnInfo) : string :=
  ("You are a medical AI assistant analyzing a chest X-ray image. Please provide a clear, educational analysis.

Analysis Results:
- SSIM/MSE Prediction: "
   ++ default "Unknown" (sr_prediction ssim_results)
   ++ "
- Normal Similarity: " ++ percent_text g ssim_results NORMAL
   ++ "%
- Pneumonia Similarity: " ++ percent_text g ssim_results PNEUMONIA
   ++ "%
")
  ++ match cnn_results with
     | Some cnn =>
         if negb (has_error cnn)
         then "
- CNN Prediction: "
              ++ match cnn with CnnPrediction _ label => label | CnnError _ => "Unknown" end
              ++ "
- CNN Confidence: "
              ++ match cnn with
                 | CnnPrediction confidence _ => str_float g confidence
                 | CnnError _ => "0"
                 end
              ++ "%
"
         else ""
     | None => ""
     end
  ++ "

IMPORTANT DISCLAIMERS:
- This is NOT a medical diagnosis
- Results are for educational/research purposes only
- Always consult a licensed healthcare provider
- Do not use this information to make medical decisions

Please provide:
1. A brief observation of the X-ray image
2. What the analysis results suggest
3. General educational information about what to look for
4. Reminder to consult a healthcare professional

Keep the response concise, clear, and educational. Do not provide medical diagnoses.
".

Definition analysis_note : string :=
  "

Note: I cannot see the image directly, but here are the analysis results from computer vision models.".

Definition analyze_xray_image (g : Gemini) (image_path : string)
    (ssim_results : SsimResults) (cnn_results : option CnnInfo)
  : outcome (option string) :=
  if negb (GEMINI_AVAILABLE g) then Returns None
  else
    try_except_Exception
      (if negb (initialize_gemini g None) then Returns None
       else
         let! img := open_image g image_path in
         let context := analysis_context g ssim_results cnn_results in
         match get_available_model g with
         | None => Returns None
         | Some model_name =>
             if negb (Py.nonempty model_name) then Returns None
             else
               match ask g model_name context img with
               | Returns text => Returns (Some text)
               | Raises _ =>
                   match try_alternatives g model_name context img
                           alternative_models with
                   | Some text => Returns (Some text)
                   | None =>
                       let full_prompt := context ++ analysis_note in
                       match ask g "gemini-pro" full_prompt None with
                       | Returns text => Returns (Some text)
                       | Raises _ => Returns None
                       end
                   end
               end
         end)
      (fun _ => Returns None).

Definition system_context : string :=
  "You are a medical AI assistant helping to answer questions about a chest X-ray image. 
Remember:
- This is NOT a medical diagnosis
- Provide educational information only
- Always remind users to consult healthcare professionals
- Be clear and concise
".

(** One line of the prompt for a message of the history. *)
Definition history_line (msg : gmap string string) : string :=
  let role :=
    if bool_decide (msg !! "role" = Some "user") then "User" else "Assistant" in
  String "010" "" ++ role ++ ": " ++ default "" (msg !! "content").

Definition chat_prompt (message : string)
    (conversation_history : option (list (gmap string string))) : string :=
  system_context
  ++ match conversation_history with
     | Some (first :: rest) =>
         String.concat "" (List.map history_line (Py.last_n 5 (first :: rest)))
     | _ => ""
     end
  ++ "

User: " ++ message ++ "
Assistant:".

Definition image_required : string :=
  "Error: Image is required for chat functionality. Please upload an image first.".

Definition chat_note : string :=
  "

Note: I have access to the X-ray image but cannot process it directly. Please answer based on the conversation context.".

Definition chat_with_gemini (g : Gemini) (message image_path : string)
    (conversation_history : option (list (gmap string string)))
  : outcome (option string) :=
  if negb (GEMINI_AVAILABLE g) then Returns None
  else
    try_except_Exception
      (if negb (initialize_gemini g None) then Returns None
       else
         let! img := open_image g image_path in
         let full_prompt := chat_prompt message conversation_history in
         match get_available_model g with
         | None => Returns None
         | Some model_name =>
             if negb (Py.nonempty model_name) then Returns None
             else
               match img with
               | None => Returns (Some image_required)
               | Some img =>
                   match ask g model_name full_prompt (Some img) with
                   | Returns text => Returns (Some text)
                   | Raises _ =>
                       match try_alternatives g model_name full_prompt (Some img)
                               alternative_models with
                       | Some text => Returns (Some text)
                       | None =>
                           let fallback_prompt := full_prompt ++ chat_note in
                           match ask g "gemini-pro" fallback_prompt None with
                           | Returns text => Returns (Some text)
                           | Raises _ => Returns None
                           end
                       end
                   end
               end
         end)
      (fun _ => Returns None).

End GeminiApi.

(** ** app.py: the request handlers *)

(** [str(e)] *)
Definition exn_text (e : exn) : string :=
  match e with
  | ValueError msg | TypeError msg | IndexError msg | OSError msg
  | cv2_error msg => msg
  end.

Module App.

Import GeminiApi.

Record Warning : Type := {
  message : string;
  details : string;
  cnn_preferred : bool
}.

Definition results_mismatch : Warning :=
  {| message := "⚠️ Results Mismatch Detected";
     details := "The CNN model and SSIM/MSE comparison produced different results. The CNN prediction is generally more reliable as it's trained on a large dataset, but we recommend taking precautions and consulting with a medical professional for a definitive diagnosis.";
     cnn_preferred := true |}.

Definition uncertain_ssim : Warning :=
  {| message := "⚠️ Uncertain SSIM/MSE Result";
     details := "The SSIM/MSE comparison showed uncertain results, but the CNN model provided a clear prediction. The CNN result is preferred in this case.";
     cnn_preferred := true |}.

(** [cnn_info.get("label", "")] *)
Definition label_of (cnn_info : CnnInfo) : string :=
  match cnn_info with
  | CnnPrediction _ label => label
  | CnnError _ => ""
  end.

(** The comparison of the two verdicts in [analyze]. *)
Definition mismatch_warning (cnn_info : option CnnInfo) (prediction : string)
  : option Warning :=
  match cnn_info with
  | None => None
  | Some cnn_info =>
      if negb (has_error cnn_info)
      then
        let cnn_label := label_of cnn_info in
        let ssim_pred := prediction in
        let cnn_is_pneumonia := Py.contains "Pneumonia" cnn_label in
        let ssim_is_pneumonia := Py.contains "Pneumonia" ssim_pred in
        if negb (Bool.eqb cnn_is_pneumonia ssim_is_pneumonia)
        then Some results_mismatch
        else if Py.contains "Uncertain" ssim_pred then Some uncertain_ssim
        else None
      else None
  end.

(** An uploaded file of the request; it is true when its name is not empty. *)
Record FileStorage : Type := { filename : string }.

Record Session : Type := {
  current_image_path : option string;
  conversation_history : option (list (gmap string string))
}.

(** The calls of [url_for]. *)
Inductive Url : Type :=
| url_index
| url_uploaded_file (name : string)
| url_dataset_file (category : option string) (name : string).

(** The arguments of [render_template("result.html", ...)]. *)
Record ResultPage : Type := {
  upload_url : Url;
  best_match_path : option Url;
  best_match_info : option match_record;
  page_summary : gmap string Report.t;
  page_prediction : string;
  page_confidence_diff : Q;
  page_cnn_info : option CnnInfo;
  page_mismatch_warning : option Warning;
  gemini_analysis : option string;
  gemini_available : bool
}.

Inductive Response : Type :=
| redirect (location : Url)
| render_result (page : ResultPage)
| send_from_directory (directory name : string).

(** The environment of the application.  [cnn] and [gemini] are [None]
    when the module could not be imported; [save] gives the file system
    after [file.save(path)]. *)
Record Env : Type := {
  cnn : option Cnn.Keras;
  gemini : option Gemini;
  BASE_DIR : string;
  UPLOAD_FOLDER : string;
  secure_filename : string -> string;
  save : World -> FileStorage -> string -> outcome World;
  path_exists : World -> string -> bool
}.

Definition HAVE_CNN (app : Env) : bool :=
  match cnn app with Some _ => true | None => false end.

Definition HAVE_GEMINI (app : Env) : bool :=
  match gemini app with Some g => GEMINI_AVAILABLE g | None => false end.

Record State : Type := {
  files : World;
  session : Session;
  flashed : list string
}.

Definition flash (st : State) (text : string) : State :=
  {| files := files st; session := session st;
     flashed := (flashed st ++ [text])%list |}.

(** [os.path.basename] *)
Definition basename (path : string) : string :=
  match Py.rpartition "/" path with
  | Some (_, tail) => tail
  | None => path
  end.

Definition cnn_check (app : Env) (w : World) (saved_path : string)
  : option CnnInfo :=
  match cnn app with
  | Some keras =>
      if path_exists app w (Str.path_join (BASE_DIR app) "pneumonia_cnn_model.h5")
      then
        match Cnn.predict_image keras "pneumonia_cnn_model.h5" saved_path with
        | Returns (confidence, cnn_label) => Some (CnnPrediction confidence cnn_label)
        | Raises e => Some (CnnError (exn_text e))
        end
      else None
  | None => None
  end.

Definition gemini_check (app : Env) (saved_path prediction : string)
    (summary : gmap string Report.t) (confidence_diff : Q)
    (cnn_info : option CnnInfo) : option string :=
  match gemini app with
  | Some g =>
      if GEMINI_AVAILABLE g
      then
        match analyze_xray_image g saved_path
                {| sr_prediction := Some prediction;
                   sr_summary := Some summary;
                   sr_confidence_diff := Some confidence_diff |}
                cnn_info with
        | Returns analysis => analysis
        | Raises _ => None
        end
      else None
  | None => None
  end.

Definition best_match_url (best_match : option match_record)
  : outcome (option Url) :=
  match best_match with
  | None => Returns None
  | Some best_match =>
      match m_path best_match with
      | Some path =>
          Returns (Some (url_dataset_file (m_category best_match) (basename path)))
      | None =>
          Raises (TypeError "expected str, bytes or os.PathLike object, not NoneType")
      end
  end.

(** [analyze]; [request_files] is [request.files].  The rendering of the
    template and [url_for] are taken to succeed. *)
Definition analyze (app : Env) (request_files : gmap string FileStorage)
    (st : State) : outcome (Response * State) :=
  match request_files !! "file" with
  | None => Returns (redirect url_index, flash st "No file part")
  | Some file =>
      if String.eqb (filename file) ""
      then Returns (redirect url_index, flash st "No selected file")
      else
        let! allowed :=
          (if Py.nonempty (filename file) then allowed_file (filename file)
           else Returns false) in
        if allowed
        then
          let name := secure_filename app (filename file) in
          let saved_path := Str.path_join (UPLOAD_FOLDER app) name in
          let! w := save app (files st) file saved_path in
          let st := {| files := w; session := session st; flashed := flashed st |} in
          match compare_with_dataset w saved_path 40 [NORMAL; PNEUMONIA] with
          | Raises e =>
              Returns (redirect url_index,
                       flash st ("Error during SSIM comparison: " ++ exn_text e))
          | Returns results =>
              let cnn_info := cnn_check app w saved_path in
              let warning := mismatch_warning cnn_info (prediction results) in
              let analysis :=
                gemini_check app saved_path (prediction results) (summary results)
                  (confidence_diff results) cnn_info in
              let st :=
                {| files := w;
                   session := {| current_image_path := Some saved_path;
                                 conversation_history := Some [] |};
                   flashed := flashed st |} in
              let! link := best_match_url (best_match results) in
              Returns
                (render_result
                   {| upload_url := url_uploaded_file name;
                      best_match_path := link;
                      best_match_info := best_match results;
                      page_summary := summary results;
                      page_prediction := prediction results;
                      page_confidence_diff := confidence_diff results;
                      page_cnn_info := cnn_info;
                      page_mismatch_warning := warning;
                      gemini_analysis := analysis;
                      gemini_available := HAVE_GEMINI app |},
                 st)
          end
        else Returns (redirect url_index, flash st "Unsupported file type")
  end.

(** The body of a [jsonify] response. *)
Inductive Json : Type :=
| json_error (text : string)
| json_response (text : string).

Definition chat_message (role content : string) : gmap string string :=
  <["role" := role]> (<["content" := content]> ∅).

(** [gemini_chat], for a request whose body is a JSON object [data] with
    string values; the result is the body of the response, its status and
    the state after the request. *)
Definition gemini_chat (app : Env) (data : gmap string string) (st : State)
  : Json * nat * State :=
  if negb (HAVE_GEMINI app)
  then (json_error "Gemini API not available", 503%nat, st)
  else
    let message := Py.strip (default "" (data !! "message")) in
    if negb (Py.nonempty message)
    then (json_error "Message is required", 400%nat, st)
    else
      match current_image_path (session st) with
      | None => (json_error "No image available for chat", 400%nat, st)
      | Some image_path =>
          if negb (Py.nonempty image_path)
             || negb (path_exists app (files st) image_path)
          then (json_error "No image available for chat", 400%nat, st)
          else
            let history := default [] (conversation_history (session st)) in
            match gemini app with
            | None => (json_error "Gemini API not available", 503%nat, st)
            | Some g =>
                match chat_with_gemini g message image_path (Some history) with
                | Raises e => (json_error (exn_text e), 500%nat, st)
                | Returns (Some response) =>
                    if Py.nonempty response
                    then
                      let history :=
                        (history ++ [chat_message "user" message;
                                     chat_message "assistant" response])%list in
                      (json_response response, 200%nat,
                       {| files := files st;
                          session :=
                            {| current_image_path := current_image_path (session st);
                               conversation_history := Some (Py.last_n 10 history) |};
                          flashed := flashed st |})
                    else (json_error "Failed to get response from Gemini", 500%nat, st)
                | Returns None =>
                    (json_error "Failed to get response from Gemini", 500%nat, st)
                end
            end
      end.

(** [random.choice(seq)]; [below n] is the number that the generator draws
    below [n]. *)
Definition random_choice {A} (below : nat -> nat) (seq : list A) : outcome A :=
  match seq with
  | [] => Raises (IndexError "Cannot choose from an empty sequence")
  | _ :: _ => Py.getitem seq (below (List.length seq))
  end.

Definition DATA_DIR (app : Env) : string := Str.path_join (BASE_DIR app) "data".

(** [draws i] is the (i+1)-th draw of the generator in the request. *)
Definition sample_image (app : Env) (draws : nat -> nat -> nat) (st : State)
  : outcome (Response * State) :=
  let categories := [NORMAL; PNEUMONIA] in
  let! category := random_choice (draws 0%nat) categories in
  let cat_dir := Str.path_join (DATA_DIR app) category in
  let no_sample :=
    Returns (redirect url_index, flash st "No sample images available") in
  if isdir (files st) cat_dir
  then
    let! names := listdir (files st) cat_dir in
    let files := List.filter eligible names in
    match files with
    | _ :: _ =>
        let! filename := random_choice (draws 1%nat) files in
        Returns (send_from_directory cat_dir filename, st)
    | [] => no_sample
    end
  else no_sample.

End App.

(** A question and its answer, as [gemini_chat] stores them. *)
Definition exchange (qa : string * string) : list (gmap string string) :=
  [App.chat_message "user" (fst qa); App.chat_message "assistant" (snd qa)].

(** The history made of whole exchanges. *)
Definition exchanges (qas : list (string * string)) : list (gmap string string) :=
  flat_map exchange qas.

(** ** A small application

    A network that answers three quarters for every image, a Gemini account
    that lists three models, of which [gemini-1.5-flash] refuses every
    request, and the application over them: uploads are stored under
    [/srv/uploads] and the corpus is the one of [clinic]. *)

Definition reader : Cnn.Keras :=
  {| Cnn.model_output := fun _ _ => Returns (3 # 4) |}.

Definition assistant : GeminiApi.Gemini :=
  {| GeminiApi.GEMINI_AVAILABLE := true;
     GeminiApi.getenv := fun key =>
       if String.eqb key "GEMINI_API_KEY" then Some "secret" else None;
     GeminiApi.configure := fun _ => Returns tt;
     GeminiApi.list_models :=
       Returns
         [ {| GeminiApi.name := "models/embedding-001";
              GeminiApi.supported_generation_methods := ["embedContent"] |};
           {| GeminiApi.name := "models/gemini-1.5-flash";
              GeminiApi.supported_generation_methods :=
                ["generateContent"; "countTokens"] |};
           {| GeminiApi.name := "models/gemini-2.0-flash";
              GeminiApi.supported_generation_methods := ["generateContent"] |} ];
     GeminiApi.GenerativeModel := fun _ => Returns tt;
     GeminiApi.generate_content := fun model _ _ =>
       if String.eqb model "gemini-1.5-flash"
       then Raises (ValueError "blocked")
       else Returns ("answer of " ++ model);
     GeminiApi.Image_open :=
       Some (fun path => Returns {| GeminiApi.pil_path := path |});
     GeminiApi.str_float := fun _ => "50.0" |}.

Definition front_desk : App.Env :=
  {| App.cnn := Some reader;
     App.gemini := Some assistant;
     App.BASE_DIR := "/srv";
     App.UPLOAD_FOLDER := "/srv/uploads";
     App.secure_filename := fun name => name;
     App.save := fun w _ _ => Returns w;
     App.path_exists := fun _ _ => true |}.

(** The same application on a disk that refuses the upload. *)
Definition full_disk : App.Env :=
  {| App.cnn := Some reader;
     App.gemini := Some assistant;
     App.BASE_DIR := "/srv";
     App.UPLOAD_FOLDER := "/srv/uploads";
     App.secure_filename := fun name => name;
     App.save := fun _ _ _ => Raises (ValueError "embedded null byte");
     App.path_exists := fun _ _ => true |}.

(** The state before the first request. *)
Definition opening : App.State :=
  {| App.files := clinic;
     App.session := {| App.current_image_path := None;
                       App.conversation_history := None |};
     App.flashed := [] |}.

Definition upload : App.FileStorage := {| App.filename := "in.png" |}.

(** The state after an upload and one exchange of the chat, and the next
    question. *)
Definition consulting : App.State :=
  {| App.files := clinic;
     App.session :=
       {| App.current_image_path := Some "/srv/uploads/in.png";
          App.conversation_history :=
            Some (exchanges [("What do you see?", "Two lungs.")]) |};
     App.flashed := [] |}.

Definition question : gmap string string := {["message" := " Is it serious? "]}.

Definition upload_request : gmap string App.FileStorage := {["file" := upload]}.

Definition grey : MatF := {| shapeF := [1; 2]%nat; dataF := [1 # 2; 1 # 4] |}.
Definition dark : MatF := {| shapeF := [1; 2]%nat; dataF := [1 # 2; 3 # 4] |}.

(** The same world with a generator that makes every selection in the
    opposite order. *)
Definition reversed_draw (w : World) : World :=
  {| cv := cv w;
     structural_similarity := structural_similarity w;
     BASE_DATA_DIR := BASE_DATA_DIR w;
     isdir := isdir w;
     listdir := listdir w;
     choose := fun population k => List.rev (choose w population k) |}.

(** The entry that [results_summary] receives for the samples compared. *)
Definition entry_of (seen : list sample) : Entry.t :=
  {| Entry.avg_ssim := median_or_None (List.map s_ssim seen);
     Entry.avg_mse := median_or_None (List.map s_mse seen);
     Entry.samples_compared := List.length seen |}.

(** Two entries, and two reported values, with the same numbers. *)
Definition same_entry (e1 e2 : Entry.t) : Prop :=
  option_Forall2 Qeq (Entry.avg_ssim e1) (Entry.avg_ssim e2) /\
  option_Forall2 Qeq (Entry.avg_mse e1) (Entry.avg_mse e2) /\
  Entry.samples_compared e1 = Entry.samples_compared e2.

Definition same_report (e1 e2 : Report.t) : Prop :=
  option_Forall2 Qeq (Report.avg_ssim e1) (Report.avg_ssim e2) /\
  option_Forall2 Qeq (Report.avg_mse e1) (Report.avg_mse e2) /\
  Report.similarity_percent e1 == Report.similarity_percent e2 /\
  Report.samples_compared e1 = Report.samples_compared e2.

(** * Properties *)

(** ** The image normalizer *)

Lemma step_failure_raises cv path e :
  step_failure cv path e -> preprocess_steps cv path = Raises e.
Proof.
  unfold preprocess_steps.
  destruct 1 as [H0|i0 H0 H1|i0 i1 H0 H1 H2|i0 i1 i2 H0 H1 H2 H3
                 |i0 i1 i2 i3 H0 H1 H2 H3 H4];
    rewrite H0; cbn; try rewrite H1; cbn; try rewrite H2; cbn;
    try rewrite H3; cbn; try rewrite H4; reflexivity.
Qed.

Lemma preprocess_image_returns cv path :
  exists r, preprocess_image cv path = Returns r.
Proof.
  unfold preprocess_image.
  destruct (preprocess_steps cv path) as [r|e]; cbn; eauto.
Qed.

Lemma preprocess_image_not_raises cv path e :
  preprocess_image cv path <> Raises e.
Proof.
  destruct (preprocess_image_returns cv path) as [r Hr]. congruence.
Qed.

Lemma preprocess_image_shape cv path img :
  cv2_contract cv ->
  preprocess_image cv path = Returns (Some img) ->
  shape8 img = [512; 512]%nat.
Proof.
  intros Hcv. unfold preprocess_image, preprocess_steps.
  destruct (imread cv path) as [[i0|]|e0]; cbn; try discriminate.
  destruct (resize cv i0 (512, 512)%nat) as [i1|e1] eqn:H1; cbn; try discriminate.
  destruct (normalize cv i1) as [i2|e2] eqn:H2; cbn; try discriminate.
  destruct (clahe_apply cv i2) as [i3|e3] eqn:H3; cbn; try discriminate.
  destruct (GaussianBlur cv i3) as [i4|e4] eqn:H4; cbn; try discriminate.
  intros [= <-].
  rewrite (blur_shape cv Hcv _ _ H4), (clahe_shape cv Hcv _ _ H3),
    (normalize_shape cv Hcv _ _ H2).
  exact (resize_shape cv Hcv _ _ _ _ H1).
Qed.

Lemma byte_value_range b : (0 <= byte_value b <= 255)%Z.
Proof.
  unfold byte_value. pose proof (Byte.to_N_bounded b). lia.
Qed.

(** C3. [preprocess_image] raises for no path: it returns a value, which is
    [None] whenever decoding, resizing, min-max normalization, CLAHE or the
    Gaussian blur raises and whenever the file does not decode, and only
    then; when the five steps return, it is the image that the blur
    returns.  A returned image is a 512 x 512 two-dimensional array of
    8-bit values. *)
Theorem preprocess_image_total cv path :
  cv2_contract cv ->
  exists r,
    preprocess_image cv path = Returns r /\
    (forall e, step_failure cv path e -> r = None) /\
    (imread cv path = Returns None -> r = None) /\
    (r = None ->
     imread cv path = Returns None \/ exists e, step_failure cv path e) /\
    (forall i0 i1 i2 i3 i4,
       imread cv path = Returns (Some i0) ->
       resize cv i0 (512, 512)%nat = Returns i1 ->
       normalize cv i1 = Returns i2 ->
       clahe_apply cv i2 = Returns i3 ->
       GaussianBlur cv i3 = Returns i4 ->
       r = Some i4) /\
    (forall img, r = Some img ->
       shape8 img = [512; 512]%nat /\
       Forall (fun b => (0 <= byte_value b <= 255)%Z) (data8 img)).
Proof.
  intros Hcv.
  destruct (preprocess_image_returns cv path) as [r Hr].
  exists r. split; [exact Hr|]. split; [|split; [|split; [|split]]].
  - intros e Hfail. apply step_failure_raises in Hfail.
    unfold preprocess_image in Hr. rewrite Hfail in Hr. cbn in Hr. congruence.
  - intros Hnone. unfold preprocess_image, preprocess_steps in Hr.
    rewrite Hnone in Hr. cbn in Hr. congruence.
  - intros ->. unfold preprocess_image, preprocess_steps in Hr.
    destruct (imread cv path) as [[i0|]|e0] eqn:H0; cbn in Hr;
      [|now left|right; exists e0; now constructor].
    right.
    destruct (resize cv i0 (512, 512)%nat) as [i1|e1] eqn:H1; cbn in Hr;
      [|exists e1; eapply resize_fails; eauto].
    destruct (normalize cv i1) as [i2|e2] eqn:H2; cbn in Hr;
      [|exists e2; eapply normalize_fails; eauto].
    destruct (clahe_apply cv i2) as [i3|e3] eqn:H3; cbn in Hr;
      [|exists e3; eapply clahe_fails; eauto].
    destruct (GaussianBlur cv i3) as [i4|e4] eqn:H4; cbn in Hr;
      [discriminate|exists e4; eapply blur_fails; eauto].
  - intros i0 i1 i2 i3 i4 H0 H1 H2 H3 H4.
    unfold preprocess_image, preprocess_steps in Hr.
    rewrite H0 in Hr. cbn in Hr. rewrite H1 in Hr. cbn in Hr.
    rewrite H2 in Hr. cbn in Hr. rewrite H3 in Hr. cbn in Hr.
    rewrite H4 in Hr. cbn in Hr. congruence.
  - intros img ->. split.
    + eapply preprocess_image_shape; eauto.
    + apply Forall_forall. intros b _. apply byte_value_range.
Qed.

Lemma toy_cv_contract : cv2_contract Toy.toy_cv.
Proof.
  constructor; cbn.
  - intros img width height r [= <-]. reflexivity.
  - intros img r [= <-]. reflexivity.
  - intros img r [= <-]. reflexivity.
  - intros img r [= <-]. reflexivity.
Qed.

Lemma preprocess_image_total_witness :
  cv2_contract Toy.toy_cv /\
  exists r,
    preprocess_image Toy.toy_cv "a.png" = Returns r /\
    (forall e, step_failure Toy.toy_cv "a.png" e -> r = None) /\
    (imread Toy.toy_cv "a.png" = Returns None -> r = None) /\
    (r = None ->
     imread Toy.toy_cv "a.png" = Returns None \/
     exists e, step_failure Toy.toy_cv "a.png" e) /\
    (forall i0 i1 i2 i3 i4,
       imread Toy.toy_cv "a.png" = Returns (Some i0) ->
       resize Toy.toy_cv i0 (512, 512)%nat = Returns i1 ->
       normalize Toy.toy_cv i1 = Returns i2 ->
       clahe_apply Toy.toy_cv i2 = Returns i3 ->
       GaussianBlur Toy.toy_cv i3 = Returns i4 ->
       r = Some i4) /\
    (forall img, r = Some img ->
       shape8 img = [512; 512]%nat /\
       Forall (fun b => (0 <= byte_value b <= 255)%Z) (data8 img)).
Proof.
  split.
  - exact toy_cv_contract.
  - exact (preprocess_image_total Toy.toy_cv "a.png" toy_cv_contract).
Defined.

Example preprocess_image_decode_error :
  imread Toy.toy_cv "" = Raises (cv2_error "empty file name") /\
  preprocess_image Toy.toy_cv "" = Returns None.
Proof. split; reflexivity. Qed.

Example preprocess_image_unreadable :
  preprocess_image Toy.toy_cv "/srv/uploads/xray.txt" = Returns None.
Proof. reflexivity. Qed.

(** ** Absence of exceptions in the comparison loops *)

Section NoRaise.

Variable w : World.
Variable uploaded : MatF.
Hypothesis Hcv : cv2_contract (cv w).
Hypothesis Hssim : ssim_raises_only_ValueError w.
Hypothesis Hshape : shapeF uploaded = [512; 512]%nat.

Lemma compare_sample_returns path :
  exists r, compare_sample w uploaded path = Returns r.
Proof.
  unfold compare_sample.
  destruct (preprocess_image_returns (cv w) path) as [[img|] Hr];
    rewrite Hr; cbn; [|eauto].
  assert (Hs : shapeF (astype_unit img) = shapeF uploaded).
  { cbn. rewrite Hshape. eapply preprocess_image_shape; eauto. }
  destruct (decide _) as [Hne|_]; [contradiction|]. cbn.
  destruct (structural_similarity w uploaded (astype_unit img)) as [s|e] eqn:Hsim;
    cbn; [eauto|].
  rewrite (Hssim _ _ _ Hsim). eauto.
Qed.

Lemma scan_samples_returns category sampled :
  forall ssim_scores mse_scores best_match,
  exists r,
    scan_samples w uploaded category sampled ssim_scores mse_scores best_match
    = Returns r.
Proof.
  induction sampled as [|path rest IH]; intros ss ms bm; cbn; [eauto|].
  destruct (compare_sample_returns path) as [[[s m]|] Hr]; rewrite Hr; cbn;
    apply IH.
Qed.

Lemma random_sample_returns population sample_size :
  (0 <= sample_size)%Z ->
  random_sample w population
    (Z.min sample_size (Z.of_nat (List.length population)))
  = Returns (choose w population
               (Z.to_nat (Z.min sample_size (Z.of_nat (List.length population))))).
Proof.
  intros Hn. unfold random_sample.
  set (k := Z.min sample_size (Z.of_nat (List.length population))).
  assert (H : (0 <=? k)%Z && (k <=? Z.of_nat (List.length population))%Z = true).
  { apply andb_true_intro. split; apply Z.leb_le; lia. }
  rewrite H. reflexivity.
Qed.

Lemma scan_categories_returns sample_size categories :
  (0 <= sample_size)%Z ->
  listable w categories ->
  forall results_summary best_match,
  exists r,
    scan_categories w uploaded sample_size categories results_summary best_match
    = Returns r.
Proof.
  intros Hn. induction categories as [|category rest IH]; intros Hl rs bm; cbn;
    [eauto|].
  assert (Hrest : listable w rest) by (intros c Hc; apply Hl; now right).
  destruct (negb _) eqn:Hdir; [now apply IH|].
  apply negb_false_iff in Hdir.
  destruct (Hl category (or_introl eq_refl) Hdir) as [names ->]. cbn [obind].
  destruct (List.map _ (List.filter eligible names)) as [|f files] eqn:Hfiles;
    [now apply IH|].
  rewrite (random_sample_returns _ _ Hn). cbn.
  destruct (scan_samples_returns category
              (choose w (f :: files)
                 (Z.to_nat (Z.min sample_size (Z.of_nat (List.length (f :: files))))))
              [] [] bm) as [[[ss ms] bm'] Hr].
  cbn in Hr. rewrite Hr. cbn. now apply IH.
Qed.

End NoRaise.

(** ** The loops and their specification-level views *)

Lemma Qlt_bool_iff x y : Qlt_bool x y = true <-> x < y.
Proof.
  unfold Qlt_bool. rewrite negb_true_iff.
  split.
  - intros H. apply Qnot_le_lt. intros Hle.
    apply Qle_bool_iff in Hle. congruence.
  - intros H. destruct (Qle_bool y x) eqn:E; [|reflexivity].
    apply Qle_bool_iff in E. apply Qlt_not_le in H. contradiction.
Qed.

Lemma Qlt_bool_false_iff x y : Qlt_bool x y = false <-> y <= x.
Proof.
  unfold Qlt_bool. rewrite negb_false_iff. apply Qle_bool_iff.
Qed.

Lemma scan_samples_spec w uploaded category sampled :
  forall ssim_scores mse_scores best_match r,
    scan_samples w uploaded category sampled ssim_scores mse_scores best_match
    = Returns r ->
    r = ((ssim_scores ++ List.map s_ssim (compared w uploaded category sampled))%list,
         (mse_scores ++ List.map s_mse (compared w uploaded category sampled))%list,
         fold_left track (compared w uploaded category sampled) best_match).
Proof.
  induction sampled as [|path rest IH]; intros ss ms bm r; cbn.
  - intros [= <-]. now rewrite !app_nil_r.
  - destruct (compare_sample w uploaded path) as [[[s m]|]|e]; cbn.
    + intros H. apply IH in H. rewrite H.
      now rewrite <- !app_assoc.
    + apply IH.
    + discriminate.
Qed.

(** Whether the inner loop raises does not depend on what it has accumulated. *)
Lemma scan_samples_returns_any w uploaded category sampled :
  forall ss ms bm r ss' ms' bm',
    scan_samples w uploaded category sampled ss ms bm = Returns r ->
    exists r', scan_samples w uploaded category sampled ss' ms' bm' = Returns r'.
Proof.
  induction sampled as [|path rest IH]; intros ss ms bm r ss' ms' bm'; cbn.
  - eauto.
  - destruct (compare_sample w uploaded path) as [[[s m]|]|e]; cbn.
    + intros H. eapply IH; eauto.
    + intros H. eapply IH; eauto.
    + discriminate.
Qed.

Lemma category_files_listed w cat_dir names :
  listdir w cat_dir = Returns names ->
  category_files w cat_dir
  = List.map (Str.path_join cat_dir) (List.filter eligible names).
Proof. intros H. unfold category_files, listing. now rewrite H. Qed.

Lemma run_compared_cons w uploaded sample_size category rest :
  run_compared w uploaded sample_size (category :: rest)
  = (compared w uploaded category (drawn w sample_size category)
     ++ run_compared w uploaded sample_size rest)%list.
Proof. reflexivity. Qed.

Lemma scan_categories_spec w uploaded sample_size categories :
  forall results_summary best_match rs' bm',
    scan_categories w uploaded sample_size categories results_summary best_match
    = Returns (rs', bm') ->
    bm' = fold_left track (run_compared w uploaded sample_size categories) best_match /\
    forall key,
      rs' !! key =
      if bool_decide (key ∈ categories)
      then Some (category_entry w uploaded sample_size key)
      else results_summary !! key.
Proof.
  induction categories as [|category rest IH]; intros rs bm rs' bm'.
  - cbn. intros [= <- <-]. split; [reflexivity|]. intros key.
    rewrite bool_decide_eq_false_2; [reflexivity|]. apply not_elem_of_nil.
  - rewrite run_compared_cons, fold_left_app.
    cbn [scan_categories].
    assert (Hkey : forall (e : Entry.t) bm2,
      e = category_entry w uploaded sample_size category ->
      scan_categories w uploaded sample_size rest (<[category := e]> rs) bm2
      = Returns (rs', bm') ->
      bm' = fold_left track (run_compared w uploaded sample_size rest) bm2 /\
      forall key,
        rs' !! key =
        if bool_decide (key ∈ category :: rest)
        then Some (category_entry w uploaded sample_size key)
        else rs !! key).
    { intros e bm2 He H. apply IH in H as [Hbm Hrs].
      split; [exact Hbm|]. intros key. rewrite Hrs.
      destruct (decide (key ∈ rest)) as [Hin|Hnin].
      - rewrite !bool_decide_eq_true_2; [reflexivity| |exact Hin].
        apply elem_of_cons. now right.
      - rewrite (bool_decide_eq_false_2 _ Hnin).
        destruct (decide (key = category)) as [->|Hne].
        + rewrite lookup_insert_eq.
          rewrite bool_decide_eq_true_2 by (apply elem_of_cons; now left).
          now rewrite He.
        + rewrite lookup_insert_ne by congruence.
          rewrite bool_decide_eq_false_2; [reflexivity|].
          rewrite elem_of_cons. tauto. }
    unfold category_entry in Hkey. unfold drawn in *.
    destruct (negb (isdir w _)).
    { cbn. apply Hkey. reflexivity. }
    destruct (listdir w _) as [names|e] eqn:Hlist; cbn [obind]; [|discriminate].
    cbv zeta. rewrite <- (category_files_listed _ _ _ Hlist).
    destruct (category_files w _) as [|f files] eqn:Hfiles.
    { cbn. apply Hkey. reflexivity. }
    destruct (random_sample w (f :: files) _) as [sampled|e]; cbn; [|discriminate].
    destruct (scan_samples w uploaded category sampled [] [] bm)
      as [[[ss ms] bm1]|e] eqn:Hscan; cbn; [|discriminate].
    apply scan_samples_spec in Hscan. injection Hscan as -> -> ->.
    cbn [app]. apply Hkey.
    now rewrite length_map.
Qed.

(** ** The result of a call *)

Lemma compare_with_dataset_inv w path sample_size categories r :
  compare_with_dataset w path sample_size categories = Returns r ->
  exists img rs bm,
    preprocess_image (cv w) path = Returns (Some img) /\
    scan_categories w (astype_unit img) sample_size categories ∅ initial_best_match
    = Returns (rs, bm) /\
    r = report rs bm.
Proof.
  unfold compare_with_dataset.
  destruct (preprocess_image (cv w) path) as [[img|]|e]; cbn; try discriminate.
  destruct (scan_categories _ _ _ _ _ _) as [[rs bm]|e] eqn:Hscan; cbn;
    try discriminate.
  intros [= <-]. exists img, rs, bm. auto.
Qed.

Lemma compare_with_dataset_input_fails w path sample_size categories :
  preprocess_image (cv w) path = Returns None ->
  compare_with_dataset w path sample_size categories
  = Raises (ValueError "❌ Uploaded image could not be preprocessed.").
Proof.
  intros H. unfold compare_with_dataset. now rewrite H.
Qed.

Lemma compare_with_dataset_returns w path sample_size categories img :
  cv2_contract (cv w) ->
  ssim_raises_only_ValueError w ->
  listable w categories ->
  (0 <= sample_size)%Z ->
  preprocess_image (cv w) path = Returns (Some img) ->
  exists rs bm,
    scan_categories w (astype_unit img) sample_size categories ∅ initial_best_match
    = Returns (rs, bm) /\
    compare_with_dataset w path sample_size categories = Returns (report rs bm).
Proof.
  intros Hcv Hssim Hlist Hn Himg.
  assert (Hshape : shapeF (astype_unit img) = [512; 512]%nat).
  { cbn. eapply preprocess_image_shape; eauto. }
  destruct (scan_categories_returns w (astype_unit img) Hcv Hssim Hshape
              sample_size categories Hn Hlist ∅ initial_best_match)
    as [[rs bm] Hscan].
  exists rs, bm. split; [exact Hscan|].
  unfold compare_with_dataset. rewrite Himg. cbn. now rewrite Hscan.
Qed.



Lemma or_zero_default x : or_zero x == default 0 x.
Proof.
  destruct x as [v|]; cbn; [|reflexivity].
  destruct (Qeq_bool v 0) eqn:E; [|reflexivity].
  apply Qeq_bool_iff in E. now rewrite E.
Qed.

Lemma decide_prediction_spec a b :
  (decide_prediction a b = uncertain_result <-> Qabs (b - a) < 2 # 100) /\
  (~ Qabs (b - a) < 2 # 100 ->
   (a < b -> decide_prediction a b = pneumonia_detected) /\
   (b <= a -> decide_prediction a b = normal_lungs)).
Proof.
  unfold decide_prediction.
  destruct (Qlt_bool (Qabs (b - a)) (2 # 100)) eqn:Hd.
  - apply Qlt_bool_iff in Hd. split; [tauto|]. intros H. contradiction.
  - assert (Hnd : ~ Qabs (b - a) < 2 # 100).
    { apply Qlt_bool_false_iff in Hd. now apply Qle_not_lt. }
    destruct (Qlt_bool a b) eqn:Hab.
    + apply Qlt_bool_iff in Hab. split.
      * split; [discriminate|tauto].
      * intros _. split; [reflexivity|]. intros Hle. apply Qle_not_lt in Hle. contradiction.
    + apply Qlt_bool_false_iff in Hab. split.
      * split; [discriminate|tauto].
      * intros _. split; [|reflexivity]. intros Hlt. apply Qlt_not_le in Hlt. contradiction.
Qed.

(** At a margin of exactly 0.02 the verdict is no longer the uncertain one. *)
Example margin_boundary :
  decide_prediction (1 # 2) (52 # 100) = pneumonia_detected /\
  decide_prediction (52 # 100) (1 # 2) = normal_lungs /\
  decide_prediction (1 # 2) (51 # 100) = uncertain_result.
Proof. repeat split; reflexivity. Qed.

Lemma decide_prediction_comp a a' b b' :
  a == a' -> b == b' -> decide_prediction a b = decide_prediction a' b'.
Proof.
  intros Ha Hb. unfold decide_prediction.
  assert (H1 : Qlt_bool (Qabs (b - a)) (2 # 100) = Qlt_bool (Qabs (b' - a')) (2 # 100)).
  { apply eq_true_iff_eq. rewrite !Qlt_bool_iff. now rewrite Ha, Hb. }
  assert (H2 : Qlt_bool a b = Qlt_bool a' b').
  { apply eq_true_iff_eq. rewrite !Qlt_bool_iff. now rewrite Ha, Hb. }
  now rewrite H1, H2.
Qed.


#[global] Instance round_half_even_comp : Proper (Qeq ==> eq) round_half_even.
Proof.
  intros x y Hxy. unfold round_half_even.
  rewrite (Qfloor_comp _ _ Hxy).
  assert (H1 : Qlt_bool (x - inject_Z (Qfloor y)) (1 # 2)
               = Qlt_bool (y - inject_Z (Qfloor y)) (1 # 2)).
  { apply eq_true_iff_eq. rewrite !Qlt_bool_iff. now rewrite Hxy. }
  assert (H2 : Qlt_bool (1 # 2) (x - inject_Z (Qfloor y))
               = Qlt_bool (1 # 2) (y - inject_Z (Qfloor y))).
  { apply eq_true_iff_eq. rewrite !Qlt_bool_iff. now rewrite Hxy. }
  now rewrite H1, H2.
Qed.

Lemma py_round_comp x y n : x == y -> py_round x n == py_round y n.
Proof.
  intros Hxy. unfold py_round.
  assert (H : x * inject_Z (10 ^ Z.of_nat n) == y * inject_Z (10 ^ Z.of_nat n))
    by now rewrite Hxy.
  now rewrite (round_half_even_comp _ _ H).
Qed.


Lemma NORMAL_neq_PNEUMONIA : NORMAL <> PNEUMONIA.
Proof. discriminate. Qed.

Lemma report_NORMAL rs bm :
  let a := or_zero (rs !! NORMAL ≫= Entry.avg_ssim) in
  let b := or_zero (rs !! PNEUMONIA ≫= Entry.avg_ssim) in
  summary (report rs bm) !! NORMAL
  = Some (category_report rs NORMAL a (a / percent_total a b * 100)).
Proof.
  cbn. unfold report. cbn [summary]. now rewrite lookup_insert_eq.
Qed.

Lemma report_PNEUMONIA rs bm :
  let a := or_zero (rs !! NORMAL ≫= Entry.avg_ssim) in
  let b := or_zero (rs !! PNEUMONIA ≫= Entry.avg_ssim) in
  summary (report rs bm) !! PNEUMONIA
  = Some (category_report rs PNEUMONIA b (b / percent_total a b * 100)).
Proof.
  cbn. unfold report. cbn [summary].
  rewrite lookup_insert_ne by exact NORMAL_neq_PNEUMONIA.
  now rewrite lookup_insert_eq.
Qed.

Lemma scan_categories_score w uploaded n cs rs bm key :
  scan_categories w uploaded n cs ∅ initial_best_match = Returns (rs, bm) ->
  or_zero (rs !! key ≫= Entry.avg_ssim) == category_score w uploaded n cs key.
Proof.
  intros H. apply scan_categories_spec in H as [_ Hrs].
  rewrite or_zero_default, Hrs. unfold category_score.
  destruct (bool_decide (key ∈ cs)); cbn; [reflexivity|].
  now rewrite lookup_empty.
Qed.

(** C1. With [a] and [b] the median similarities of NORMAL and PNEUMONIA in
    a run, each taken as 0 when the category has no compared sample, the
    returned verdict is the uncertain one exactly when |b - a| < 0.02;
    otherwise it is the pneumonia one when b > a and the normal one when
    b <= a. *)
Theorem verdict_decision_boundary w path sample_size categories r :
  compare_with_dataset w path sample_size categories = Returns r ->
  exists img,
    preprocess_image (cv w) path = Returns (Some img) /\
    let a := category_score w (astype_unit img) sample_size categories NORMAL in
    let b := category_score w (astype_unit img) sample_size categories PNEUMONIA in
    (prediction r = uncertain_result <-> Qabs (b - a) < 2 # 100) /\
    (~ Qabs (b - a) < 2 # 100 ->
     (a < b -> prediction r = pneumonia_detected) /\
     (b <= a -> prediction r = normal_lungs)).
Proof.
  intros H. apply compare_with_dataset_inv in H as (img & rs & bm & Hpre & Hscan & ->).
  exists img. split; [exact Hpre|]. intros a b.
  unfold report. cbn [prediction].
  rewrite (decide_prediction_comp _ a _ b)
    by (eapply scan_categories_score; eauto).
  apply decide_prediction_spec.
Qed.





Lemma category_entry_empty w uploaded n c :
  isdir w (Str.path_join (BASE_DATA_DIR w) c) = false \/
  List.filter eligible (listing w (Str.path_join (BASE_DATA_DIR w) c)) = [] ->
  category_entry w uploaded n c = empty_entry.
Proof.
  unfold category_entry, category_files. intros [H|H]; rewrite H; cbn.
  - reflexivity.
  - now destruct (negb _).
Qed.

Lemma summary_lookup rs bm c rep :
  summary (report rs bm) !! c = Some rep ->
  (c = NORMAL \/ c = PNEUMONIA) /\
  exists score percent, rep = category_report rs c score percent /\
    score = or_zero (rs !! c ≫= Entry.avg_ssim).
Proof.
  unfold report. cbn [summary]. intros H.
  destruct (decide (c = NORMAL)) as [->|Hn].
  - rewrite lookup_insert_eq in H. injection H as <-. split; [now left|]. eauto.
  - rewrite lookup_insert_ne in H by congruence.
    destruct (decide (c = PNEUMONIA)) as [->|Hp].
    + rewrite lookup_insert_eq in H. injection H as <-. split; [now right|]. eauto.
    + rewrite lookup_insert_ne in H by congruence. now rewrite lookup_empty in H.
Qed.

Lemma summary_lookup_two rs bm c :
  c = NORMAL \/ c = PNEUMONIA ->
  exists percent,
    summary (report rs bm) !! c
    = Some (category_report rs c (or_zero (rs !! c ≫= Entry.avg_ssim)) percent).
Proof.
  intros [-> | ->].
  - eexists. apply report_NORMAL.
  - eexists. apply report_PNEUMONIA.
Qed.

(** C4, amended. When the input normalizes, the sample size is not
    negative and the directories of the categories that exist can be
    listed, a reported category whose directory is absent or is listed
    without an eligible file does not make the call raise: the call returns
    a record in which that category has [samples_compared] 0, [avg_mse]
    null and [avg_ssim] 0.0. *)
Theorem absent_category_degrades w path sample_size categories img c :
  cv2_contract (cv w) ->
  ssim_raises_only_ValueError w ->
  listable w categories ->
  (0 <= sample_size)%Z ->
  preprocess_image (cv w) path = Returns (Some img) ->
  c = NORMAL \/ c = PNEUMONIA ->
  isdir w (Str.path_join (BASE_DATA_DIR w) c) = false \/
  (exists names,
     listdir w (Str.path_join (BASE_DATA_DIR w) c) = Returns names /\
     List.filter eligible names = []) ->
  exists r entry,
    compare_with_dataset w path sample_size categories = Returns r /\
    summary r !! c = Some entry /\
    Report.samples_compared entry = 0%nat /\
    Report.avg_mse entry = None /\
    Report.avg_ssim entry = Some 0.
Proof.
  intros Hcv Hssim Hlist Hn Himg Hc Habsent.
  assert (Hempty :
    isdir w (Str.path_join (BASE_DATA_DIR w) c) = false \/
    List.filter eligible (listing w (Str.path_join (BASE_DATA_DIR w) c)) = []).
  { destruct Habsent as [Hd|(names & Hnames & Hnone)]; [now left|right].
    unfold listing. now rewrite Hnames. }
  destruct (compare_with_dataset_returns w path sample_size categories img
              Hcv Hssim Hlist Hn Himg) as (rs & bm & Hscan & Hret).
  apply scan_categories_spec in Hscan as [_ Hrs].
  destruct (summary_lookup_two rs bm c Hc) as [percent Hlook].
  exists (report rs bm), (category_report rs c (or_zero (rs !! c ≫= Entry.avg_ssim)) percent).
  split; [exact Hret|]. split; [exact Hlook|].
  assert (Hentry : rs !! c = None \/ rs !! c = Some empty_entry).
  { rewrite Hrs. destruct (bool_decide (c ∈ categories)).
    - right. now rewrite (category_entry_empty _ _ _ _ Hempty).
    - left. apply lookup_empty. }
  unfold category_report. cbn.
  destruct Hentry as [-> | ->]; cbn; auto.
Qed.

(** C4 as stated fails: for an absent PNEUMONIA directory the returned
    [avg_ssim] is the number 0.0, not null. *)
Lemma absent_category_counterexample :
  exists r entry,
    isdir inverted_corpus (Str.path_join (BASE_DATA_DIR inverted_corpus) PNEUMONIA) = false /\
    compare_with_dataset inverted_corpus "/srv/uploads/in.png" 40 [NORMAL; PNEUMONIA]
    = Returns r /\
    summary r !! PNEUMONIA = Some entry /\
    Report.samples_compared entry = 0%nat /\
    Report.avg_ssim entry = Some 0 /\
    Report.avg_ssim entry <> None.
Proof.
  eexists _, _. split; [reflexivity|].
  split; [vm_compute; reflexivity|]. split; [vm_compute; reflexivity|].
  split; [reflexivity|]. split; [reflexivity|]. discriminate.
Qed.

Lemma compared_length w uploaded c sampled :
  (List.length (compared w uploaded c sampled) <= List.length sampled)%nat.
Proof.
  induction sampled as [|path rest IH]; cbn; [lia|].
  destruct (compare_sample w uploaded path) as [[[s m]|]|e]; cbn; lia.
Qed.

Lemma drawn_length w sample_size c :
  sample_contract w ->
  (0 <= sample_size)%Z ->
  (Z.of_nat (List.length (drawn w sample_size c))
   <= Z.min sample_size
        (Z.of_nat (List.length
           (category_files w (Str.path_join (BASE_DATA_DIR w) c)))))%Z.
Proof.
  intros Hs Hn. unfold drawn.
  destruct (negb (isdir w _)); [cbn; lia|].
  destruct (category_files w _) as [|f files]; [cbn; lia|].
  rewrite (random_sample_returns w (f :: files) sample_size Hn).
  rewrite (choose_length w Hs) by lia. lia.
Qed.

(** C7, amended. For a sample size that is not negative, the
    [samples_compared] of every entry of the returned summary is at most
    the minimum of the sample size and the number of eligible files in the
    category's directory. *)
Theorem samples_compared_bound w path sample_size categories r c entry :
  sample_contract w ->
  (0 <= sample_size)%Z ->
  compare_with_dataset w path sample_size categories = Returns r ->
  summary r !! c = Some entry ->
  (Z.of_nat (Report.samples_compared entry)
   <= Z.min sample_size
        (Z.of_nat (List.length
           (List.filter eligible (listing w (Str.path_join (BASE_DATA_DIR w) c))))))%Z.
Proof.
  intros Hs Hn Hrun Hlook.
  apply compare_with_dataset_inv in Hrun as (img & rs & bm & _ & Hscan & ->).
  apply scan_categories_spec in Hscan as [_ Hrs].
  apply summary_lookup in Hlook as (_ & score & percent & -> & _).
  cbn [category_report Report.samples_compared].
  rewrite Hrs.
  pose proof (drawn_length w sample_size c Hs Hn) as Hd.
  unfold category_files in Hd. rewrite length_map in Hd.
  destruct (bool_decide (c ∈ categories)); cbn; [|rewrite lookup_empty; cbn; lia].
  unfold category_entry.
  destruct (negb (isdir w _)); [cbn; lia|].
  destruct (category_files w _); [cbn; lia|].
  cbn [Entry.samples_compared].
  pose proof (compared_length w (astype_unit img) c (drawn w sample_size c)). lia.
Qed.

(** C7 as stated fails for a negative sample size: with no reference
    directory the call returns [samples_compared] 0, above min(-1, 0). *)
Lemma samples_compared_bound_counterexample :
  exists r entry,
    compare_with_dataset no_corpus "/srv/uploads/in.png" (-1) [NORMAL; PNEUMONIA]
    = Returns r /\
    summary r !! NORMAL = Some entry /\
    (Z.min (-1)
       (Z.of_nat (List.length
          (List.filter eligible
             (listing no_corpus (Str.path_join (BASE_DATA_DIR no_corpus) NORMAL)))))
     < Z.of_nat (Report.samples_compared entry))%Z.
Proof.
  eexists _, _. split; [vm_compute; reflexivity|].
  split; [vm_compute; reflexivity|]. vm_compute. reflexivity.
Qed.

(** ** The best-match tracker *)

Lemma track_cases bm x :
  (m_ssim bm < s_ssim x /\ track bm x = as_match x) \/
  (s_ssim x <= m_ssim bm /\ track bm x = bm).
Proof.
  unfold track, update_best.
  destruct (Qlt_bool (m_ssim bm) (s_ssim x)) eqn:E.
  - left. apply Qlt_bool_iff in E. now split.
  - right. apply Qlt_bool_false_iff in E. now split.
Qed.

(** A later sample with the same similarity leaves the tracker as it is. *)
Lemma track_tie bm x : s_ssim x == m_ssim bm -> track bm x = bm.
Proof.
  intros H. destruct (track_cases bm x) as [[Hlt _]|[_ Heq]]; [|exact Heq].
  rewrite H in Hlt. now apply Qlt_irrefl in Hlt.
Qed.

Lemma fold_track_split seen :
  forall bm0,
    (fold_left track seen bm0 = bm0 /\
     Forall (fun y => s_ssim y <= m_ssim bm0) seen) \/
    (exists before x after,
       seen = (before ++ x :: after)%list /\
       fold_left track seen bm0 = as_match x /\
       m_ssim bm0 < s_ssim x /\
       Forall (fun y => s_ssim y < s_ssim x) before /\
       Forall (fun y => s_ssim y <= s_ssim x) after).
Proof.
  induction seen as [|x rest IH]; intros bm0; cbn [fold_left].
  - left. split; [reflexivity|constructor].
  - destruct (track_cases bm0 x) as [[Hlt Hx]|[Hle Hx]]; rewrite Hx.
    + destruct (IH (as_match x))
        as [[Hfold Hall]|(before & y & after & -> & Hfold & Hy & Hb & Ha)];
        right.
      * exists [], x, rest. cbn in Hall.
        split; [reflexivity|]. split; [exact Hfold|]. split; [exact Hlt|].
        split; [constructor|exact Hall].
      * exists (x :: before), y, after. cbn in Hy.
        split; [reflexivity|]. split; [exact Hfold|]. split; [lra|].
        split; [constructor; [exact Hy|exact Hb]|exact Ha].
    + destruct (IH bm0)
        as [[Hfold Hall]|(before & y & after & -> & Hfold & Hy & Hb & Ha)].
      * left. split; [exact Hfold|]. constructor; [exact Hle|exact Hall].
      * right. exists (x :: before), y, after.
        split; [reflexivity|]. split; [exact Hfold|]. split; [exact Hy|].
        split; [constructor; [lra|exact Hb]|exact Ha].
Qed.

(** C6. A reported best match is one of the samples compared during the
    run; every sample compared before it has a strictly smaller similarity
    and every sample compared after it a smaller or equal one.  So its
    similarity is the maximum over both categories, and among the samples
    attaining the maximum it is the first seen. *)
Theorem best_match_is_first_maximum w path sample_size categories r bm :
  compare_with_dataset w path sample_size categories = Returns r ->
  best_match r = Some bm ->
  exists img before x after,
    preprocess_image (cv w) path = Returns (Some img) /\
    run_compared w (astype_unit img) sample_size categories
    = (before ++ x :: after)%list /\
    bm = as_match x /\
    Forall (fun y => s_ssim y < s_ssim x) before /\
    Forall (fun y => s_ssim y <= s_ssim x) after.
Proof.
  intros Hrun Hbest.
  apply compare_with_dataset_inv in Hrun as (img & rs & bm' & Hpre & Hscan & ->).
  apply scan_categories_spec in Hscan as [-> _].
  unfold report in Hbest. cbn [best_match] in Hbest.
  destruct (fold_track_split (run_compared w (astype_unit img) sample_size categories)
              initial_best_match)
    as [[Hfold _]|(before & x & after & Hsplit & Hfold & _ & Hb & Ha)].
  - rewrite Hfold in Hbest. discriminate.
  - rewrite Hfold in Hbest. destruct (truthy _); [|discriminate].
    injection Hbest as <-. exists img, before, x, after. auto.
Qed.

(** ** Paths of the samples *)

Lemma append_nonempty a f : (a ++ f)%string = "" -> f = "".
Proof. destruct a; [auto|discriminate]. Qed.

Lemma path_join_nonempty a f : f <> "" -> Str.path_join a f <> "".
Proof.
  intros Hf. unfold Str.path_join.
  destruct (Str.startswith f "/"); [exact Hf|].
  destruct (_ || _).
  - intros H. apply append_nonempty in H. contradiction.
  - intros H. apply append_nonempty in H. discriminate.
Qed.

Lemma eligible_nonempty f : eligible f = true -> f <> "".
Proof. intros H ->. discriminate. Qed.

Lemma category_files_nonempty w dir x :
  In x (category_files w dir) -> x <> "".
Proof.
  unfold category_files. intros H. apply in_map_iff in H as (f & <- & Hf).
  apply filter_In in Hf as [_ Hf].
  apply path_join_nonempty. now apply eligible_nonempty.
Qed.

Lemma drawn_in_files w sample_size c x :
  sample_contract w ->
  In x (drawn w sample_size c) ->
  In x (category_files w (Str.path_join (BASE_DATA_DIR w) c)).
Proof.
  intros Hs. unfold drawn.
  destruct (negb (isdir w _)); [intros []|].
  destruct (category_files w _) as [|f files]; [intros []|].
  unfold random_sample. destruct (_ && _); [|intros []].
  apply (choose_from w Hs).
Qed.

Lemma compared_in w uploaded c sampled y :
  In y (compared w uploaded c sampled) ->
  s_category y = c /\ In (s_path y) sampled /\
  compare_sample w uploaded (s_path y) = Returns (Some (s_ssim y, s_mse y)).
Proof.
  induction sampled as [|path rest IH]; cbn; [intros []|].
  destruct (compare_sample w uploaded path) as [[[s m]|]|e] eqn:E.
  - intros [<-|H]; cbn; [auto|]. apply IH in H. tauto.
  - intros H. apply IH in H. tauto.
  - intros H. apply IH in H. tauto.
Qed.

Lemma compared_complete w uploaded c sampled path s m :
  In path sampled ->
  compare_sample w uploaded path = Returns (Some (s, m)) ->
  compared w uploaded c sampled <> [].
Proof.
  induction sampled as [|p rest IH]; cbn; [intros []|].
  intros [->|Hin] Hcmp.
  - rewrite Hcmp. discriminate.
  - destruct (compare_sample w uploaded p) as [[[s' m']|]|e]; [discriminate| |];
      eapply IH; eauto.
Qed.

Lemma compare_sample_similarity w uploaded path s m :
  compare_sample w uploaded path = Returns (Some (s, m)) ->
  exists img, structural_similarity w uploaded img = Returns s.
Proof.
  unfold compare_sample.
  destruct (preprocess_image (cv w) path) as [[img|]|e]; cbn; try discriminate.
  destruct (decide _) as [Hne|Heq]; cbn.
  - destruct (getitem (shapeF uploaded) 1) as [width|e]; cbn; try discriminate.
    destruct (getitem (shapeF uploaded) 0) as [height|e]; cbn; try discriminate.
    destruct (resizeF (cv w) _ _) as [img'|e]; cbn; try discriminate.
    destruct (structural_similarity w uploaded img') as [s'|e] eqn:E; cbn.
    + intros [= <- <-]. eauto.
    + destruct (is_ValueError e); discriminate.
  - destruct (structural_similarity w uploaded (astype_unit img)) as [s'|e] eqn:E; cbn.
    + intros [= <- <-]. eauto.
    + destruct (is_ValueError e); discriminate.
Qed.

Lemma run_compared_in w uploaded sample_size categories y :
  In y (run_compared w uploaded sample_size categories) ->
  In (s_category y) categories /\
  In (s_path y) (drawn w sample_size (s_category y)) /\
  compare_sample w uploaded (s_path y) = Returns (Some (s_ssim y, s_mse y)).
Proof.
  unfold run_compared. intros H. apply in_flat_map in H as (c & Hc & Hy).
  apply compared_in in Hy as (<- & Hp & Hcmp). auto.
Qed.

Lemma scan_samples_each_returns w uploaded c sampled :
  forall ss ms bm r,
    scan_samples w uploaded c sampled ss ms bm = Returns r ->
    forall p, In p sampled -> exists o, compare_sample w uploaded p = Returns o.
Proof.
  induction sampled as [|path rest IH]; intros ss ms bm r; cbn; [intros _ p []|].
  destruct (compare_sample w uploaded path) as [[[s m]|]|e] eqn:E; cbn;
    try discriminate.
  - intros H p [<-|Hp]; [eauto|]. eapply IH; eauto.
  - intros H p [<-|Hp]; [eauto|]. eapply IH; eauto.
Qed.

Lemma scan_categories_each_returns w uploaded sample_size categories :
  forall rs bm r,
    scan_categories w uploaded sample_size categories rs bm = Returns r ->
    forall c p, In c categories -> In p (drawn w sample_size c) ->
      exists o, compare_sample w uploaded p = Returns o.
Proof.
  induction categories as [|category rest IH]; intros rs bm r; cbn [scan_categories];
    [intros _ c p []|].
  intros H c p [<-|Hc].
  - unfold drawn. revert H.
    destruct (negb (isdir w _)); [intros _ []|].
    destruct (listdir w _) as [names|e0] eqn:Hlist; cbn [obind]; [|discriminate].
    cbv zeta. rewrite <- (category_files_listed _ _ _ Hlist).
    destruct (category_files w _) as [|f files]; [intros _ []|].
    destruct (random_sample w (f :: files) _) as [sampled|e]; cbn; [|discriminate].
    destruct (scan_samples w uploaded category sampled [] [] bm) as [scanned|e] eqn:Hscan;
      cbn; [|discriminate].
    intros _ Hp. eapply scan_samples_each_returns; eauto.
  - revert H.
    destruct (negb (isdir w _)); [intros H; eapply IH; eauto|].
    destruct (listdir w _) as [names|e0] eqn:Hlist; cbn [obind]; [|discriminate].
    cbv zeta. rewrite <- (category_files_listed _ _ _ Hlist).
    destruct (category_files w _) as [|f files]; [intros H; eapply IH; eauto|].
    destruct (random_sample w (f :: files) _) as [sampled|e]; cbn; [|discriminate].
    destruct (scan_samples w uploaded category sampled [] [] bm) as [[[ss ms] bm1]|e];
      cbn; [|discriminate].
    intros H; eapply IH; eauto.
Qed.

Lemma run_compared_nil w uploaded sample_size categories :
  run_compared w uploaded sample_size categories = [] <->
  forall c p s m, In c categories -> In p (drawn w sample_size c) ->
    compare_sample w uploaded p <> Returns (Some (s, m)).
Proof.
  split.
  - intros Hnil c p s m Hc Hp Hcmp.
    assert (Hin : compared w uploaded c (drawn w sample_size c) <> [])
      by (eapply compared_complete; eauto).
    destruct (compared w uploaded c (drawn w sample_size c)) as [|y l] eqn:E;
      [congruence|].
    assert (Hy : In y (run_compared w uploaded sample_size categories)).
    { unfold run_compared. apply in_flat_map. exists c. rewrite E. cbn. auto. }
    rewrite Hnil in Hy. destruct Hy.
  - intros Hall.
    destruct (run_compared w uploaded sample_size categories) as [|y l] eqn:E;
      [reflexivity|].
    assert (Hy : In y (run_compared w uploaded sample_size categories))
      by (rewrite E; now left).
    apply run_compared_in in Hy as (Hc & Hp & Hcmp).
    exfalso. eapply Hall; eauto.
Qed.

(** C8. The returned best match is non-null exactly when at least one
    sampled file was compared, and null exactly when every sampled file of
    every category failed preprocessing or the similarity computation.
    The similarity index is above -1 and the drawn files belong to the
    category's list. *)
Theorem best_match_iff_sample_compared w path sample_size categories r :
  ssim_above_minus_one w ->
  sample_contract w ->
  compare_with_dataset w path sample_size categories = Returns r ->
  exists img,
    preprocess_image (cv w) path = Returns (Some img) /\
    (best_match r <> None <->
     run_compared w (astype_unit img) sample_size categories <> []) /\
    (best_match r = None <->
     forall c p, In c categories -> In p (drawn w sample_size c) ->
       compare_sample w (astype_unit img) p = Returns None).
Proof.
  intros Hrange Hs Hrun.
  apply compare_with_dataset_inv in Hrun as (img & rs & bm & Hpre & Hscan & ->).
  exists img. split; [exact Hpre|].
  pose proof (scan_categories_each_returns _ _ _ _ _ _ _ Hscan) as Heach.
  apply scan_categories_spec in Hscan as [-> _].
  set (seen := run_compared w (astype_unit img) sample_size categories).
  assert (Hiff : best_match (report rs (fold_left track seen initial_best_match)) = None
                 <-> seen = []).
  { unfold report. cbn [best_match]. split.
    - intros Hnone.
      destruct (fold_track_split seen initial_best_match)
        as [[Hfold Hall]|(before & x & after & Hsplit & Hfold & _ & _ & _)].
      + destruct seen as [|y l] eqn:E; [reflexivity|]. exfalso.
        apply Forall_inv in Hall. cbn in Hall.
        assert (Hy : In y seen) by (rewrite E; now left).
        apply run_compared_in in Hy as (_ & _ & Hcmp).
        apply compare_sample_similarity in Hcmp as [img' Hsim].
        apply Hrange in Hsim. lra.
      + exfalso. rewrite Hfold in Hnone. cbn in Hnone.
        assert (Hx : In x seen) by (rewrite Hsplit; apply in_elt).
        apply run_compared_in in Hx as (_ & Hp & _).
        apply drawn_in_files in Hp; [|exact Hs].
        apply category_files_nonempty in Hp.
        destruct (String.eqb_spec (s_path x) ""); [contradiction|].
        discriminate.
    - intros ->. reflexivity. }
  split.
  - rewrite Hiff. tauto.
  - rewrite Hiff. unfold seen. rewrite run_compared_nil. split.
    + intros Hall c p Hc Hp.
      destruct (Heach c p Hc Hp) as [[[s m]|] Ho]; [|exact Ho].
      exfalso. eapply Hall; eauto.
    + intros Hall c p s m Hc Hp. rewrite (Hall c p Hc Hp). discriminate.
Qed.

(** ** Categories other than the two reported ones *)

Lemma scan_categories_filter_returns w uploaded sample_size keep categories :
  forall rs bm r rs2 bm2,
    scan_categories w uploaded sample_size categories rs bm = Returns r ->
    exists r2,
      scan_categories w uploaded sample_size (List.filter keep categories) rs2 bm2
      = Returns r2.
Proof.
  induction categories as [|category rest IH]; intros rs bm r rs2 bm2;
    cbn [scan_categories List.filter]; [eauto|].
  destruct (keep category); cbn [scan_categories].
  - destruct (negb (isdir w _)); [apply IH|].
    destruct (listdir w _) as [names|e0]; cbn [obind]; [|discriminate].
    cbv zeta.
    destruct (List.map _ (List.filter eligible names)) as [|f files]; [apply IH|].
    destruct (random_sample w (f :: files) _) as [sampled|e]; cbn; [|discriminate].
    destruct (scan_samples w uploaded category sampled [] [] bm)
      as [[[ss ms] bm1]|e] eqn:Hscan; cbn; [|discriminate].
    destruct (scan_samples_returns_any _ _ _ _ _ _ _ _ [] [] bm2 Hscan)
      as [[[ss2 ms2] bm3] Hscan2].
    rewrite Hscan2. cbn. apply IH.
  - destruct (negb (isdir w _)); [apply IH|].
    destruct (listdir w _) as [names|e0]; cbn [obind]; [|discriminate].
    cbv zeta.
    destruct (List.map _ (List.filter eligible names)) as [|f files]; [apply IH|].
    destruct (random_sample w (f :: files) _) as [sampled|e]; cbn; [|discriminate].
    destruct (scan_samples w uploaded category sampled [] [] bm)
      as [[[ss ms] bm1]|e]; cbn; [|discriminate].
    apply IH.
Qed.

Lemma report_depends rs bm rs2 bm2 :
  rs !! NORMAL = rs2 !! NORMAL ->
  rs !! PNEUMONIA = rs2 !! PNEUMONIA ->
  summary (report rs bm) = summary (report rs2 bm2) /\
  confidence_diff (report rs bm) = confidence_diff (report rs2 bm2) /\
  prediction (report rs bm) = prediction (report rs2 bm2).
Proof.
  intros HN HP. unfold report, category_report. cbn. now rewrite HN, HP.
Qed.

Lemma two_categories_iff c :
  two_categories c = true <-> c = NORMAL \/ c = PNEUMONIA.
Proof.
  unfold two_categories. rewrite orb_true_iff, !String.eqb_eq. tauto.
Qed.

Lemma elem_of_filter_two c categories :
  c = NORMAL \/ c = PNEUMONIA ->
  bool_decide (c ∈ List.filter two_categories categories)
  = bool_decide (c ∈ categories).
Proof.
  intros Hc. apply bool_decide_ext.
  rewrite !list_elem_of_In, filter_In, two_categories_iff. tauto.
Qed.

(** C10. For every [categories] argument the returned summary has exactly
    the keys NORMAL and PNEUMONIA; the prediction, [confidence_diff] and the
    two percentages are functions of the two reported scores; and the run
    restricted to those two categories returns a record with the same
    summary, the same [confidence_diff] and the same prediction: the other
    categories can only change [best_match]. *)
Theorem summary_of_two_categories_only w path sample_size categories r :
  compare_with_dataset w path sample_size categories = Returns r ->
  dom (summary r) = ({[NORMAL; PNEUMONIA]} : gset string) /\
  (exists normal pneumonia a b,
     summary r !! NORMAL = Some normal /\
     summary r !! PNEUMONIA = Some pneumonia /\
     Report.avg_ssim normal = Some a /\
     Report.avg_ssim pneumonia = Some b /\
     prediction r = decide_prediction a b /\
     confidence_diff r = py_round (Qabs (b - a)) 4 /\
     Report.similarity_percent normal = py_round (a / percent_total a b * 100) 2 /\
     Report.similarity_percent pneumonia = py_round (b / percent_total a b * 100) 2) /\
  exists r',
    compare_with_dataset w path sample_size (List.filter two_categories categories)
    = Returns r' /\
    summary r' = summary r /\
    confidence_diff r' = confidence_diff r /\
    prediction r' = prediction r.
Proof.
  intros Hrun.
  apply compare_with_dataset_inv in Hrun as (img & rs & bm & Hpre & Hscan & ->).
  split; [|split].
  - unfold report. cbn [summary]. rewrite !dom_insert_L, dom_empty_L.
    set_solver.
  - eexists _, _, _, _.
    split; [apply report_NORMAL|]. split; [apply report_PNEUMONIA|].
    repeat split; reflexivity.
  - destruct (scan_categories_filter_returns w (astype_unit img) sample_size
                two_categories categories _ _ _ ∅ initial_best_match Hscan)
      as [[rs2 bm2] Hscan2].
    exists (report rs2 bm2). split.
    + unfold compare_with_dataset. rewrite Hpre. cbn. now rewrite Hscan2.
    + apply scan_categories_spec in Hscan as [_ Hrs].
      apply scan_categories_spec in Hscan2 as [_ Hrs2].
      apply report_depends.
      * rewrite Hrs, Hrs2. now rewrite elem_of_filter_two by (now left).
      * rewrite Hrs, Hrs2. now rewrite elem_of_filter_two by (now right).
Qed.

Lemma random_sample_from w population k sampled p :
  sample_contract w ->
  random_sample w population k = Returns sampled ->
  In p sampled -> In p population.
Proof.
  intros Hs. unfold random_sample. destruct (_ && _); [|discriminate].
  intros [= <-]. apply (choose_from w Hs).
Qed.

Section TwoRuns.

Variables w1 w2 : World.
Hypothesis Hlib : same_libraries w1 w2.

Lemma preprocess_image_same path :
  imread (cv w1) path = imread (cv w2) path ->
  preprocess_image (cv w1) path = preprocess_image (cv w2) path.
Proof.
  intros Hread. unfold preprocess_image, preprocess_steps. rewrite Hread.
  destruct (imread (cv w2) path) as [[i0|]|e]; cbn; try reflexivity.
  rewrite (same_resize _ _ Hlib).
  destruct (resize (cv w2) i0 _) as [i1|e]; cbn; try reflexivity.
  rewrite (same_normalize _ _ Hlib).
  destruct (normalize (cv w2) i1) as [i2|e]; cbn; try reflexivity.
  rewrite (same_clahe _ _ Hlib).
  destruct (clahe_apply (cv w2) i2) as [i3|e]; cbn; try reflexivity.
  now rewrite (same_blur _ _ Hlib).
Qed.

Lemma compare_sample_same uploaded path :
  imread (cv w1) path = imread (cv w2) path ->
  compare_sample w1 uploaded path = compare_sample w2 uploaded path.
Proof.
  intros Hread. unfold compare_sample.
  rewrite (preprocess_image_same path Hread).
  destruct (preprocess_image (cv w2) path) as [[img|]|e]; cbn; try reflexivity.
  destruct (decide _); cbn.
  - destruct (getitem (shapeF uploaded) 1) as [width|e]; cbn; try reflexivity.
    destruct (getitem (shapeF uploaded) 0) as [height|e]; cbn; try reflexivity.
    rewrite (same_resizeF _ _ Hlib).
    destruct (resizeF (cv w2) _ _) as [img'|e]; cbn; try reflexivity.
    now rewrite (same_ssim _ _ Hlib).
  - now rewrite (same_ssim _ _ Hlib).
Qed.

Lemma scan_samples_same uploaded category sampled :
  (forall p, In p sampled -> imread (cv w1) p = imread (cv w2) p) ->
  forall ss ms bm,
    scan_samples w1 uploaded category sampled ss ms bm
    = scan_samples w2 uploaded category sampled ss ms bm.
Proof.
  induction sampled as [|path rest IH]; intros Hread ss ms bm; cbn; [reflexivity|].
  rewrite (compare_sample_same uploaded path) by (apply Hread; now left).
  destruct (compare_sample w2 uploaded path) as [[[s m]|]|e]; cbn;
    try reflexivity; apply IH; intros p Hp; apply Hread; now right.
Qed.

Lemma scan_categories_same uploaded path sample_size categories :
  sample_contract w1 ->
  same_inputs w1 w2 path categories ->
  forall rs bm,
    scan_categories w1 uploaded sample_size categories rs bm
    = scan_categories w2 uploaded sample_size categories rs bm.
Proof.
  intros Hs Hin.
  assert (Hsub : forall cs, (forall c, In c cs -> In c categories) ->
    forall rs bm,
      scan_categories w1 uploaded sample_size cs rs bm
      = scan_categories w2 uploaded sample_size cs rs bm).
  { induction cs as [|category rest IH]; intros Hcs rs bm; cbn [scan_categories];
      [reflexivity|].
    assert (Hc : In category categories) by (apply Hcs; now left).
    assert (Hrest : forall c, In c rest -> In c categories)
      by (intros c H; apply Hcs; now right).
    rewrite <- (same_base _ _ _ _ Hin).
    rewrite <- (same_isdir _ _ _ _ Hin category Hc).
    destruct (negb (isdir w1 _)); [now apply IH|].
    rewrite <- (same_listdir _ _ _ _ Hin category Hc).
    destruct (listdir w1 _) as [names|e0] eqn:Hlist; cbn [obind]; [|reflexivity].
    cbv zeta. rewrite <- (category_files_listed _ _ _ Hlist).
    destruct (category_files w1 _) as [|f files] eqn:E; [now apply IH|].
    assert (Hdraw : forall k, random_sample w1 (f :: files) k
                               = random_sample w2 (f :: files) k).
    { intros k. unfold random_sample.
      pose proof (same_choice _ _ _ _ Hin category (Z.to_nat k) Hc) as Hchoose.
      rewrite E in Hchoose. now rewrite Hchoose. }
    rewrite <- Hdraw.
    destruct (random_sample w1 (f :: files) _) as [sampled|e] eqn:Hsampled;
      cbn [obind]; [|reflexivity].
    rewrite (scan_samples_same uploaded category).
    - destruct (scan_samples w2 uploaded category _ [] [] bm) as [[[ss ms] bm1]|e];
        cbn [obind]; [|reflexivity].
      now apply IH.
    - intros p Hp. apply (same_files _ _ _ _ Hin category p Hc).
      rewrite E. eapply random_sample_from; eauto. }
  apply Hsub. auto.
Qed.

End TwoRuns.

(** C9. Two runs that read the same input image and the same corpus for
    the given categories, with the same library functions and the same
    selections of the generator, have the same outcome, field by field. *)
Theorem deterministic_given_the_draw w1 w2 path sample_size categories :
  sample_contract w1 ->
  same_libraries w1 w2 ->
  same_inputs w1 w2 path categories ->
  compare_with_dataset w1 path sample_size categories
  = compare_with_dataset w2 path sample_size categories.
Proof.
  intros Hs Hlib Hin. unfold compare_with_dataset.
  rewrite (preprocess_image_same w1 w2 Hlib path (same_upload _ _ _ _ Hin)).
  destruct (preprocess_image (cv w2) path) as [[img|]|e]; cbn; try reflexivity.
  now rewrite (scan_categories_same w1 w2 Hlib (astype_unit img) path sample_size
                 categories Hs Hin).
Qed.

(** ** The concrete corpora satisfy the contracts *)

Lemma toy_sample_contract dirs scores : sample_contract (Toy.world dirs scores).
Proof.
  constructor; cbn.
  - intros population k Hk. now apply length_take_le.
  - intros population k x Hx. apply list_elem_of_In.
    apply list_elem_of_In in Hx. eapply subseteq_take; eauto.
Qed.

Lemma toy_listable dirs scores categories :
  listable (Toy.world dirs scores) categories.
Proof. intros c _ _. cbn. eauto. Qed.

Lemma lookup_score_raises table code e :
  Toy.lookup_score table code = Raises e -> is_ValueError e = true.
Proof.
  induction table as [|[[|c name] s] rest IH]; cbn.
  - intros [= <-]. reflexivity.
  - exact IH.
  - destruct (_ =? _)%Z; [discriminate|exact IH].
Qed.

Lemma toy_ssim_raises_only_ValueError dirs scores :
  ssim_raises_only_ValueError (Toy.world dirs scores).
Proof.
  intros a b e. cbn. apply lookup_score_raises.
Qed.

Lemma lookup_score_above table code s :
  Forall (fun entry => -1 < snd entry) table ->
  Toy.lookup_score table code = Returns s -> -1 < s.
Proof.
  induction 1 as [|[[|c name] s'] rest Hs Hrest IH]; cbn.
  - discriminate.
  - exact IH.
  - destruct (_ =? _)%Z; [|exact IH]. intros [= <-]. exact Hs.
Qed.

Lemma toy_ssim_above_minus_one dirs scores :
  Forall (fun entry => -1 < snd entry) scores ->
  ssim_above_minus_one (Toy.world dirs scores).
Proof.
  intros Hall a b s. cbn. now apply lookup_score_above.
Qed.

Lemma clinic_scores_above : ssim_above_minus_one clinic.
Proof.
  apply toy_ssim_above_minus_one. repeat constructor.
Qed.

Lemma clinic_same_libraries : same_libraries clinic clinic_archived.
Proof. constructor; reflexivity. Qed.

Lemma clinic_same_inputs :
  same_inputs clinic clinic_archived "/srv/uploads/in.png" [NORMAL; PNEUMONIA].
Proof.
  constructor; try reflexivity.
  - intros c [<-|[<-|[]]]; reflexivity.
  - intros c [<-|[<-|[]]]; reflexivity.
Qed.

Example clinic_archived_differs :
  isdir clinic "/srv/data/ARCHIVE" = false /\
  isdir clinic_archived "/srv/data/ARCHIVE" = true.
Proof. split; reflexivity. Qed.

(** ** The theorems at concrete runs *)

Lemma verdict_decision_boundary_witness :
  exists r,
    compare_with_dataset clinic "/srv/uploads/in.png" 40 [NORMAL; PNEUMONIA]
    = Returns r /\
    exists img,
      preprocess_image (cv clinic) "/srv/uploads/in.png" = Returns (Some img) /\
      let a := category_score clinic (astype_unit img) 40 [NORMAL; PNEUMONIA] NORMAL in
      let b := category_score clinic (astype_unit img) 40 [NORMAL; PNEUMONIA] PNEUMONIA in
      (prediction r = uncertain_result <-> Qabs (b - a) < 2 # 100) /\
      (~ Qabs (b - a) < 2 # 100 ->
       (a < b -> prediction r = pneumonia_detected) /\
       (b <= a -> prediction r = normal_lungs)).
Proof.
  eexists. split.
  - vm_compute. reflexivity.
  - apply (verdict_decision_boundary clinic "/srv/uploads/in.png" 40
             [NORMAL; PNEUMONIA]).
    vm_compute. reflexivity.
Defined.

Example clinic_run :
  exists r normal pneumonia,
    compare_with_dataset clinic "/srv/uploads/in.png" 40 [NORMAL; PNEUMONIA]
    = Returns r /\
    summary r !! NORMAL = Some normal /\
    summary r !! PNEUMONIA = Some pneumonia /\
    Report.avg_ssim normal = Some (3 # 4) /\
    Report.samples_compared normal = 3%nat /\
    Report.samples_compared pneumonia = 2%nat /\
    prediction r = normal_lungs /\
    best_match r
    = Some {| m_category := Some NORMAL; m_ssim := 9 # 10;
              m_mse := Finite (mse (astype_unit {| shape8 := [512; 512]%nat; data8 := [byte_of_ascii "i"] |})
                                   (astype_unit {| shape8 := [512; 512]%nat; data8 := [byte_of_ascii "e"] |}));
              m_path := Some "/srv/data/NORMAL/e.png" |}.
Proof.
  eexists _, _, _. split; [vm_compute; reflexivity|].
  split; [vm_compute; reflexivity|]. split; [vm_compute; reflexivity|].
  repeat split; vm_compute; reflexivity.
Qed.



Lemma absent_category_degrades_witness :
  exists img,
    cv2_contract (cv inverted_corpus) /\
    ssim_raises_only_ValueError inverted_corpus /\
    listable inverted_corpus [NORMAL; PNEUMONIA] /\
    (0 <= 40)%Z /\
    preprocess_image (cv inverted_corpus) "/srv/uploads/in.png"
    = Returns (Some img) /\
    (PNEUMONIA = NORMAL \/ PNEUMONIA = PNEUMONIA) /\
    isdir inverted_corpus (Str.path_join (BASE_DATA_DIR inverted_corpus) PNEUMONIA)
    = false /\
    exists r entry,
      compare_with_dataset inverted_corpus "/srv/uploads/in.png" 40
        [NORMAL; PNEUMONIA] = Returns r /\
      summary r !! PNEUMONIA = Some entry /\
      Report.samples_compared entry = 0%nat /\
      Report.avg_mse entry = None /\
      Report.avg_ssim entry = Some 0.
Proof.
  eexists.
  split; [exact toy_cv_contract|].
  split; [apply toy_ssim_raises_only_ValueError|].
  split; [apply toy_listable|].
  split; [lia|].
  split; [vm_compute; reflexivity|].
  split; [now right|].
  split; [reflexivity|].
  eapply (absent_category_degrades inverted_corpus "/srv/uploads/in.png" 40
            [NORMAL; PNEUMONIA] _ PNEUMONIA).
  - exact toy_cv_contract.
  - apply toy_ssim_raises_only_ValueError.
  - apply toy_listable.
  - lia.
  - vm_compute. reflexivity.
  - now right.
  - left. reflexivity.
Defined.


Lemma samples_compared_bound_witness :
  exists r entry,
    sample_contract clinic /\
    (0 <= 2)%Z /\
    compare_with_dataset clinic "/srv/uploads/in.png" 2 [NORMAL; PNEUMONIA]
    = Returns r /\
    summary r !! NORMAL = Some entry /\
    (Z.of_nat (Report.samples_compared entry)
     <= Z.min 2
          (Z.of_nat (List.length
             (List.filter eligible
                (listing clinic (Str.path_join (BASE_DATA_DIR clinic) NORMAL))))))%Z.
Proof.
  eexists _, _.
  split; [apply toy_sample_contract|].
  split; [lia|].
  split; [vm_compute; reflexivity|].
  split; [vm_compute; reflexivity|].
  eapply (samples_compared_bound clinic "/srv/uploads/in.png" 2
            [NORMAL; PNEUMONIA] _ NORMAL).
  - apply toy_sample_contract.
  - lia.
  - vm_compute. reflexivity.
  - vm_compute. reflexivity.
Defined.

Lemma best_match_is_first_maximum_witness :
  exists r bm,
    compare_with_dataset clinic "/srv/uploads/in.png" 40 [NORMAL; PNEUMONIA]
    = Returns r /\
    best_match r = Some bm /\
    exists img before x after,
      preprocess_image (cv clinic) "/srv/uploads/in.png" = Returns (Some img) /\
      run_compared clinic (astype_unit img) 40 [NORMAL; PNEUMONIA]
      = (before ++ x :: after)%list /\
      bm = as_match x /\
      Forall (fun y => s_ssim y < s_ssim x) before /\
      Forall (fun y => s_ssim y <= s_ssim x) after.
Proof.
  eexists _, _.
  split; [vm_compute; reflexivity|].
  split; [vm_compute; reflexivity|].
  eapply (best_match_is_first_maximum clinic "/srv/uploads/in.png" 40
            [NORMAL; PNEUMONIA]).
  - vm_compute. reflexivity.
  - vm_compute. reflexivity.
Defined.

(** Two samples tie at the maximum: the one seen first is reported. *)
Example clinic_tie :
  exists img,
    preprocess_image (cv clinic) "/srv/uploads/in.png" = Returns (Some img) /\
    List.map (fun y => (s_path y, s_ssim y))
      (run_compared clinic (astype_unit img) 40 [NORMAL; PNEUMONIA])
    = [("/srv/data/NORMAL/a.png", 3 # 4); ("/srv/data/NORMAL/b.JPG", 1 # 2);
       ("/srv/data/NORMAL/e.png", 9 # 10); ("/srv/data/PNEUMONIA/c.jpeg", 9 # 10);
       ("/srv/data/PNEUMONIA/f.png", 1 # 4)] /\
    (m_path <$> best_match
       (match compare_with_dataset clinic "/srv/uploads/in.png" 40 [NORMAL; PNEUMONIA]
        with
        | Returns r => r
        | Raises _ => report ∅ initial_best_match
        end))
    = Some (Some "/srv/data/NORMAL/e.png").
Proof.
  eexists. split; [vm_compute; reflexivity|].
  split; vm_compute; reflexivity.
Qed.

Lemma best_match_iff_sample_compared_witness :
  exists r,
    ssim_above_minus_one clinic /\
    sample_contract clinic /\
    compare_with_dataset clinic "/srv/uploads/in.png" 40 [NORMAL; PNEUMONIA]
    = Returns r /\
    exists img,
      preprocess_image (cv clinic) "/srv/uploads/in.png" = Returns (Some img) /\
      (best_match r <> None <->
       run_compared clinic (astype_unit img) 40 [NORMAL; PNEUMONIA] <> []) /\
      (best_match r = None <->
       forall c p, In c [NORMAL; PNEUMONIA] -> In p (drawn clinic 40 c) ->
         compare_sample clinic (astype_unit img) p = Returns None).
Proof.
  eexists.
  split; [exact clinic_scores_above|].
  split; [apply toy_sample_contract|].
  split; [vm_compute; reflexivity|].
  apply (best_match_iff_sample_compared clinic "/srv/uploads/in.png" 40
           [NORMAL; PNEUMONIA]).
  - exact clinic_scores_above.
  - apply toy_sample_contract.
  - vm_compute. reflexivity.
Defined.

Lemma summary_of_two_categories_only_witness :
  exists r,
    compare_with_dataset clinic "/srv/uploads/in.png" 40
      ["OTHER"; NORMAL; PNEUMONIA] = Returns r /\
    dom (summary r) = ({[NORMAL; PNEUMONIA]} : gset string) /\
    (exists normal pneumonia a b,
       summary r !! NORMAL = Some normal /\
       summary r !! PNEUMONIA = Some pneumonia /\
       Report.avg_ssim normal = Some a /\
       Report.avg_ssim pneumonia = Some b /\
       prediction r = decide_prediction a b /\
       confidence_diff r = py_round (Qabs (b - a)) 4 /\
       Report.similarity_percent normal = py_round (a / percent_total a b * 100) 2 /\
       Report.similarity_percent pneumonia = py_round (b / percent_total a b * 100) 2) /\
    exists r',
      compare_with_dataset clinic "/srv/uploads/in.png" 40
        (List.filter two_categories ["OTHER"; NORMAL; PNEUMONIA]) = Returns r' /\
      summary r' = summary r /\
      confidence_diff r' = confidence_diff r /\
      prediction r' = prediction r.
Proof.
  eexists. split.
  - vm_compute. reflexivity.
  - apply (summary_of_two_categories_only clinic "/srv/uploads/in.png" 40
             ["OTHER"; NORMAL; PNEUMONIA]).
    vm_compute. reflexivity.
Defined.

(** The third category changes the best match, and nothing else. *)
Example other_category_changes_best_match :
  exists r r',
    compare_with_dataset clinic "/srv/uploads/in.png" 40
      ["OTHER"; NORMAL; PNEUMONIA] = Returns r /\
    compare_with_dataset clinic "/srv/uploads/in.png" 40 [NORMAL; PNEUMONIA]
    = Returns r' /\
    (m_path <$> best_match r) = Some (Some "/srv/data/OTHER/g.png") /\
    (m_path <$> best_match r') = Some (Some "/srv/data/NORMAL/e.png") /\
    summary r = summary r'.
Proof.
  eexists _, _. split; [vm_compute; reflexivity|].
  split; [vm_compute; reflexivity|].
  repeat split; vm_compute; reflexivity.
Qed.

Lemma deterministic_given_the_draw_witness :
  sample_contract clinic /\
  same_libraries clinic clinic_archived /\
  same_inputs clinic clinic_archived "/srv/uploads/in.png" [NORMAL; PNEUMONIA] /\
  compare_with_dataset clinic "/srv/uploads/in.png" 40 [NORMAL; PNEUMONIA]
  = compare_with_dataset clinic_archived "/srv/uploads/in.png" 40 [NORMAL; PNEUMONIA].
Proof.
  split; [apply toy_sample_contract|].
  split; [exact clinic_same_libraries|].
  split; [exact clinic_same_inputs|].
  apply deterministic_given_the_draw.
  - apply toy_sample_contract.
  - exact clinic_same_libraries.
  - exact clinic_same_inputs.
Defined.

(** * The code around the comparison *)

(** ** The mean squared error *)

Lemma Qsum_nonneg l : Forall (fun x => 0 <= x) l -> 0 <= Qsum l.
Proof.
  induction 1 as [|x l Hx Hl IH]; cbn; [lra|]. unfold Qsum in IH. lra.
Qed.

Lemma Qsum_zero l :
  Forall (fun x => 0 <= x) l -> Qsum l == 0 -> Forall (fun x => x == 0) l.
Proof.
  induction 1 as [|x l Hx Hl IH]; cbn; [constructor|].
  intros Hsum. pose proof (Qsum_nonneg l Hl) as Hnn. unfold Qsum in *.
  constructor; [lra|]. apply IH. lra.
Qed.

Lemma squares_nonneg (xs ys : list Q) :
  Forall (fun x => 0 <= x) (zip_with (fun x y => (x - y) ^ 2) xs ys).
Proof.
  revert ys. induction xs as [|x xs IH]; intros [|y ys]; cbn [zip_with];
    try constructor.
  - apply Qsqr_nonneg.
  - apply IH.
Qed.

Lemma mean_nonneg l : Forall (fun x => 0 <= x) l -> 0 <= mean l.
Proof.
  intros H. unfold mean. apply Qsum_nonneg in H.
  destruct l as [|x l].
  - now vm_compute.
  - apply Qle_shift_div_l; [|rewrite Qmult_0_l; exact H].
    change 0 with (inject_Z 0) at 1. rewrite <- Zlt_Qlt. cbn [List.length]. lia.
Qed.

Lemma mse_nonneg_any a b : 0 <= mse a b.
Proof. unfold mse. apply mean_nonneg, squares_nonneg. Qed.

Lemma sq_zero x y : (x - y) ^ 2 == 0 <-> x == y.
Proof.
  assert (H : (x - y) ^ 2 == (x - y) * (x - y)) by (cbn; ring).
  rewrite H. split.
  - intros Hz. apply Qmult_integral in Hz. lra.
  - intros ->. ring.
Qed.

Lemma squares_zero (xs ys : list Q) :
  List.length xs = List.length ys ->
  (Forall (fun x => x == 0) (zip_with (fun x y => (x - y) ^ 2) xs ys)
   <-> Forall2 Qeq xs ys).
Proof.
  revert ys. induction xs as [|x xs IH]; intros [|y ys]; cbn [zip_with List.length];
    try discriminate.
  - intros _. split; constructor.
  - intros [= Hlen]. specialize (IH ys Hlen). split.
    + intros H. apply Forall_cons_1 in H as [Hx Hr]. constructor.
      * now apply sq_zero.
      * now apply IH.
    + intros H. apply Forall2_cons_1 in H as [Hx Hr]. constructor.
      * now apply sq_zero.
      * now apply IH.
Qed.

Lemma mean_zero l :
  l <> [] -> Forall (fun x => 0 <= x) l ->
  (mean l == 0 <-> Forall (fun x => x == 0) l).
Proof.
  intros Hne Hnn. unfold mean.
  assert (Hlen : 0 < inject_Z (Z.of_nat (List.length l))).
  { change 0 with (inject_Z 0). rewrite <- Zlt_Qlt.
    destruct l; [contradiction|cbn [List.length]; lia]. }
  split.
  - intros Hz. apply Qsum_zero; [exact Hnn|].
    assert (Hs : Qsum l == Qsum l / inject_Z (Z.of_nat (List.length l))
                           * inject_Z (Z.of_nat (List.length l)))
      by (field; lra).
    rewrite Hs, Hz. ring.
  - intros Hall.
    assert (Hs : Qsum l == 0).
    { clear Hne Hnn Hlen. induction Hall as [|x l Hx Hl IH]; cbn; [reflexivity|].
      unfold Qsum in IH. lra. }
    rewrite Hs. field. lra.
Qed.

(** X1. The error of two images of the same shape that are not empty is
    never negative, and it is zero exactly when the two images agree at
    every pixel. *)
Theorem mse_nonneg_zero_iff_equal a b :
  shapeF a = shapeF b ->
  well_shaped a -> well_shaped b ->
  dataF a <> [] ->
  0 <= mse a b /\ (mse a b == 0 <-> Forall2 Qeq (dataF a) (dataF b)).
Proof.
  intros Hshape Ha Hb Hne.
  assert (Hlen : List.length (dataF a) = List.length (dataF b))
    by (unfold well_shaped in *; congruence).
  split; [apply mse_nonneg_any|].
  unfold mse. rewrite mean_zero.
  - now apply squares_zero.
  - destruct (dataF a) as [|x xs]; [contradiction|].
    destruct (dataF b) as [|y ys]; [discriminate|]. discriminate.
  - apply squares_nonneg.
Qed.

Lemma Qsum_squares_sym (xs ys : list Q) :
  Qsum (zip_with (fun x y => (x - y) ^ 2) xs ys)
  == Qsum (zip_with (fun x y => (x - y) ^ 2) ys xs).
Proof.
  revert ys. induction xs as [|x xs IH]; intros [|y ys]; cbn [zip_with];
    try reflexivity.
  cbn [Qsum foldr]. specialize (IH ys). unfold Qsum in IH. rewrite IH.
  assert (H : (x - y) ^ 2 == (y - x) ^ 2) by (cbn; ring).
  now rewrite H.
Qed.

Lemma length_zip_with_sym {A B} (f : A -> A -> B) (xs ys : list A) :
  List.length (zip_with f xs ys) = List.length (zip_with f ys xs).
Proof.
  revert ys. induction xs as [|x xs IH]; intros [|y ys]; cbn; auto.
Qed.

(** X2. The error does not depend on the order of its two arguments. *)
Theorem mse_symmetric a b : mse a b == mse b a.
Proof.
  unfold mse, mean.
  rewrite Qsum_squares_sym.
  now rewrite (length_zip_with_sym (fun x y => (x - y) ^ 2) (dataF a) (dataF b)).
Qed.

(** ** The median *)

Lemma insert_sorted_Forall (P : Q -> Prop) x l :
  P x -> Forall P l -> Forall P (insert_sorted x l).
Proof.
  intros Hx. induction 1 as [|y l Hy Hl IH]; cbn.
  - repeat constructor; exact Hx.
  - destruct (Qle_bool x y); repeat constructor; auto.
Qed.

Lemma sorted_Forall (P : Q -> Prop) l : Forall P l -> Forall P (sorted l).
Proof.
  unfold sorted. induction 1 as [|x l Hx Hl IH]; cbn [foldr]; [constructor|].
  now apply insert_sorted_Forall.
Qed.

Lemma insert_sorted_length x l :
  List.length (insert_sorted x l) = S (List.length l).
Proof.
  induction l as [|y l IH]; cbn; [reflexivity|].
  destruct (Qle_bool x y); cbn; [reflexivity|]. now rewrite IH.
Qed.

Lemma sorted_length l : List.length (sorted l) = List.length l.
Proof.
  unfold sorted. induction l as [|x l IH]; cbn [foldr]; [reflexivity|].
  now rewrite insert_sorted_length, IH.
Qed.

Lemma nth_Forall (P : Q -> Prop) l i :
  Forall P l -> (i < List.length l)%nat -> P (nth i l 0).
Proof.
  intros Hall Hi. rewrite Forall_forall in Hall. apply Hall.
  apply list_elem_of_In. now apply nth_In.
Qed.

Lemma median_convex (P : Q -> Prop) l :
  (forall u v, P u -> P v -> P ((u + v) / 2)) ->
  l <> [] -> Forall P l -> P (median l).
Proof.
  intros Havg Hne Hall. unfold median.
  apply sorted_Forall in Hall.
  assert (Hlen : (0 < List.length (sorted l))%nat).
  { rewrite sorted_length. destruct l; [contradiction|cbn; lia]. }
  set (s := sorted l) in *. set (n := List.length s) in *.
  assert (H2 : (n / 2 < n)%nat) by (apply Nat.div_lt; lia).
  destruct (Nat.even n) eqn:Heven.
  - assert (H1 : (n / 2 - 1 < n)%nat) by lia.
    apply Havg; apply nth_Forall; assumption.
  - apply nth_Forall; assumption.
Qed.

(** The median of a non-empty list of scores lies between any two bounds
    that hold for all the scores. *)
Lemma median_between lo hi l :
  l <> [] ->
  Forall (fun x => lo <= x /\ x <= hi) l ->
  lo <= median l /\ median l <= hi.
Proof.
  intros Hne Hall.
  apply (median_convex (fun x => lo <= x /\ x <= hi)); [|exact Hne|exact Hall].
  intros u v [L1 U1] [L2 U2]. split.
  - apply Qle_shift_div_l; lra.
  - apply Qle_shift_div_r; lra.
Qed.

Lemma median_lower lo l :
  l <> [] -> Forall (fun x => lo <= x) l -> lo <= median l.
Proof.
  intros Hne Hall.
  apply (median_convex (fun x => lo <= x)); [|exact Hne|exact Hall].
  intros u v L1 L2. apply Qle_shift_div_l; lra.
Qed.

Lemma insert_sorted_comp x x' l l' :
  x == x' -> Forall2 Qeq l l' ->
  Forall2 Qeq (insert_sorted x l) (insert_sorted x' l').
Proof.
  intros Hx. induction 1 as [|y y' l l' Hy Hl IH]; cbn.
  - repeat constructor; exact Hx.
  - assert (E : Qle_bool x y = Qle_bool x' y').
    { apply eq_true_iff_eq. rewrite !Qle_bool_iff. now rewrite Hx, Hy. }
    rewrite E. destruct (Qle_bool x' y'); repeat constructor; auto.
Qed.

Lemma Forall2_Qeq_refl l : Forall2 Qeq l l.
Proof. induction l; constructor; [reflexivity|assumption]. Qed.

Lemma Forall2_Qeq_trans l1 l2 l3 :
  Forall2 Qeq l1 l2 -> Forall2 Qeq l2 l3 -> Forall2 Qeq l1 l3.
Proof.
  intros H. revert l3. induction H as [|x y l1 l2 Hxy H IH]; intros l3 H3.
  - inversion H3. constructor.
  - inversion H3 as [|y' z l2' l3' Hyz H3']; subst. constructor.
    + now rewrite Hxy.
    + now apply IH.
Qed.

Lemma Forall2_Qeq_sym l1 l2 : Forall2 Qeq l1 l2 -> Forall2 Qeq l2 l1.
Proof.
  induction 1; constructor; [now symmetry|assumption].
Qed.

Ltac order_cases :=
  repeat match goal with
  | H : Qle_bool _ _ = true |- _ => apply Qle_bool_iff in H
  | H : Qle_bool ?a ?b = false |- _ =>
      assert (b < a) by (apply Qnot_le_lt; intros Hle;
                         apply Qle_bool_iff in Hle; congruence);
      clear H
  end.

Lemma insert_sorted_comm x y l :
  Forall2 Qeq (insert_sorted x (insert_sorted y l))
              (insert_sorted y (insert_sorted x l)).
Proof.
  induction l as [|z l IH]; cbn.
  - destruct (Qle_bool x y) eqn:Exy, (Qle_bool y x) eqn:Eyx; order_cases;
      try (exfalso; lra);
      repeat constructor; try reflexivity; lra.
  - destruct (Qle_bool y z) eqn:Eyz, (Qle_bool x z) eqn:Exz; cbn;
      rewrite ?Eyz, ?Exz;
      destruct (Qle_bool x y) eqn:Exy, (Qle_bool y x) eqn:Eyx; cbn;
      rewrite ?Eyz, ?Exz; order_cases;
      try (exfalso; lra);
      repeat (constructor; try reflexivity; try lra);
      try apply Forall2_Qeq_refl; try exact IH.
Qed.

Lemma sorted_permutation l l' :
  Permutation l l' -> Forall2 Qeq (sorted l) (sorted l').
Proof.
  unfold sorted.
  induction 1 as [|x l l' H IH|x y l|l1 l2 l3 H1 IH1 H2 IH2]; cbn [foldr].
  - constructor.
  - apply insert_sorted_comp; [reflexivity|exact IH].
  - apply insert_sorted_comm.
  - eapply Forall2_Qeq_trans; eauto.
Qed.

Lemma nth_Forall2_Qeq l l' i :
  Forall2 Qeq l l' -> nth i l 0 == nth i l' 0.
Proof.
  intros H. revert i. induction H as [|x y l l' Hxy H IH]; intros [|i]; cbn;
    try reflexivity; auto.
Qed.

(** The median does not depend on the order of the scores. *)
Lemma median_permutation l l' :
  Permutation l l' -> median l == median l'.
Proof.
  intros Hp. pose proof (sorted_permutation l l' Hp) as Hs.
  unfold median.
  rewrite (Forall2_length _ _ _ Hs).
  destruct (Nat.even _).
  - now rewrite !(nth_Forall2_Qeq _ _ _ Hs).
  - apply nth_Forall2_Qeq, Hs.
Qed.

(** ** Rounding keeps the order *)

Lemma round_half_even_bounds x :
  (Qfloor x <= round_half_even x <= Qfloor x + 1)%Z.
Proof.
  unfold round_half_even.
  destruct (Qlt_bool _ _); [lia|].
  destruct (Qlt_bool _ _); [lia|].
  destruct (Z.even _); lia.
Qed.

Lemma round_half_even_monotone x y :
  x <= y -> (round_half_even x <= round_half_even y)%Z.
Proof.
  intros Hxy. pose proof (Qfloor_resp_le x y Hxy) as Hf.
  destruct (Z.eq_dec (Qfloor x) (Qfloor y)) as [E|NE].
  - unfold round_half_even. rewrite E.
    destruct (Qlt_bool (x - inject_Z (Qfloor y)) (1 # 2)) eqn:X1.
    { destruct (Qlt_bool (y - inject_Z (Qfloor y)) (1 # 2)); [lia|].
      destruct (Qlt_bool (1 # 2) (y - inject_Z (Qfloor y))); [lia|].
      destruct (Z.even _); lia. }
    apply Qlt_bool_false_iff in X1.
    destruct (Qlt_bool (y - inject_Z (Qfloor y)) (1 # 2)) eqn:Y1.
    { apply Qlt_bool_iff in Y1. exfalso. revert X1 Y1.
      generalize (inject_Z (Qfloor y)). intros q X1 Y1. lra. }
    destruct (Qlt_bool (1 # 2) (x - inject_Z (Qfloor y))) eqn:X2.
    { apply Qlt_bool_iff in X2.
      destruct (Qlt_bool (1 # 2) (y - inject_Z (Qfloor y))) eqn:Y2; [lia|].
      apply Qlt_bool_false_iff in Y2. exfalso. revert X2 Y2.
      generalize (inject_Z (Qfloor y)). intros q X2 Y2. lra. }
    destruct (Qlt_bool (1 # 2) (y - inject_Z (Qfloor y))); [destruct (Z.even _); lia|].
    destruct (Z.even _); lia.
  - pose proof (round_half_even_bounds x). pose proof (round_half_even_bounds y).
    lia.
Qed.

Lemma scale_pos n : 0 < inject_Z (10 ^ Z.of_nat n).
Proof.
  change 0 with (inject_Z 0). rewrite <- Zlt_Qlt. apply Z.pow_pos_nonneg; lia.
Qed.

Lemma py_round_monotone x y n : x <= y -> py_round x n <= py_round y n.
Proof.
  intros Hxy. unfold py_round.
  pose proof (scale_pos n) as Hs.
  assert (Hm : x * inject_Z (10 ^ Z.of_nat n) <= y * inject_Z (10 ^ Z.of_nat n)).
  { apply Qmult_le_compat_r; [exact Hxy|]. now apply Qlt_le_weak. }
  apply round_half_even_monotone in Hm. rewrite Zle_Qle in Hm.
  unfold Qdiv. apply Qmult_le_compat_r; [exact Hm|].
  apply Qlt_le_weak, Qinv_lt_0_compat, Hs.
Qed.

(** ** More on the returned record *)

Lemma compare_sample_mse w uploaded path s m :
  compare_sample w uploaded path = Returns (Some (s, m)) ->
  exists img, m = mse uploaded img.
Proof.
  unfold compare_sample.
  destruct (preprocess_image (cv w) path) as [[img|]|e]; cbn; try discriminate.
  destruct (decide _) as [Hne|Heq]; cbn.
  - destruct (getitem (shapeF uploaded) 1) as [width|e]; cbn; try discriminate.
    destruct (getitem (shapeF uploaded) 0) as [height|e]; cbn; try discriminate.
    destruct (resizeF (cv w) _ _) as [img'|e]; cbn; try discriminate.
    destruct (structural_similarity w uploaded img') as [s'|e]; cbn.
    + intros [= <- <-]. eauto.
    + destruct (is_ValueError e); discriminate.
  - destruct (structural_similarity w uploaded (astype_unit img)) as [s'|e]; cbn.
    + intros [= <- <-]. eauto.
    + destruct (is_ValueError e); discriminate.
Qed.

Lemma compared_mse_nonneg w uploaded c sampled :
  Forall (fun m => 0 <= m) (List.map s_mse (compared w uploaded c sampled)).
Proof.
  apply Forall_forall. intros m Hm. apply list_elem_of_In in Hm.
  apply in_map_iff in Hm as (y & <- & Hy).
  apply compared_in in Hy as (_ & _ & Hcmp).
  apply compare_sample_mse in Hcmp as [img ->]. apply mse_nonneg_any.
Qed.

Lemma median_or_None_None l : median_or_None l = None <-> l = [].
Proof. destruct l; cbn; split; congruence. Qed.

Lemma category_entry_mse w uploaded n c :
  let e := category_entry w uploaded n c in
  (Entry.avg_mse e = None <-> Entry.samples_compared e = 0%nat) /\
  (forall m, Entry.avg_mse e = Some m -> 0 <= m).
Proof.
  unfold category_entry.
  destruct (negb (isdir w _)); [cbn; split; [tauto|discriminate]|].
  destruct (category_files w _) as [|f0 fs]; [cbn; split; [tauto|discriminate]|].
  cbn [Entry.avg_mse Entry.samples_compared].
  set (seen := compared w uploaded c (drawn w n c)). split.
  - rewrite median_or_None_None. destruct seen; cbn; split; congruence.
  - intros m Hm.
    pose proof (compared_mse_nonneg w uploaded c (drawn w n c)) as Hnn.
    fold seen in Hnn.
    destruct (List.map s_mse seen) as [|x0 l0] eqn:E; [discriminate|].
    cbn in Hm. injection Hm as <-.
    apply median_lower; [discriminate|exact Hnn].
Qed.

(** X5. In a returned record the error aggregate of a category is null
    exactly when no sample of the category was compared, and otherwise it is
    not negative. *)
Theorem reported_avg_mse w path sample_size categories r c entry :
  compare_with_dataset w path sample_size categories = Returns r ->
  summary r !! c = Some entry ->
  (Report.avg_mse entry = None <-> Report.samples_compared entry = 0%nat) /\
  (forall m, Report.avg_mse entry = Some m -> 0 <= m).
Proof.
  intros Hrun Hlook.
  apply compare_with_dataset_inv in Hrun as (img & rs & bm & _ & Hscan & ->).
  apply scan_categories_spec in Hscan as [_ Hrs].
  apply summary_lookup in Hlook as (_ & score & percent & -> & _).
  cbn [category_report Report.avg_mse Report.samples_compared].
  rewrite Hrs. destruct (bool_decide (c ∈ categories)).
  - cbn. apply category_entry_mse.
  - rewrite lookup_empty. cbn. split; [tauto|discriminate].
Qed.

(** X6. A reported best match is a real sample: its category is one of the
    requested categories, whose directory exists; its path is the directory
    joined with an eligible file name listed there; its error is a finite,
    non-negative number; and its two scores are those computed for that
    path. *)
Theorem best_match_is_a_sample w path sample_size categories r bm :
  sample_contract w ->
  compare_with_dataset w path sample_size categories = Returns r ->
  best_match r = Some bm ->
  exists img c f m,
    preprocess_image (cv w) path = Returns (Some img) /\
    m_category bm = Some c /\ In c categories /\
    isdir w (Str.path_join (BASE_DATA_DIR w) c) = true /\
    In f (listing w (Str.path_join (BASE_DATA_DIR w) c)) /\
    eligible f = true /\
    m_path bm = Some (Str.path_join (Str.path_join (BASE_DATA_DIR w) c) f) /\
    m_mse bm = Finite m /\ 0 <= m /\
    compare_sample w (astype_unit img)
      (Str.path_join (Str.path_join (BASE_DATA_DIR w) c) f)
    = Returns (Some (m_ssim bm, m)).
Proof.
  intros Hs Hrun Hbest.
  apply compare_with_dataset_inv in Hrun as (img & rs & bm' & Hpre & Hscan & ->).
  apply scan_categories_spec in Hscan as [-> _].
  unfold report in Hbest. cbn [best_match] in Hbest.
  destruct (fold_track_split (run_compared w (astype_unit img) sample_size categories)
              initial_best_match)
    as [[Hfold _]|(before & x & after & Hsplit & Hfold & _ & _ & _)];
    rewrite Hfold in Hbest; [discriminate|].
  destruct (truthy _); [|discriminate]. injection Hbest as <-.
  assert (Hx : In x (run_compared w (astype_unit img) sample_size categories))
    by (rewrite Hsplit; apply in_elt).
  apply run_compared_in in Hx as (Hc & Hp & Hcmp).
  assert (Hdir : isdir w (Str.path_join (BASE_DATA_DIR w) (s_category x)) = true).
  { unfold drawn in Hp.
    destruct (isdir w _); [reflexivity|destruct Hp]. }
  apply drawn_in_files in Hp; [|exact Hs].
  unfold category_files in Hp. apply in_map_iff in Hp as (f & Hf & Hin).
  apply filter_In in Hin as [Hlist Helig].
  exists img, (s_category x), f, (s_mse x). cbn.
  rewrite Hf. repeat split; auto.
  destruct (compare_sample_mse _ _ _ _ _ Hcmp) as [img' ->]. apply mse_nonneg_any.
Qed.

(** X7. The reported margin is never negative; it is at most 0.02 when the
    verdict is the uncertain one and at least 0.02 otherwise. *)
Theorem confidence_diff_and_verdict w path sample_size categories r :
  compare_with_dataset w path sample_size categories = Returns r ->
  0 <= confidence_diff r /\
  (prediction r = uncertain_result -> confidence_diff r <= 2 # 100) /\
  (prediction r <> uncertain_result -> 2 # 100 <= confidence_diff r).
Proof.
  intros Hrun.
  apply compare_with_dataset_inv in Hrun as (img & rs & bm & _ & _ & ->).
  unfold report. cbn [confidence_diff prediction].
  set (a := or_zero (rs !! NORMAL ≫= Entry.avg_ssim)).
  set (b := or_zero (rs !! PNEUMONIA ≫= Entry.avg_ssim)).
  destruct (decide_prediction_spec a b) as [Hiff _].
  assert (H0 : py_round 0 4 == 0) by reflexivity.
  assert (H2 : py_round (2 # 100) 4 == 2 # 100) by reflexivity.
  split; [|split].
  - rewrite <- H0. apply py_round_monotone, Qabs_nonneg.
  - intros Hu. apply Hiff in Hu. rewrite <- H2.
    apply py_round_monotone. now apply Qlt_le_weak.
  - intros Hnu. rewrite <- H2. apply py_round_monotone.
    apply Qnot_lt_le. intros Hlt. apply Hnu. now apply Hiff.
Qed.

Lemma share_range a b :
  0 <= a -> 0 <= b ->
  (0 <= a / percent_total a b * 100 /\ a / percent_total a b * 100 <= 100) /\
  (0 <= b / percent_total a b * 100 /\ b / percent_total a b * 100 <= 100).
Proof.
  intros Ha Hb. unfold percent_total.
  destruct (Qlt_bool 0 (a + b)) eqn:E.
  - apply Qlt_bool_iff in E.
    assert (La : 0 <= a / (a + b)) by (apply Qle_shift_div_l; lra).
    assert (Ua : a / (a + b) <= 1) by (apply Qle_shift_div_r; lra).
    assert (Lb : 0 <= b / (a + b)) by (apply Qle_shift_div_l; lra).
    assert (Ub : b / (a + b) <= 1) by (apply Qle_shift_div_r; lra).
    revert La Ua Lb Ub. generalize (a / (a + b)), (b / (a + b)).
    intros p q La Ua Lb Ub. lra.
  - apply Qlt_bool_false_iff in E.
    assert (Hza : a / 1 * 100 == 0) by (assert (a == 0) as -> by lra; reflexivity).
    assert (Hzb : b / 1 * 100 == 0) by (assert (b == 0) as -> by lra; reflexivity).
    rewrite Hza, Hzb. lra.
Qed.

(** X8. When the two category scores are not negative, each similarity
    percentage lies between 0 and 100. *)
Theorem similarity_percent_range w path sample_size categories r :
  compare_with_dataset w path sample_size categories = Returns r ->
  exists normal pneumonia a b,
    summary r !! NORMAL = Some normal /\
    summary r !! PNEUMONIA = Some pneumonia /\
    Report.avg_ssim normal = Some a /\
    Report.avg_ssim pneumonia = Some b /\
    (0 <= a -> 0 <= b ->
     (0 <= Report.similarity_percent normal /\
      Report.similarity_percent normal <= 100) /\
     (0 <= Report.similarity_percent pneumonia /\
      Report.similarity_percent pneumonia <= 100)).
Proof.
  intros Hrun.
  apply compare_with_dataset_inv in Hrun as (img & rs & bm & _ & _ & ->).
  pose proof (report_NORMAL rs bm) as HN. pose proof (report_PNEUMONIA rs bm) as HP.
  cbn zeta in HN, HP. revert HN HP.
  generalize (or_zero (rs !! NORMAL ≫= Entry.avg_ssim)).
  generalize (or_zero (rs !! PNEUMONIA ≫= Entry.avg_ssim)).
  intros b a HN HP.
  eexists _, _, a, b. split; [exact HN|]. split; [exact HP|].
  split; [reflexivity|]. split; [reflexivity|].
  cbn [category_report Report.similarity_percent].
  intros Ha Hb.
  assert (H0 : py_round 0 2 == 0) by reflexivity.
  assert (H100 : py_round 100 2 == 100) by reflexivity.
  destruct (share_range a b Ha Hb) as [[La Ua] [Lb Ub]].
  split; split.
  - apply Qle_trans with (py_round 0 2); [now rewrite H0|].
    now apply py_round_monotone.
  - apply Qle_trans with (py_round 100 2); [|now rewrite H100].
    now apply py_round_monotone.
  - apply Qle_trans with (py_round 0 2); [now rewrite H0|].
    now apply py_round_monotone.
  - apply Qle_trans with (py_round 100 2); [|now rewrite H100].
    now apply py_round_monotone.
Qed.

Lemma drawn_zero w c : sample_contract w -> drawn w 0 c = [].
Proof.
  intros Hs. unfold drawn.
  destruct (negb (isdir w _)); [reflexivity|].
  destruct (category_files w _) as [|f files]; [reflexivity|].
  rewrite (random_sample_returns w (f :: files) 0) by lia.
  apply length_zero_iff_nil. rewrite (choose_length w Hs); cbn; lia.
Qed.

Lemma category_entry_zero w uploaded c :
  sample_contract w -> category_entry w uploaded 0 c = empty_entry.
Proof.
  intros Hs. unfold category_entry.
  destruct (negb (isdir w _)); [reflexivity|].
  destruct (category_files w _) as [|f files]; [reflexivity|].
  now rewrite (drawn_zero w c Hs).
Qed.

Lemma run_compared_zero w uploaded categories :
  sample_contract w -> run_compared w uploaded 0 categories = [].
Proof.
  intros Hs. unfold run_compared.
  induction categories as [|c rest IH]; cbn; [reflexivity|].
  now rewrite (drawn_zero w c Hs), IH.
Qed.

(** X9. With a sample size of 0 nothing is compared: the call returns no
    best match, the uncertain verdict and a margin of 0, and every category
    is reported with no sample, a null error, score 0.0 and percentage 0. *)
Theorem zero_sample_size w path categories r :
  sample_contract w ->
  compare_with_dataset w path 0 categories = Returns r ->
  best_match r = None /\
  prediction r = uncertain_result /\
  confidence_diff r == 0 /\
  forall c entry,
    summary r !! c = Some entry ->
    Report.samples_compared entry = 0%nat /\
    Report.avg_mse entry = None /\
    Report.avg_ssim entry = Some 0 /\
    Report.similarity_percent entry == 0.
Proof.
  intros Hs Hrun.
  apply compare_with_dataset_inv in Hrun as (img & rs & bm & _ & Hscan & ->).
  apply scan_categories_spec in Hscan as [-> Hrs].
  rewrite (run_compared_zero w _ categories Hs). cbn [fold_left].
  assert (Hentry : forall c, rs !! c = None \/ rs !! c = Some empty_entry).
  { intros c. rewrite Hrs. destruct (bool_decide (c ∈ categories)).
    - right. now rewrite (category_entry_zero w _ c Hs).
    - left. apply lookup_empty. }
  assert (Hscore : forall c, or_zero (rs !! c ≫= Entry.avg_ssim) = 0).
  { intros c. destruct (Hentry c) as [-> | ->]; reflexivity. }
  unfold report. cbn [best_match prediction confidence_diff summary].
  rewrite !Hscore.
  split; [reflexivity|]. split; [reflexivity|]. split; [reflexivity|].
  intros c entry Hlook.
  assert (Hc : exists percent,
             entry = category_report rs c 0 percent /\ py_round percent 2 == 0).
  { destruct (decide (c = NORMAL)) as [->|Hn].
    - rewrite lookup_insert_eq in Hlook. injection Hlook as <-.
      eexists. split; reflexivity.
    - rewrite lookup_insert_ne in Hlook by congruence.
      destruct (decide (c = PNEUMONIA)) as [->|Hp].
      + rewrite lookup_insert_eq in Hlook. injection Hlook as <-.
        eexists. split; reflexivity.
      + rewrite lookup_insert_ne in Hlook by congruence.
        now rewrite lookup_empty in Hlook. }
  destruct Hc as (percent & -> & Hpercent).
  unfold category_report. cbn.
  destruct (Hentry c) as [-> | ->]; cbn; auto.
Qed.

(** ** Strings *)

Lemma string_app_nil (s : string) : "" ++ s = s.
Proof. reflexivity. Qed.

Lemma string_app_cons c (a b : string) : String c a ++ b = String c (a ++ b).
Proof. reflexivity. Qed.

Ltac push_app := rewrite ?string_app_nil, ?string_app_cons.

Lemma rpartition_app sep b a :
  Py.rpartition sep a = None ->
  Py.rpartition sep (b ++ String sep a) = Some (b, a).
Proof.
  intros Ha. induction b as [|c b IH]; push_app; cbn.
  - now rewrite Ha, Ascii.eqb_refl.
  - now rewrite IH.
Qed.

Lemma rpartition_Some sep s b a :
  Py.rpartition sep s = Some (b, a) ->
  s = b ++ String sep a /\ Py.rpartition sep a = None.
Proof.
  revert b. induction s as [|c s IH]; intros b; cbn; [discriminate|].
  destruct (Py.rpartition sep s) as [[b' a']|] eqn:E.
  - intros [= <- <-]. destruct (IH b' eq_refl) as [-> Ha]. auto.
  - destruct (Ascii.eqb_spec c sep) as [->|_]; [|discriminate].
    intros [= <- <-]. auto.
Qed.

Lemma contains_char sep s :
  Py.contains (String sep EmptyString) s = true <-> Py.rpartition sep s <> None.
Proof.
  induction s as [|c s IH]; cbn.
  - split; [discriminate|congruence].
  - destruct (Py.rpartition sep s) as [[b a]|] eqn:E.
    + split; [discriminate|]. intros _. apply orb_true_iff. right.
      apply IH. discriminate.
    + destruct (ascii_dec sep c) as [->|Hne].
      * rewrite Ascii.eqb_refl. split; [discriminate|].
        intros _. destruct s; reflexivity.
      * destruct (Ascii.eqb_spec c sep) as [->|_]; [contradiction|].
        cbn. split; [|congruence]. intros H. apply IH in H. congruence.
Qed.

Lemma lower_ascii_dot c : Ascii.eqb (Str.lower_ascii c) "." = Ascii.eqb c ".".
Proof.
  destruct c as [[] [] [] [] [] [] [] []]; reflexivity.
Qed.

Lemma lower_app a b : Str.lower (a ++ b) = Str.lower a ++ Str.lower b.
Proof.
  induction a as [|c a IH]; push_app; cbn; [reflexivity|].
  push_app. now rewrite IH.
Qed.

Lemma rpartition_lower s :
  Py.rpartition "." (Str.lower s)
  = match Py.rpartition "." s with
    | Some (b, a) => Some (Str.lower b, Str.lower a)
    | None => None
    end.
Proof.
  induction s as [|c s IH]; cbn; [reflexivity|].
  rewrite IH. destruct (Py.rpartition "." s) as [[b a]|]; [reflexivity|].
  rewrite lower_ascii_dot. now destruct (Ascii.eqb c ".").
Qed.

Lemma string_length_app (p t : string) :
  String.length (p ++ t) = (String.length p + String.length t)%nat.
Proof.
  induction p as [|c p IH]; push_app; cbn; [reflexivity|]. now rewrite IH.
Qed.

Lemma substring_all t : substring 0 (String.length t) t = t.
Proof. induction t as [|c t IH]; cbn; [reflexivity|]. now rewrite IH. Qed.

Lemma substring_skip p k t :
  substring (String.length p) k (p ++ t) = substring 0 k t.
Proof. induction p as [|c p IH]; push_app; cbn; [reflexivity|]. exact IH. Qed.

Lemma substring_split s :
  forall i, (i <= String.length s)%nat ->
  s = substring 0 i s ++ substring i (String.length s - i) s.
Proof.
  induction s as [|c s IH]; intros [|i] Hi; cbn in *; push_app;
    try reflexivity; try lia.
  - now rewrite substring_all.
  - rewrite <- IH by lia. reflexivity.
Qed.

Lemma endswith_iff s suffix :
  Str.endswith s suffix = true <-> exists p, s = p ++ suffix.
Proof.
  unfold Str.endswith. rewrite andb_true_iff, Nat.leb_le, String.eqb_eq. split.
  - intros [Hk Hsub].
    exists (substring 0 (String.length s - String.length suffix) s).
    pose proof (substring_split s (String.length s - String.length suffix)
                  ltac:(lia)) as Hsplit.
    replace (String.length s - (String.length s - String.length suffix))%nat
      with (String.length suffix) in Hsplit by lia.
    now rewrite Hsub in Hsplit.
  - intros [p ->]. rewrite string_length_app. split; [lia|].
    replace (String.length p + String.length suffix - String.length suffix)%nat
      with (String.length p) by lia.
    now rewrite substring_skip, substring_all.
Qed.

Lemma endswith_extension b a e :
  Py.rpartition "." a = None ->
  Py.rpartition "." e = None ->
  Str.endswith (b ++ String "." a) (String "." e) = String.eqb a e.
Proof.
  intros Ha He. apply eq_true_iff_eq. rewrite endswith_iff, String.eqb_eq. split.
  - intros [p Hp].
    pose proof (rpartition_app "." b a Ha) as H1.
    pose proof (rpartition_app "." p e He) as H2.
    rewrite Hp in H1. congruence.
  - intros ->. now exists b.
Qed.

Lemma endswith_no_dot s e :
  Py.rpartition "." s = None -> Str.endswith s (String "." e) = false.
Proof.
  intros Hs. destruct (Str.endswith s (String "." e)) eqn:E; [|reflexivity].
  apply endswith_iff in E as [p ->].
  assert (H : Py.contains "." (p ++ String "." e) = true).
  { clear Hs. induction p as [|c p IH]; push_app; cbn.
    - destruct e; reflexivity.
    - rewrite IH. apply orb_true_r. }
  apply contains_char in H. contradiction.
Qed.

(** ** The upload filter *)

(** The guard [file and allowed_file(file.filename)] of [analyze]. *)
Lemma upload_guard filename :
  (if Py.nonempty filename then allowed_file filename else Returns false)
  = Returns (eligible filename).
Proof.
  unfold Py.nonempty.
  destruct (String.eqb_spec filename "") as [->|_]; cbn [negb]; [reflexivity|].
  unfold allowed_file, eligible, Str.endswith_any, image_extensions.
  cbn [existsb].
  destruct (Py.contains "." filename) eqn:Hdot.
  - apply contains_char in Hdot.
    unfold Py.rsplit1.
    destruct (Py.rpartition "." filename) as [[b a]|] eqn:Hpart; [|contradiction].
    cbn. f_equal.
    apply rpartition_Some in Hpart as [-> Ha].
    rewrite lower_app. cbn [Str.lower].
    change (Str.lower_ascii ".") with "."%char.
    assert (Hla : Py.rpartition "." (Str.lower a) = None)
      by (rewrite rpartition_lower; now rewrite Ha).
    rewrite !endswith_extension by (exact Hla || reflexivity).
    unfold ALLOWED_EXTENSIONS.
    destruct (String.eqb_spec (Str.lower a) "jpg") as [->|H1]; [reflexivity|].
    destruct (String.eqb_spec (Str.lower a) "jpeg") as [->|H2]; [reflexivity|].
    destruct (String.eqb_spec (Str.lower a) "png") as [->|H3]; [reflexivity|].
    cbn. apply bool_decide_eq_false.
    rewrite !elem_of_union, !elem_of_singleton. tauto.
  - f_equal.
    assert (Hnone : Py.rpartition "." filename = None).
    { destruct (Py.rpartition "." filename) eqn:E; [|reflexivity].
      assert (H : Py.contains "." filename = true)
        by (apply contains_char; congruence).
      congruence. }
    assert (Hl : Py.rpartition "." (Str.lower filename) = None)
      by (rewrite rpartition_lower; now rewrite Hnone).
    now rewrite !endswith_no_dot by exact Hl.
Qed.

(** X10. [allowed_file] raises for no file name, and it accepts exactly the
    names that the corpus listing of [compare_with_dataset] takes as image
    files. *)
Theorem allowed_file_is_eligible filename :
  allowed_file filename = Returns (eligible filename).
Proof.
  destruct filename as [|c rest]; [reflexivity|].
  exact (upload_guard (String c rest)).
Qed.

(** ** The CNN verdict *)

Lemma clamp_range x :
  0 <= Cnn.py_max 0 (Cnn.py_min 1 x) /\ Cnn.py_max 0 (Cnn.py_min 1 x) <= 1.
Proof.
  unfold Cnn.py_max, Cnn.py_min.
  destruct (Qlt_bool x 1) eqn:E1.
  - apply Qlt_bool_iff in E1.
    destruct (Qlt_bool 0 x) eqn:E2.
    + apply Qlt_bool_iff in E2. lra.
    + lra.
  - change (Qlt_bool 0 1) with true. cbn iota. lra.
Qed.

Lemma clamp_half x :
  1 # 2 < Cnn.py_max 0 (Cnn.py_min 1 x) <-> 1 # 2 < x.
Proof.
  unfold Cnn.py_max, Cnn.py_min.
  destruct (Qlt_bool x 1) eqn:E1.
  - destruct (Qlt_bool 0 x) eqn:E2; [tauto|].
    apply Qlt_bool_false_iff in E2. lra.
  - apply Qlt_bool_false_iff in E1.
    change (Qlt_bool 0 1) with true. cbn iota. lra.
Qed.

(** X11. A verdict of [predict_image] has a confidence between 50 and 100,
    whatever the network outputs; the label is the pneumonia one exactly
    when the output is above 0.5 and the normal one otherwise. *)
Theorem predict_image_confidence k model_path image_path confidence label :
  Cnn.predict_image k model_path image_path = Returns (confidence, label) ->
  exists raw,
    Cnn.model_output k model_path image_path = Returns raw /\
    50 <= confidence /\ confidence <= 100 /\
    (label = pneumonia_detected <-> 1 # 2 < raw) /\
    (label = normal_lungs <-> raw <= 1 # 2).
Proof.
  unfold Cnn.predict_image.
  destruct (Cnn.model_output k model_path image_path) as [raw|e]; cbn;
    [|discriminate].
  pose proof (clamp_range raw) as [L U]. pose proof (clamp_half raw) as Hhalf.
  revert L U Hhalf. generalize (Cnn.py_max 0 (Cnn.py_min 1 raw)). intros p L U Hhalf.
  assert (H50 : py_round 50 2 == 50) by reflexivity.
  assert (H100 : py_round 100 2 == 100) by reflexivity.
  destruct (Qlt_bool (1 # 2) p) eqn:E.
  - apply Qlt_bool_iff in E. intros [= <- <-]. exists raw.
    split; [reflexivity|]. split; [|split; [|split]].
    + apply Qle_trans with (py_round 50 2); [now rewrite H50|].
      apply py_round_monotone. lra.
    + apply Qle_trans with (py_round 100 2); [|now rewrite H100].
      apply py_round_monotone. lra.
    + split; [intros _; now apply Hhalf|reflexivity].
    + split; [discriminate|]. intros Hle. apply Hhalf in E. lra.
  - apply Qlt_bool_false_iff in E. intros [= <- <-]. exists raw.
    split; [reflexivity|]. split; [|split; [|split]].
    + apply Qle_trans with (py_round 50 2); [now rewrite H50|].
      apply py_round_monotone. lra.
    + apply Qle_trans with (py_round 100 2); [|now rewrite H100].
      apply py_round_monotone. lra.
    + split; [discriminate|]. intros Hlt. apply Hhalf in Hlt. lra.
    + split; [|reflexivity]. intros _.
      apply Qnot_lt_le. intros Hlt. apply Hhalf in Hlt. lra.
Qed.

(** ** Model names *)

Import GeminiApi.

Lemma split_rpartition sep s :
  match Py.rpartition sep s with
  | None => Py.split s sep = [s]
  | Some (_, tail) =>
      exists init, Py.split s sep = (init ++ [tail])%list /\ init <> []
  end.
Proof.
  induction s as [|c s IH]; cbn; [reflexivity|].
  destruct (Py.rpartition sep s) as [[b a]|].
  - destruct IH as (init & -> & Hne).
    destruct (Ascii.eqb c sep).
    + exists (EmptyString :: init). split; [reflexivity|discriminate].
    + destruct init as [|h t]; [contradiction|]. cbn.
      exists (String c h :: t). split; [reflexivity|discriminate].
  - rewrite IH. destruct (Ascii.eqb c sep).
    + exists [EmptyString]. split; [reflexivity|discriminate].
    + reflexivity.
Qed.

Lemma contains_char_false sep s :
  Py.contains (String sep EmptyString) s = false <-> Py.rpartition sep s = None.
Proof.
  pose proof (contains_char sep s) as H.
  destruct (Py.contains _ s), (Py.rpartition sep s); split; intros; try congruence.
  - exfalso. apply H; congruence.
  - exfalso. destruct H as [_ H]. assert (Some p <> None) by discriminate.
    apply H in H1. discriminate.
Qed.

Lemma short_name_returns full : exists short, short_name full = Returns short.
Proof.
  unfold short_name.
  destruct (Py.contains "/" full) eqn:Hc; [|eauto].
  apply contains_char in Hc.
  pose proof (split_rpartition "/" full) as Hs.
  destruct (Py.rpartition "/" full) as [[b a]|] eqn:Hp; [|contradiction].
  destruct Hs as (init & -> & _).
  exists a. unfold Py.getitem_last. now rewrite rev_app_distr.
Qed.

(** X12. The short name of a listed model is computed without an exception:
    it contains no slash, and it is the whole name when the name has no
    slash and otherwise what follows the last slash of the name. *)
Theorem short_name_last_component full :
  exists short,
    short_name full = Returns short /\
    Py.contains "/" short = false /\
    ((Py.contains "/" full = false /\ short = full) \/
     exists prefix, full = prefix ++ String "/" short).
Proof.
  unfold short_name.
  destruct (Py.contains "/" full) eqn:Hc.
  - apply contains_char in Hc.
    pose proof (split_rpartition "/" full) as Hs.
    destruct (Py.rpartition "/" full) as [[b a]|] eqn:Hp; [|contradiction].
    destruct Hs as (init & -> & _).
    apply rpartition_Some in Hp as [-> Ha].
    exists a. split.
    + unfold Py.getitem_last. now rewrite rev_app_distr.
    + split; [now apply contains_char_false|]. right. now exists b.
  - exists full. auto.
Qed.

Lemma available_names_returns models :
  exists names, available_names models = Returns names.
Proof.
  induction models as [|m rest [names IH]]; cbn; [eauto|].
  destruct (bool_decide _); [|eauto].
  destruct (short_name_returns (name m)) as (short & ->). cbn.
  rewrite IH. cbn. eauto.
Qed.

Lemma find_first {A} (f : A -> bool) l x :
  List.find f l = Some x ->
  exists before after,
    l = (before ++ x :: after)%list /\ f x = true /\
    Forall (fun y => f y = false) before.
Proof.
  induction l as [|y l IH]; cbn; [discriminate|].
  destruct (f y) eqn:E.
  - intros [= <-]. exists [], l. auto.
  - intros H. destruct (IH H) as (before & after & -> & Hx & Hb).
    exists (y :: before), after. auto.
Qed.

Lemma find_nothing {A} (f : A -> bool) l :
  List.find f l = None -> Forall (fun y => f y = false) l.
Proof.
  induction l as [|y l IH]; cbn; [constructor|].
  destruct (f y) eqn:E; [discriminate|]. auto.
Qed.

Lemma preferred_default : In "gemini-2.5-flash" preferred_models.
Proof. cbn. tauto. Qed.

Lemma fallback_preferred g :
  exists n,
    match List.find (constructs g) preferred_models with
    | Some model_name => Some model_name
    | None => Some "gemini-2.5-flash"
    end = Some n /\ In n preferred_models.
Proof.
  destruct (List.find (constructs g) preferred_models) as [n|] eqn:E.
  - exists n. split; [reflexivity|]. apply find_some in E. tauto.
  - eexists. split; [reflexivity|]. exact preferred_default.
Qed.

(** X13. [get_available_model] returns no name exactly when the package is
    not available.  When the listing succeeds and offers models that can
    generate content, the result is one of them: the first name of the
    preference list that is offered, or the first offered model when no
    preferred one is.  When the listing fails or offers nothing, the result
    is a name of the preference list. *)
Theorem get_available_model_choice g :
  (get_available_model g = None <-> GEMINI_AVAILABLE g = false) /\
  (GEMINI_AVAILABLE g = true ->
   forall models available,
     list_models g = Returns models ->
     available_names models = Returns available ->
     available <> [] ->
     exists n,
       get_available_model g = Some n /\ In n available /\
       ((exists before after,
           preferred_models = (before ++ n :: after)%list /\
           Forall (fun p => ~ In p available) before) \/
        (Forall (fun p => ~ In p available) preferred_models /\
         exists rest, available = n :: rest))) /\
  (GEMINI_AVAILABLE g = true ->
   (forall models available,
      list_models g = Returns models ->
      available_names models = Returns available -> available = []) ->
   exists n, get_available_model g = Some n /\ In n preferred_models).
Proof.
  unfold get_available_model. split; [|split].
  - destruct (GEMINI_AVAILABLE g); cbn [negb]; [|tauto].
    split; [|discriminate]. intros H. exfalso.
    destruct (fallback_preferred g) as (n' & Hn & _).
    destruct (try_except_Exception _ _) as [[n|]|e];
      [discriminate|rewrite Hn in H; discriminate|rewrite Hn in H; discriminate].
  - intros -> models available Hlist Hnames Hne. cbn [negb].
    unfold listed_model. rewrite Hlist. cbn [obind]. rewrite Hnames. cbn [obind].
    destruct (List.find _ preferred_models) as [p|] eqn:E.
    + cbn [try_except_Exception].
      apply find_first in E as (before & after & Hsplit & Hp & Hb).
      apply bool_decide_eq_true in Hp. apply list_elem_of_In in Hp.
      exists p. split; [reflexivity|]. split; [exact Hp|]. left.
      exists before, after. split; [exact Hsplit|].
      eapply Forall_impl; [exact Hb|]. cbn. intros q Hq Hin.
      apply bool_decide_eq_false in Hq. apply Hq. now apply list_elem_of_In.
    + destruct available as [|first rest]; [contradiction|].
      cbn [try_except_Exception].
      exists first. split; [reflexivity|]. split; [now left|]. right.
      split; [|eauto]. apply find_nothing in E.
      eapply Forall_impl; [exact E|]. cbn. intros q Hq Hin.
      apply bool_decide_eq_false in Hq. apply Hq. now apply list_elem_of_In.
  - intros -> Hnone. cbn [negb]. unfold listed_model.
    destruct (list_models g) as [models|e] eqn:Hlist; cbn [obind try_except_Exception];
      [|apply fallback_preferred].
    destruct (available_names_returns models) as [available Hnames].
    rewrite Hnames. cbn [obind].
    rewrite (Hnone models available eq_refl Hnames).
    assert (Hfind : List.find (fun preferred => bool_decide (preferred ∈ []))
                      preferred_models = None) by reflexivity.
    rewrite Hfind. cbn [try_except_Exception]. apply fallback_preferred.
Qed.

(** ** The prompt of the chat *)

Lemma last_n_nil {A} n (l : list A) : (0 < n)%nat -> Py.last_n n l = [] -> l = [].
Proof.
  unfold Py.last_n. intros Hn H.
  apply (f_equal (@List.length A)) in H. rewrite length_drop in H. cbn in H.
  destruct l; [reflexivity|cbn in H; lia].
Qed.

(** X14. Only the last five messages of the history reach the prompt: two
    histories with the same last five messages give the same prompt. *)
Theorem chat_prompt_last_five message h1 h2 :
  Py.last_n 5 h1 = Py.last_n 5 h2 ->
  chat_prompt message (Some h1) = chat_prompt message (Some h2).
Proof.
  intros H. unfold chat_prompt.
  destruct h1 as [|x1 r1], h2 as [|x2 r2]; try reflexivity.
  - symmetry in H. apply last_n_nil in H; [discriminate|lia].
  - apply last_n_nil in H; [discriminate|lia].
  - now rewrite H.
Qed.

(** ** The chain of models *)

Lemma try_alternatives_None g model_name prompt img alternatives :
  try_alternatives g model_name prompt img alternatives = None <->
  Forall (fun alt => alt <> model_name ->
                     exists e, ask g alt prompt img = Raises e) alternatives.
Proof.
  induction alternatives as [|alt rest IH]; cbn.
  - split; [constructor|reflexivity].
  - destruct (String.eqb_spec alt model_name) as [->|Hne].
    + rewrite IH. split.
      * intros H. constructor; [intros Hc; now destruct Hc|exact H].
      * intros H. now apply Forall_inv_tail in H.
    + destruct (ask g alt prompt img) as [text|e] eqn:E.
      * split; [discriminate|]. intros H. apply Forall_inv in H.
        destruct (H Hne) as [e He]. cbn in He. congruence.
      * rewrite IH. split.
        -- intros H. constructor; [eauto|exact H].
        -- intros H. now apply Forall_inv_tail in H.
Qed.

Lemma try_alternatives_Some g model_name prompt img alternatives text :
  try_alternatives g model_name prompt img alternatives = Some text ->
  exists alt, In alt alternatives /\ alt <> model_name /\
              ask g alt prompt img = Returns text.
Proof.
  induction alternatives as [|alt rest IH]; cbn; [discriminate|].
  destruct (String.eqb_spec alt model_name) as [->|Hne].
  - intros H. destruct (IH H) as (a & Ha & Hr). eauto.
  - destruct (ask g alt prompt img) as [t|e] eqn:E.
    + intros [= <-]. eauto.
    + intros H. destruct (IH H) as (a & Ha & Hr). eauto.
Qed.

Lemma nonempty_true s : Py.nonempty s = true <-> s <> "".
Proof.
  unfold Py.nonempty. destruct (String.eqb_spec s ""); cbn; split; congruence.
Qed.

(** X15. [chat_with_gemini] raises nothing.  It returns [None] when the
    package is unavailable or cannot be initialised.  A returned text is the
    fixed message about the missing image or the reply of a model.  Once an
    image is open and a model is selected, the reply of the selected model
    is returned when there is one, and [None] is returned exactly when the
    selected model, every other alternative model and the final request
    without the image all fail. *)
Theorem chat_with_gemini_answer g message image_path history :
  exists r,
    chat_with_gemini g message image_path history = Returns r /\
    (GEMINI_AVAILABLE g = false \/ initialize_gemini g None = false -> r = None) /\
    (forall text, r = Some text ->
       text = image_required \/
       exists model_name prompt img, ask g model_name prompt img = Returns text) /\
    (forall img model_name,
       GEMINI_AVAILABLE g = true ->
       initialize_gemini g None = true ->
       open_image g image_path = Returns (Some img) ->
       get_available_model g = Some model_name ->
       model_name <> "" ->
       let prompt := chat_prompt message history in
       (forall text, ask g model_name prompt (Some img) = Returns text ->
                     r = Some text) /\
       (r = None <->
        (exists e, ask g model_name prompt (Some img) = Raises e) /\
        Forall (fun alt => alt <> model_name ->
                           exists e, ask g alt prompt (Some img) = Raises e)
          alternative_models /\
        exists e, ask g "gemini-pro" (prompt ++ chat_note) None = Raises e)).
Proof.
  unfold chat_with_gemini.
  destruct (GEMINI_AVAILABLE g) eqn:Hav; cbn [negb].
  2:{ exists None. repeat split; try discriminate; auto. }
  destruct (initialize_gemini g None) eqn:Hinit; cbn [negb].
  2:{ exists None. cbn. repeat split; try discriminate; auto. }
  destruct (open_image g image_path) as [[img|]|e] eqn:Hopen; cbn [obind].
  3:{ exists None. cbn. repeat split; try discriminate; auto. }
  2:{ destruct (get_available_model g) as [mn|] eqn:Hsel.
      2:{ exists None. cbn. repeat split; try discriminate; auto. }
      destruct (Py.nonempty mn) eqn:Hmn; cbn [negb].
      2:{ exists None. cbn. repeat split; try discriminate; auto. }
      exists (Some image_required). cbn.
      split; [reflexivity|]. split; [intros [|]; discriminate|].
      split; [intros text [= <-]; now left|]. discriminate. }
  destruct (get_available_model g) as [mn|] eqn:Hsel.
  2:{ exists None. cbn. repeat split; try discriminate; auto. }
  destruct (Py.nonempty mn) eqn:Hmn; cbn [negb].
  2:{ exists None. cbn. split; [reflexivity|]. split; [auto|].
      split; [discriminate|].
      intros img' mn' _ _ _ [= <-] Hne. apply nonempty_true in Hne. congruence. }
  set (prompt := chat_prompt message history).
  destruct (ask g mn prompt (Some img)) as [text|e1] eqn:Hask.
  { exists (Some text). cbn. split; [reflexivity|].
    split; [intros [|]; discriminate|].
    split; [intros t [= <-]; right; eauto|].
    intros img' mn' _ _ [= <-] [= <-] _. cbn. split.
    - intros t Ht. congruence.
    - split; [discriminate|]. intros ([e He] & _). congruence. }
  destruct (try_alternatives g mn prompt (Some img) alternative_models)
    as [text|] eqn:Halt.
  { exists (Some text). cbn. split; [reflexivity|].
    split; [intros [|]; discriminate|].
    split.
    - intros t [= <-]. right.
      apply try_alternatives_Some in Halt as (alt & _ & _ & Hr). eauto.
    - intros img' mn' _ _ [= <-] [= <-] _. cbn. split.
      + intros t Ht. congruence.
      + split; [discriminate|]. intros (_ & Hall & _).
        apply try_alternatives_None in Hall. congruence. }
  apply try_alternatives_None in Halt.
  destruct (ask g "gemini-pro" (prompt ++ chat_note) None) as [text|e2] eqn:Hlast.
  { exists (Some text). cbn. split; [reflexivity|].
    split; [intros [|]; discriminate|].
    split; [intros t [= <-]; right; eauto|].
    intros img' mn' _ _ [= <-] [= <-] _. cbn. split.
    - intros t Ht. congruence.
    - split; [discriminate|]. intros (_ & _ & [e He]). congruence. }
  exists None. cbn. split; [reflexivity|]. split; [auto|].
  split; [discriminate|].
  intros img' mn' _ _ [= <-] [= <-] _. cbn. split.
  - intros t Ht. congruence.
  - split; [|reflexivity]. intros _. eauto.
Qed.

(** X16. [analyze_xray_image] raises nothing.  It returns [None] when the
    package is unavailable or cannot be initialised, and a returned text is
    the reply of a model.  Once the image step is passed and a model is
    selected, the reply of the selected model is returned when there is one,
    and [None] is returned exactly when the selected model, every other
    alternative model and the final request without the image all fail. *)
Theorem analyze_xray_image_answer g image_path ssim_results cnn_results :
  exists r,
    analyze_xray_image g image_path ssim_results cnn_results = Returns r /\
    (GEMINI_AVAILABLE g = false \/ initialize_gemini g None = false -> r = None) /\
    (forall text, r = Some text ->
       exists model_name prompt img, ask g model_name prompt img = Returns text) /\
    (forall img model_name,
       GEMINI_AVAILABLE g = true ->
       initialize_gemini g None = true ->
       open_image g image_path = Returns img ->
       get_available_model g = Some model_name ->
       model_name <> "" ->
       let prompt := analysis_context g ssim_results cnn_results in
       (forall text, ask g model_name prompt img = Returns text -> r = Some text) /\
       (r = None <->
        (exists e, ask g model_name prompt img = Raises e) /\
        Forall (fun alt => alt <> model_name ->
                           exists e, ask g alt prompt img = Raises e)
          alternative_models /\
        exists e, ask g "gemini-pro" (prompt ++ analysis_note) None = Raises e)).
Proof.
  unfold analyze_xray_image.
  destruct (GEMINI_AVAILABLE g) eqn:Hav; cbn [negb].
  2:{ exists None. repeat split; try discriminate; auto. }
  destruct (initialize_gemini g None) eqn:Hinit; cbn [negb].
  2:{ exists None. cbn. repeat split; try discriminate; auto. }
  destruct (open_image g image_path) as [img|e] eqn:Hopen; cbn [obind].
  2:{ exists None. cbn. repeat split; try discriminate; auto. }
  destruct (get_available_model g) as [mn|] eqn:Hsel.
  2:{ exists None. cbn. repeat split; try discriminate; auto. }
  destruct (Py.nonempty mn) eqn:Hmn; cbn [negb].
  2:{ exists None. cbn. split; [reflexivity|]. split; [auto|].
      split; [discriminate|].
      intros img' mn' _ _ _ [= <-] Hne. apply nonempty_true in Hne. congruence. }
  set (prompt := analysis_context g ssim_results cnn_results).
  destruct (ask g mn prompt img) as [text|e1] eqn:Hask.
  { exists (Some text). cbn. split; [reflexivity|].
    split; [intros [|]; discriminate|].
    split; [intros t [= <-]; eauto|].
    intros img' mn' _ _ [= <-] [= <-] _. cbn. split.
    - intros t Ht. congruence.
    - split; [discriminate|]. intros ([e He] & _). congruence. }
  destruct (try_alternatives g mn prompt img alternative_models)
    as [text|] eqn:Halt.
  { exists (Some text). cbn. split; [reflexivity|].
    split; [intros [|]; discriminate|].
    split.
    - intros t [= <-].
      apply try_alternatives_Some in Halt as (alt & _ & _ & Hr). eauto.
    - intros img' mn' _ _ [= <-] [= <-] _. cbn. split.
      + intros t Ht. congruence.
      + split; [discriminate|]. intros (_ & Hall & _).
        apply try_alternatives_None in Hall. congruence. }
  apply try_alternatives_None in Halt.
  destruct (ask g "gemini-pro" (prompt ++ analysis_note) None) as [text|e2] eqn:Hlast.
  { exists (Some text). cbn. split; [reflexivity|].
    split; [intros [|]; discriminate|].
    split; [intros t [= <-]; eauto|].
    intros img' mn' _ _ [= <-] [= <-] _. cbn. split.
    - intros t Ht. congruence.
    - split; [discriminate|]. intros (_ & _ & [e He]). congruence. }
  exists None. cbn. split; [reflexivity|]. split; [auto|].
  split; [discriminate|].
  intros img' mn' _ _ [= <-] [= <-] _. cbn. split.
  - intros t Ht. congruence.
  - split; [|reflexivity]. intros _. eauto.
Qed.

(** ** The two verdicts side by side *)

Lemma predict_image_label k model_path image_path confidence label :
  Cnn.predict_image k model_path image_path = Returns (confidence, label) ->
  label = pneumonia_detected \/ label = normal_lungs.
Proof.
  unfold Cnn.predict_image.
  destruct (Cnn.model_output k model_path image_path) as [raw|e]; cbn;
    [|discriminate].
  destruct (Qlt_bool _ _); intros [= _ <-]; auto.
Qed.

Lemma prediction_cases w path sample_size categories r :
  compare_with_dataset w path sample_size categories = Returns r ->
  prediction r = uncertain_result \/ prediction r = pneumonia_detected \/
  prediction r = normal_lungs.
Proof.
  intros H. apply compare_with_dataset_inv in H as (img & rs & bm & _ & _ & ->).
  unfold report. cbn [prediction]. unfold decide_prediction.
  destruct (Qlt_bool _ _); [auto|]. destruct (Qlt_bool _ _); auto.
Qed.

(** X17. For a verdict of the CNN and a verdict of the dataset comparison,
    [analyze] shows no warning exactly when both say pneumonia or both say
    normal; it shows the warning about an uncertain comparison exactly when
    the comparison is uncertain and the CNN says normal; and it shows the
    mismatch warning in the remaining cases, among them an uncertain
    comparison with a CNN verdict of pneumonia. *)
Theorem mismatch_warning_verdicts k model_path image_path confidence label
    w path sample_size categories r :
  Cnn.predict_image k model_path image_path = Returns (confidence, label) ->
  compare_with_dataset w path sample_size categories = Returns r ->
  let warning :=
    App.mismatch_warning (Some (CnnPrediction confidence label)) (prediction r) in
  (warning = None <->
   (label = pneumonia_detected /\ prediction r = pneumonia_detected) \/
   (label = normal_lungs /\ prediction r = normal_lungs)) /\
  (warning = Some App.uncertain_ssim <->
   label = normal_lungs /\ prediction r = uncertain_result) /\
  (warning = Some App.results_mismatch <->
   (label = pneumonia_detected /\ prediction r <> pneumonia_detected) \/
   (label = normal_lungs /\ prediction r = pneumonia_detected)).
Proof.
  intros Hcnn Hrun.
  apply predict_image_label in Hcnn. apply prediction_cases in Hrun.
  destruct Hcnn as [-> | ->], Hrun as [-> | [-> | ->]]; cbv zeta;
    (split; [|split]); split; vm_compute; intros H;
    repeat match goal with
      | H : _ /\ _ |- _ => destruct H
      | H : _ \/ _ |- _ => destruct H
      end;
    try discriminate; try congruence; auto;
    try (left; split; [reflexivity|discriminate]);
    try (right; split; reflexivity).
Qed.

(** ** The upload handler *)

Lemma eligible_empty : eligible "" = false.
Proof. reflexivity. Qed.

Lemma allowed_step file :
  (if Py.nonempty (App.filename file) then allowed_file (App.filename file)
   else Returns false)
  = Returns (eligible (App.filename file)).
Proof. apply upload_guard. Qed.

(** X18. A request without a file, with an empty file name or with a name
    that is not an image name is answered by a redirection to the index
    with one flashed message; nothing is saved and the session is left as
    it is. *)
Theorem analyze_rejects_without_saving app request_files st :
  (request_files !! "file" = None \/
   exists file, request_files !! "file" = Some file /\
                eligible (App.filename file) = false) ->
  exists text st',
    App.analyze app request_files st = Returns (App.redirect App.url_index, st') /\
    App.files st' = App.files st /\
    App.session st' = App.session st /\
    App.flashed st' = (App.flashed st ++ [text])%list /\
    In text ["No file part"; "No selected file"; "Unsupported file type"].
Proof.
  unfold App.analyze. intros [-> | (file & -> & Hel)].
  - exists "No file part". eexists. split; [reflexivity|]. cbn. tauto.
  - destruct (String.eqb (App.filename file) "").
    + exists "No selected file". eexists. split; [reflexivity|]. cbn. tauto.
    + rewrite allowed_step, Hel. cbn.
      exists "Unsupported file type". eexists. split; [reflexivity|]. cbn. tauto.
Qed.

Lemma best_match_url_returns rs bm :
  exists link, App.best_match_url (best_match (report rs bm)) = Returns link.
Proof.
  unfold report. cbn [best_match].
  destruct (m_path bm) as [p|] eqn:E; cbn; [|eauto].
  destruct (negb (String.eqb p "")); cbn; [|eauto].
  rewrite E. eauto.
Qed.

(** X19. [analyze] lets no exception through except one raised while the
    uploaded file is saved: in particular an exception of the comparison
    never leaves the handler. *)
Theorem analyze_raises_only_on_save app request_files st e :
  App.analyze app request_files st = Raises e ->
  exists file,
    request_files !! "file" = Some file /\
    eligible (App.filename file) = true /\
    App.save app (App.files st) file
      (Str.path_join (App.UPLOAD_FOLDER app)
         (App.secure_filename app (App.filename file)))
    = Raises e.
Proof.
  unfold App.analyze.
  destruct (request_files !! "file") as [file|]; [|discriminate].
  destruct (String.eqb (App.filename file) ""); [discriminate|].
  rewrite allowed_step. cbn [obind].
  destruct (eligible (App.filename file)) eqn:Hel; [|discriminate].
  destruct (App.save app _ file _) as [w|e'] eqn:Hsave; cbn [obind].
  - destruct (compare_with_dataset w _ 40 [NORMAL; PNEUMONIA]) as [r|e'] eqn:Hrun;
      [|discriminate].
    apply compare_with_dataset_inv in Hrun as (img & rs & bm & _ & _ & ->).
    destruct (best_match_url_returns rs bm) as [link ->]. discriminate.
  - intros [= <-]. eauto.
Qed.

(** X20. An accepted upload is saved and compared with 40 samples of the two
    categories.  When the comparison raises, as it does for an upload that
    cannot be preprocessed or for a directory that cannot be listed, the
    answer is a redirection to the index with the error flashed.  When the
    upload can be preprocessed and the directories that exist can be
    listed, the answer is the result page with the values of the returned
    record; the session then holds the saved path and an empty history. *)
Theorem analyze_accepted_upload app request_files st file w :
  request_files !! "file" = Some file ->
  eligible (App.filename file) = true ->
  let name := App.secure_filename app (App.filename file) in
  let saved_path := Str.path_join (App.UPLOAD_FOLDER app) name in
  App.save app (App.files st) file saved_path = Returns w ->
  cv2_contract (cv w) ->
  ssim_raises_only_ValueError w ->
  (forall e,
     compare_with_dataset w saved_path 40 [NORMAL; PNEUMONIA] = Raises e ->
     App.analyze app request_files st
     = Returns (App.redirect App.url_index,
                App.flash {| App.files := w; App.session := App.session st;
                             App.flashed := App.flashed st |}
                  ("Error during SSIM comparison: " ++ exn_text e))) /\
  (preprocess_image (cv w) saved_path = Returns None ->
   App.analyze app request_files st
   = Returns (App.redirect App.url_index,
              App.flash {| App.files := w; App.session := App.session st;
                           App.flashed := App.flashed st |}
                ("Error during SSIM comparison: "
                 ++ "❌ Uploaded image could not be preprocessed."))) /\
  (listable w [NORMAL; PNEUMONIA] ->
   preprocess_image (cv w) saved_path <> Returns None ->
   exists r page st',
     compare_with_dataset w saved_path 40 [NORMAL; PNEUMONIA] = Returns r /\
     App.analyze app request_files st = Returns (App.render_result page, st') /\
     App.upload_url page = App.url_uploaded_file name /\
     App.best_match_info page = best_match r /\
     App.page_summary page = summary r /\
     App.page_prediction page = prediction r /\
     App.page_confidence_diff page = confidence_diff r /\
     App.files st' = w /\
     App.session st'
     = {| App.current_image_path := Some saved_path;
          App.conversation_history := Some [] |} /\
     App.flashed st' = App.flashed st).
Proof.
  intros Hfile Hel name saved_path Hsave Hcv Hssim.
  assert (Hfilename : String.eqb (App.filename file) "" = false).
  { destruct (String.eqb_spec (App.filename file) "") as [E|_]; [|reflexivity].
    rewrite E in Hel. discriminate. }
  unfold App.analyze. rewrite Hfile, Hfilename, allowed_step, Hel. cbn [obind].
  fold name. fold saved_path. rewrite Hsave. cbn [obind].
  split; [|split].
  - intros e Hraises. now rewrite Hraises.
  - intros Hnone.
    now rewrite (compare_with_dataset_input_fails w saved_path 40
                   [NORMAL; PNEUMONIA] Hnone).
  - intros Hlist Hsome.
    destruct (preprocess_image_returns (cv w) saved_path) as [[img|] Hpre];
      [|contradiction].
    destruct (compare_with_dataset_returns w saved_path 40 [NORMAL; PNEUMONIA] img
                Hcv Hssim Hlist ltac:(lia) Hpre) as (rs & bm & _ & Hret).
    rewrite Hret.
    destruct (best_match_url_returns rs bm) as [link Hlink]. rewrite Hlink.
    cbn [obind]. eexists _, _, _. split; [reflexivity|].
    split; [reflexivity|]. cbn. repeat split; reflexivity.
Qed.

(** ** The link to the best match *)

Lemma string_app_assoc (a b c : string) : (a ++ b) ++ c = a ++ (b ++ c).
Proof.
  induction a as [|x a IH]; push_app; [reflexivity|]. now rewrite IH.
Qed.

Lemma basename_join dir f :
  Py.contains "/" f = false -> App.basename (Str.path_join dir f) = f.
Proof.
  intros Hf. pose proof Hf as Hnone. apply contains_char_false in Hnone.
  unfold App.basename, Str.path_join.
  assert (Hstart : Str.startswith f "/" = false).
  { unfold Str.startswith. destruct f as [|c f]; [reflexivity|].
    cbn [Py.contains] in Hf. now apply orb_false_iff in Hf as [Hf _]. }
  rewrite Hstart.
  destruct (String.eqb_spec dir "") as [->|Hd]; cbn [orb].
  - push_app. now rewrite Hnone.
  - destruct (Str.endswith dir "/") eqn:Hend.
    + apply endswith_iff in Hend as [p ->].
      rewrite string_app_assoc.
      change ("/" ++ f) with (String "/" f).
      now rewrite (rpartition_app "/" p f Hnone).
    + change ("/" ++ f) with (String "/" f).
      now rewrite (rpartition_app "/" dir f Hnone).
Qed.

Lemma reported_best_match_sample rs seen bm :
  best_match (report rs (fold_left track seen initial_best_match)) = Some bm ->
  exists x, In x seen /\ bm = as_match x.
Proof.
  unfold report. cbn [best_match]. intros Hbest.
  destruct (fold_track_split seen initial_best_match)
    as [[Hfold _]|(before & x & after & -> & Hfold & _ & _ & _)];
    rewrite Hfold in Hbest; [discriminate|].
  destruct (truthy _); [|discriminate]. injection Hbest as <-.
  exists x. split; [apply in_elt|reflexivity].
Qed.

(** X21. When the names listed in the corpus directories contain no slash,
    the link that the result page shows for a best match names a requested
    category and an eligible file listed in the directory of that category;
    without a best match there is no link. *)
Theorem best_match_link_is_a_corpus_file w path sample_size categories r :
  sample_contract w ->
  (forall dir f, In f (listing w dir) -> Py.contains "/" f = false) ->
  compare_with_dataset w path sample_size categories = Returns r ->
  exists link,
    App.best_match_url (best_match r) = Returns link /\
    (best_match r = None -> link = None) /\
    (forall bm, best_match r = Some bm ->
       exists c f,
         link = Some (App.url_dataset_file (Some c) f) /\
         In c categories /\
         In f (listing w (Str.path_join (BASE_DATA_DIR w) c)) /\
         eligible f = true).
Proof.
  intros Hs Hnames Hrun.
  apply compare_with_dataset_inv in Hrun as (img & rs & bm0 & _ & Hscan & ->).
  apply scan_categories_spec in Hscan as [-> _].
  destruct (best_match (report rs _)) as [bm|] eqn:Hbest.
  - apply reported_best_match_sample in Hbest as (x & Hx & ->).
    apply run_compared_in in Hx as (Hc & Hp & _).
    apply drawn_in_files in Hp; [|exact Hs].
    unfold category_files in Hp. apply in_map_iff in Hp as (f & Hf & Hin).
    apply filter_In in Hin as [Hlist Helig].
    eexists. split; [cbn; reflexivity|]. split; [discriminate|].
    intros bm [= <-]. exists (s_category x), f.
    rewrite <- Hf, basename_join by (eapply Hnames; eauto). auto.
  - exists None. split; [reflexivity|]. split; [reflexivity|discriminate].
Qed.

(** ** The chat handler *)

Lemma length_last_n {A} n (l : list A) :
  List.length (Py.last_n n l) = Nat.min n (List.length l).
Proof. unfold Py.last_n. rewrite length_drop. lia. Qed.

Ltac refused_chat :=
  eexists _, _, _; split; [reflexivity|];
  split; [cbn; tauto|];
  split; [reflexivity|]; split; [reflexivity|];
  split; [first [reflexivity | cbn; congruence]|];
  split; [reflexivity|intros Hcode; cbn in Hcode; lia].

(** X22. [gemini_chat] answers with status 200, 400, 500 or 503 and never
    touches the files, the flashed messages or the stored image path.  It
    leaves the session as it is unless the status is 200; then the body is
    a non-empty reply, and the stored history is the old one followed by the
    stripped question and the reply, cut to its last ten messages. *)
Theorem gemini_chat_history app data st :
  exists body status st',
    App.gemini_chat app data st = (body, status, st') /\
    In status [200; 400; 500; 503]%nat /\
    App.files st' = App.files st /\
    App.flashed st' = App.flashed st /\
    App.current_image_path (App.session st')
    = App.current_image_path (App.session st) /\
    (status <> 200%nat -> st' = st) /\
    (status = 200%nat ->
     exists response,
       body = App.json_response response /\ response <> "" /\
       let message := Py.strip (default "" (data !! "message")) in
       let old := default [] (App.conversation_history (App.session st)) in
       message <> "" /\
       App.conversation_history (App.session st')
       = Some (Py.last_n 10
                 (old ++ [App.chat_message "user" message;
                          App.chat_message "assistant" response])%list) /\
       forall h, App.conversation_history (App.session st') = Some h ->
                 (List.length h <= 10)%nat).
Proof.
  unfold App.gemini_chat.
  destruct (App.HAVE_GEMINI app); cbn [negb].
  2:{ refused_chat. }
  destruct (Py.nonempty (Py.strip (default "" (data !! "message")))) eqn:Hmsg;
    cbn [negb].
  2:{ refused_chat. }
  destruct (App.current_image_path (App.session st)) as [image_path|] eqn:Hpath.
  2:{ refused_chat. }
  destruct (negb (Py.nonempty image_path) || negb (App.path_exists app _ image_path)).
  { refused_chat. }
  destruct (App.gemini app) as [g|].
  2:{ refused_chat. }
  destruct (chat_with_gemini g _ image_path _) as [[response|]|e].
  - destruct (Py.nonempty response) eqn:Hresp.
    + eexists _, _, _. split; [reflexivity|]. cbn [App.files App.flashed App.session
        App.current_image_path App.conversation_history].
      split; [cbn; tauto|]. split; [reflexivity|]. split; [reflexivity|].
      split; [reflexivity|]. split; [congruence|]. intros _.
      exists response. split; [reflexivity|].
      split; [now apply nonempty_true|]. cbn zeta.
      split; [now apply nonempty_true|]. split; [reflexivity|].
      intros h [= <-]. rewrite length_last_n. lia.
    + refused_chat.
  - refused_chat.
  - refused_chat.
Qed.

Lemma drop_exchanges k qas :
  drop (2 * k) (exchanges qas) = exchanges (drop k qas).
Proof.
  revert qas. induction k as [|k IH]; intros qas; [reflexivity|].
  destruct qas as [|qa qas]; [reflexivity|].
  replace (2 * S k)%nat with (S (S (2 * k))) by lia. cbn [exchanges flat_map exchange app drop].
  apply IH.
Qed.

Lemma length_exchanges qas : List.length (exchanges qas) = (2 * List.length qas)%nat.
Proof.
  induction qas as [|qa qas IH]; [reflexivity|].
  cbn [exchanges flat_map exchange app List.length]. unfold exchanges in IH. lia.
Qed.

Lemma last_n_exchanges k qas :
  Py.last_n (2 * k) (exchanges qas) = exchanges (Py.last_n k qas).
Proof.
  unfold Py.last_n. rewrite length_exchanges, <- drop_exchanges. f_equal. lia.
Qed.

Lemma exchanges_app qas1 qas2 :
  exchanges (qas1 ++ qas2) = (exchanges qas1 ++ exchanges qas2)%list.
Proof. unfold exchanges. apply flat_map_app. Qed.

Lemma last_ten_of_exchanges qas question reply :
  Py.last_n 10
    (exchanges qas ++ [App.chat_message "user" question;
                       App.chat_message "assistant" reply])%list
  = exchanges (Py.last_n 5 (qas ++ [(question, reply)])).
Proof.
  change [App.chat_message "user" question; App.chat_message "assistant" reply]
    with (exchanges [(question, reply)]).
  rewrite <- exchanges_app. apply (last_n_exchanges 5).
Qed.

Ltac other_status :=
  let Hrun := fresh "Hrun" in
  intros Hrun; apply (f_equal (fun r => snd (fst r))) in Hrun;
  cbn in Hrun; lia.

(** X23. A stored history made of whole exchanges stays so: when
    [gemini_chat] answers with status 200 a request made with a history of
    whole exchanges (or with none), the history it stores is made of the
    last five exchanges, the new question and its reply being the last one;
    so a stored history never starts with a reply. *)
Theorem stored_history_keeps_exchanges app data st body st' qas :
  App.gemini_chat app data st = (body, 200%nat, st') ->
  default [] (App.conversation_history (App.session st)) = exchanges qas ->
  exists reply,
    body = App.json_response reply /\
    App.conversation_history (App.session st')
    = Some (exchanges
              (Py.last_n 5
                 (qas ++ [(Py.strip (default "" (data !! "message")), reply)]))).
Proof.
  unfold App.gemini_chat. intros Hrun Hold. revert Hrun.
  destruct (App.HAVE_GEMINI app); cbn [negb]; [|other_status].
  destruct (Py.nonempty (Py.strip (default "" (data !! "message"))));
    cbn [negb]; [|other_status].
  destruct (App.current_image_path (App.session st)) as [image_path|];
    [|other_status].
  destruct (negb (Py.nonempty image_path) || negb (App.path_exists app _ image_path));
    [other_status|].
  destruct (App.gemini app) as [g|]; [|other_status].
  destruct (chat_with_gemini g _ image_path _) as [[response|]|e];
    [|other_status|other_status].
  destruct (Py.nonempty response); [|other_status].
  intros [= <- <-]. exists response. split; [reflexivity|].
  cbn [App.session App.conversation_history]. rewrite Hold.
  now rewrite last_ten_of_exchanges.
Qed.

(** X24. The prompt of the chat takes the last five messages, which cuts an
    exchange: with three or more stored exchanges the history part of the
    prompt starts with the reply of the third last exchange, without its
    question. *)
Theorem chat_prompt_starts_with_a_reply message qas q1 a1 q2 a2 q3 a3 :
  chat_prompt message
    (Some (exchanges (qas ++ [(q1, a1); (q2, a2); (q3, a3)])))
  = system_context
    ++ String.concat ""
         (List.map history_line
            (App.chat_message "assistant" a1 :: exchanges [(q2, a2); (q3, a3)]))
    ++ String "010" (String "010" "User: ") ++ message
    ++ String "010" "Assistant:".
Proof.
  unfold chat_prompt.
  assert (Hlast : Py.last_n 5 (exchanges (qas ++ [(q1, a1); (q2, a2); (q3, a3)]))
                  = App.chat_message "assistant" a1
                    :: exchanges [(q2, a2); (q3, a3)]).
  { unfold Py.last_n. rewrite exchanges_app, length_app, !length_exchanges.
    cbn [List.length].
    replace (2 * List.length qas + 2 * 3 - 5)%nat
      with (List.length (exchanges qas) + 1)%nat
      by (rewrite length_exchanges; lia).
    rewrite drop_app_add. reflexivity. }
  destruct (exchanges (qas ++ [(q1, a1); (q2, a2); (q3, a3)])) as [|m rest] eqn:E.
  - apply (f_equal (@List.length _)) in E.
    rewrite length_exchanges, length_app in E. cbn in E. lia.
  - now rewrite Hlast.
Qed.

(** ** The sample image *)

Lemma random_choice_in {A} (below : nat -> nat) (seq : list A) :
  (forall n, (0 < n)%nat -> (below n < n)%nat) ->
  seq <> [] ->
  exists x, App.random_choice below seq = Returns x /\ In x seq.
Proof.
  intros Hbelow Hseq. unfold App.random_choice, Py.getitem.
  destruct seq as [|y seq]; [contradiction|].
  destruct (lookup_lt_is_Some_2 (y :: seq) (below (List.length (y :: seq))))
    as [x Hx]; [apply Hbelow; cbn; lia|].
  rewrite Hx. exists x. split; [reflexivity|].
  apply list_elem_of_In. eapply list_elem_of_lookup_2, Hx.
Qed.

(** X25. When the generator draws below its bound, [sample_image] first
    settles on one category.  When the directory of that category is
    missing, or is listed without an image file, it redirects to the index
    with one flashed message, whatever the other category holds; when the
    directory cannot be listed, the exception of [os.listdir] leaves the
    handler; otherwise it serves an image file listed in that directory and
    leaves the state as it is. *)
Theorem sample_image_serves_a_listed_image app draws st :
  (forall i n, (0 < n)%nat -> (draws i n < n)%nat) ->
  exists c,
    In c [NORMAL; PNEUMONIA] /\
    let cat_dir := Str.path_join (App.DATA_DIR app) c in
    let no_sample :=
      Returns (App.redirect App.url_index,
               App.flash st "No sample images available") in
    (isdir (App.files st) cat_dir = false /\
     App.sample_image app draws st = no_sample) \/
    (isdir (App.files st) cat_dir = true /\
     exists e, listdir (App.files st) cat_dir = Raises e /\
               App.sample_image app draws st = Raises e) \/
    (isdir (App.files st) cat_dir = true /\
     exists names,
       listdir (App.files st) cat_dir = Returns names /\
       ((List.filter eligible names = [] /\
         App.sample_image app draws st = no_sample) \/
        (exists f,
           In f names /\ eligible f = true /\
           App.sample_image app draws st
           = Returns (App.send_from_directory cat_dir f, st)))).
Proof.
  intros Hdraws. unfold App.sample_image.
  destruct (random_choice_in (draws 0%nat) [NORMAL; PNEUMONIA] (Hdraws 0%nat))
    as (c & -> & Hc); [discriminate|].
  exists c. split; [exact Hc|]. cbn [obind]. cbv zeta.
  destruct (isdir (App.files st) _) eqn:Hdir; [|now left].
  right. destruct (listdir (App.files st) _) as [names|e] eqn:Hlist; cbn [obind].
  - right. split; [reflexivity|]. exists names. split; [reflexivity|].
    destruct (List.filter eligible names) as [|f0 fs] eqn:Himages; [now left|].
    right.
    destruct (random_choice_in (draws 1%nat) (f0 :: fs) (Hdraws 1%nat))
      as (f & -> & Hf); [discriminate|].
    exists f. rewrite <- Himages in Hf. apply filter_In in Hf as [Hin Hel].
    auto.
  - left. split; [reflexivity|]. now exists e.
Qed.

(** ** The reported similarity *)

Lemma or_zero_between lo hi x :
  lo <= 0 -> 0 <= hi ->
  (forall v, x = Some v -> lo <= v /\ v <= hi) ->
  lo <= or_zero x /\ or_zero x <= hi.
Proof.
  intros Hlo Hhi Hx. destruct x as [v|]; cbn; [|auto].
  destruct (Qeq_bool v 0); auto.
Qed.

Lemma compared_ssim_between w uploaded c sampled lo hi :
  (forall a b s, structural_similarity w a b = Returns s -> lo <= s /\ s <= hi) ->
  Forall (fun s => lo <= s /\ s <= hi)
    (List.map s_ssim (compared w uploaded c sampled)).
Proof.
  intros Hssim. apply Forall_forall. intros s Hs. apply list_elem_of_In in Hs.
  apply in_map_iff in Hs as (y & <- & Hy).
  apply compared_in in Hy as (_ & _ & Hcmp).
  apply compare_sample_similarity in Hcmp as [img Himg].
  eapply Hssim, Himg.
Qed.

Lemma category_entry_ssim_between w uploaded n c lo hi v :
  (forall a b s, structural_similarity w a b = Returns s -> lo <= s /\ s <= hi) ->
  Entry.avg_ssim (category_entry w uploaded n c) = Some v ->
  lo <= v /\ v <= hi.
Proof.
  intros Hssim. unfold category_entry.
  destruct (negb (isdir w _)); [discriminate|].
  destruct (category_files w _) as [|f0 fs]; [discriminate|].
  cbn [Entry.avg_ssim].
  pose proof (compared_ssim_between w uploaded c (drawn w n c) lo hi Hssim) as Hall.
  destruct (List.map s_ssim _) as [|x0 l0]; [discriminate|].
  cbn. intros [= <-]. apply median_between; [discriminate|exact Hall].
Qed.


(** ** The order of the selection *)

Lemma compared_app w uploaded c l1 l2 :
  compared w uploaded c (l1 ++ l2)
  = (compared w uploaded c l1 ++ compared w uploaded c l2)%list.
Proof.
  induction l1 as [|p l1 IH]; cbn; [reflexivity|].
  destruct (compare_sample w uploaded p) as [[[s m]|]|e]; cbn; now rewrite IH.
Qed.

Lemma compared_permutation w uploaded c l l' :
  Permutation l l' ->
  Permutation (compared w uploaded c l) (compared w uploaded c l').
Proof.
  induction 1 as [|p l l' _ IH|p q l|l l' l'' _ IH1 _ IH2]; cbn.
  - constructor.
  - destruct (compare_sample w uploaded p) as [[[s m]|]|e]; auto.
  - destruct (compare_sample w uploaded p) as [[[s m]|]|e],
             (compare_sample w uploaded q) as [[[s' m']|]|e'];
      try reflexivity; apply perm_swap.
  - etransitivity; eassumption.
Qed.

Lemma compared_same_scores w1 w2 uploaded c l :
  (forall p, In p l -> compare_sample w1 uploaded p = compare_sample w2 uploaded p) ->
  compared w1 uploaded c l = compared w2 uploaded c l.
Proof.
  induction l as [|p l IH]; intros Hsame; cbn; [reflexivity|].
  rewrite (Hsame p) by now left.
  rewrite IH by (intros q Hq; apply Hsame; now right). reflexivity.
Qed.

Lemma category_entry_of w uploaded n c :
  category_entry w uploaded n c = entry_of (compared w uploaded c (drawn w n c)).
Proof.
  unfold category_entry, drawn.
  destruct (negb (isdir w _)); [reflexivity|].
  destruct (category_files w _) as [|f0 fs]; reflexivity.
Qed.

Lemma or_zero_median l :
  l <> [] -> or_zero (median_or_None l) == median l.
Proof.
  intros Hl. rewrite or_zero_default. destruct l; [contradiction|reflexivity].
Qed.

(** X3. When the similarity function only returns values of a range that
    contains 0, the similarity reported for a category lies in that range.
    It is the median of the similarities of the samples compared for the
    category, and it is 0 when the category was not requested or none of
    its samples was compared. *)
Theorem reported_avg_ssim_range w path sample_size categories r c entry lo hi :
  lo <= 0 -> 0 <= hi ->
  (forall a b s, structural_similarity w a b = Returns s -> lo <= s /\ s <= hi) ->
  compare_with_dataset w path sample_size categories = Returns r ->
  summary r !! c = Some entry ->
  exists img v,
    preprocess_image (cv w) path = Returns (Some img) /\
    Report.avg_ssim entry = Some v /\
    lo <= v /\ v <= hi /\
    let seen := compared w (astype_unit img) c (drawn w sample_size c) in
    (In c categories -> seen <> [] -> v == median (List.map s_ssim seen)) /\
    (~ In c categories \/ seen = [] -> v = 0).
Proof.
  intros Hlo Hhi Hssim Hrun Hlook.
  apply compare_with_dataset_inv in Hrun as (img & rs & bm & Himg & Hscan & ->).
  apply scan_categories_spec in Hscan as [_ Hrs].
  apply summary_lookup in Hlook as (_ & score & percent & -> & ->).
  exists img. eexists. split; [exact Himg|]. split; [reflexivity|].
  assert (Hrange : lo <= or_zero (rs !! c ≫= Entry.avg_ssim) /\
                   or_zero (rs !! c ≫= Entry.avg_ssim) <= hi).
  { apply or_zero_between; [exact Hlo|exact Hhi|].
    intros v. rewrite Hrs. destruct (bool_decide (c ∈ categories)).
    - cbn. now apply category_entry_ssim_between.
    - rewrite lookup_empty. discriminate. }
  split; [apply Hrange|]. split; [apply Hrange|].
  cbn zeta. rewrite Hrs. split.
  - intros Hc Hseen.
    rewrite bool_decide_eq_true_2 by now apply list_elem_of_In.
    cbn [mbind option_bind]. rewrite category_entry_of. cbn [entry_of Entry.avg_ssim].
    apply or_zero_median. destruct (compared _ _ _ _); [contradiction|discriminate].
  - intros [Hc|Hseen].
    + rewrite bool_decide_eq_false_2 by (intros H; now apply list_elem_of_In in H).
      now rewrite lookup_empty.
    + destruct (bool_decide (c ∈ categories)); [|now rewrite lookup_empty].
      cbn [mbind option_bind]. rewrite category_entry_of, Hseen. reflexivity.
Qed.

Lemma median_or_None_permutation l l' :
  Permutation l l' ->
  option_Forall2 Qeq (median_or_None l) (median_or_None l').
Proof.
  intros Hp. destruct l as [|x l], l' as [|x' l']; cbn.
  - constructor.
  - now apply Permutation_nil_cons in Hp.
  - symmetry in Hp. now apply Permutation_nil_cons in Hp.
  - constructor. now apply median_permutation.
Qed.

Lemma entry_of_permutation l l' :
  Permutation l l' -> same_entry (entry_of l) (entry_of l').
Proof.
  intros Hp. unfold same_entry, entry_of. cbn. split; [|split].
  - now apply median_or_None_permutation, Permutation_map.
  - now apply median_or_None_permutation, Permutation_map.
  - now apply Permutation_length.
Qed.

Lemma or_zero_comp x y : option_Forall2 Qeq x y -> or_zero x == or_zero y.
Proof.
  intros H. rewrite !or_zero_default. destruct H; cbn; [assumption|reflexivity].
Qed.

Lemma percent_total_comp a a' b b' :
  a == a' -> b == b' -> percent_total a b == percent_total a' b'.
Proof.
  intros Ha Hb. unfold percent_total.
  destruct (Qlt_bool 0 (a + b)) eqn:E, (Qlt_bool 0 (a' + b')) eqn:E';
    try (apply Qplus_comp; assumption); try reflexivity.
  - apply Qlt_bool_iff in E. apply Qlt_bool_false_iff in E'. lra.
  - apply Qlt_bool_iff in E'. apply Qlt_bool_false_iff in E. lra.
Qed.

Lemma lookup_same_entry (rs1 rs2 : gmap string Entry.t) c :
  option_Forall2 same_entry (rs1 !! c) (rs2 !! c) ->
  option_Forall2 Qeq (rs1 !! c ≫= Entry.avg_ssim) (rs2 !! c ≫= Entry.avg_ssim) /\
  option_Forall2 Qeq (rs1 !! c ≫= Entry.avg_mse) (rs2 !! c ≫= Entry.avg_mse) /\
  default 0%nat (Entry.samples_compared <$> rs1 !! c)
  = default 0%nat (Entry.samples_compared <$> rs2 !! c).
Proof.
  intros [e1 e2 (Hs & Hm & Hn)|]; cbn; [auto|].
  repeat split; constructor.
Qed.

Lemma category_report_same rs1 rs2 c a1 a2 p1 p2 :
  option_Forall2 same_entry (rs1 !! c) (rs2 !! c) ->
  a1 == a2 -> p1 == p2 ->
  same_report (category_report rs1 c a1 p1) (category_report rs2 c a2 p2).
Proof.
  intros Hrs Ha Hp. apply lookup_same_entry in Hrs as (_ & Hm & Hn).
  unfold same_report, category_report. cbn.
  split; [now constructor|]. split; [exact Hm|].
  split; [now apply py_round_comp|exact Hn].
Qed.

Lemma report_same rs1 rs2 bm1 bm2 :
  (forall c, option_Forall2 same_entry (rs1 !! c) (rs2 !! c)) ->
  prediction (report rs1 bm1) = prediction (report rs2 bm2) /\
  confidence_diff (report rs1 bm1) == confidence_diff (report rs2 bm2) /\
  forall c e1,
    summary (report rs1 bm1) !! c = Some e1 ->
    exists e2, summary (report rs2 bm2) !! c = Some e2 /\ same_report e1 e2.
Proof.
  intros Hrs.
  assert (Ha : or_zero (rs1 !! NORMAL ≫= Entry.avg_ssim)
               == or_zero (rs2 !! NORMAL ≫= Entry.avg_ssim))
    by (apply or_zero_comp, lookup_same_entry, Hrs).
  assert (Hb : or_zero (rs1 !! PNEUMONIA ≫= Entry.avg_ssim)
               == or_zero (rs2 !! PNEUMONIA ≫= Entry.avg_ssim))
    by (apply or_zero_comp, lookup_same_entry, Hrs).
  pose proof (percent_total_comp _ _ _ _ Ha Hb) as Ht.
  split; [|split].
  - unfold report. cbn [prediction]. now apply decide_prediction_comp.
  - unfold report. cbn [confidence_diff]. apply py_round_comp.
    apply Qabs_wd, Qminus_comp; assumption.
  - intros c e1 Hlook.
    destruct (summary_lookup _ _ _ _ Hlook) as [[-> | ->] _].
    + rewrite report_NORMAL in Hlook. injection Hlook as <-.
      eexists. split; [apply report_NORMAL|]. cbn zeta.
      apply category_report_same; [apply Hrs|exact Ha|].
      apply Qmult_comp; [apply Qdiv_comp; assumption|reflexivity].
    + rewrite report_PNEUMONIA in Hlook. injection Hlook as <-.
      eexists. split; [apply report_PNEUMONIA|]. cbn zeta.
      apply category_report_same; [apply Hrs|exact Hb|].
      apply Qmult_comp; [apply Qdiv_comp; assumption|reflexivity].
Qed.

(** X4. The verdict does not depend on the order in which the generator
    selects the files: two runs with the same libraries that read the same
    images and draw, for every category, the same files in any order return
    the same prediction, the same margin and, for each category, the same
    number of samples, the same aggregates and the same percentage. *)
Theorem verdict_independent_of_draw_order w1 w2 path sample_size categories r1 r2 :
  same_libraries w1 w2 ->
  imread (cv w1) path = imread (cv w2) path ->
  (forall c, In c categories ->
     Permutation (drawn w1 sample_size c) (drawn w2 sample_size c)) ->
  (forall c f, In c categories -> In f (drawn w1 sample_size c) ->
     imread (cv w1) f = imread (cv w2) f) ->
  compare_with_dataset w1 path sample_size categories = Returns r1 ->
  compare_with_dataset w2 path sample_size categories = Returns r2 ->
  prediction r1 = prediction r2 /\
  confidence_diff r1 == confidence_diff r2 /\
  forall c e1,
    summary r1 !! c = Some e1 ->
    exists e2, summary r2 !! c = Some e2 /\ same_report e1 e2.
Proof.
  intros Hlib Hread Hperm Hfiles Hrun1 Hrun2.
  apply compare_with_dataset_inv in Hrun1 as (img & rs1 & bm1 & Himg & Hscan1 & ->).
  apply compare_with_dataset_inv in Hrun2 as (img2 & rs2 & bm2 & Himg2 & Hscan2 & ->).
  rewrite (preprocess_image_same w1 w2 Hlib path Hread) in Himg.
  rewrite Himg in Himg2. injection Himg2 as <-.
  apply scan_categories_spec in Hscan1 as [_ Hrs1].
  apply scan_categories_spec in Hscan2 as [_ Hrs2].
  apply report_same. intros c. rewrite Hrs1, Hrs2.
  destruct (bool_decide (c ∈ categories)) eqn:Hc.
  - apply bool_decide_eq_true in Hc. apply list_elem_of_In in Hc.
    constructor. rewrite !category_entry_of.
    rewrite (compared_same_scores w1 w2)
      by (intros p Hp; apply (compare_sample_same w1 w2 Hlib);
          now apply (Hfiles c)).
    apply entry_of_permutation, compared_permutation, Hperm, Hc.
  - rewrite lookup_empty. constructor.
Qed.

Lemma lookup_score_between lo hi table code s :
  Forall (fun entry => lo <= snd entry /\ snd entry <= hi) table ->
  Toy.lookup_score table code = Returns s -> lo <= s /\ s <= hi.
Proof.
  induction 1 as [|[[|c name] s'] rest Hs Hrest IH]; cbn.
  - discriminate.
  - exact IH.
  - destruct (_ =? _)%Z; [|exact IH]. intros [= <-]. exact Hs.
Qed.

Lemma toy_ssim_between lo hi dirs scores :
  Forall (fun entry => lo <= snd entry /\ snd entry <= hi) scores ->
  forall a b s,
    structural_similarity (Toy.world dirs scores) a b = Returns s ->
    lo <= s /\ s <= hi.
Proof.
  intros Hall a b s. cbn. now apply lookup_score_between.
Qed.

Lemma clinic_scores_between a b s :
  structural_similarity clinic a b = Returns s -> -1 <= s /\ s <= 1.
Proof.
  apply toy_ssim_between.
  repeat (constructor; [split; discriminate|]). constructor.
Qed.

Lemma reversed_draw_libraries w : same_libraries w (reversed_draw w).
Proof. constructor; reflexivity. Qed.

Lemma drawn_reversed_draw w n c :
  drawn (reversed_draw w) n c = List.rev (drawn w n c).
Proof.
  unfold drawn. cbn [BASE_DATA_DIR isdir reversed_draw].
  destruct (negb (isdir w _)); [reflexivity|].
  change (category_files (reversed_draw w)) with (category_files w).
  destruct (category_files w _) as [|f0 fs]; [reflexivity|].
  unfold random_sample. cbn [choose reversed_draw].
  destruct (_ && _); reflexivity.
Qed.

(** ** The properties at work *)

Lemma toy_names_without_slash dirs scores :
  Forall (fun d => Forall (fun f => Py.contains "/" f = false) (snd d)) dirs ->
  forall dir f,
    In f (listing (Toy.world dirs scores) dir) -> Py.contains "/" f = false.
Proof.
  intros Hdirs dir f. cbn [listdir Toy.world].
  induction Hdirs as [|[d names] rest Hnames _ IH]; cbn; [tauto|].
  destruct (String.eqb d dir); [|exact IH].
  cbn. intros Hin. rewrite Forall_forall in Hnames. apply Hnames.
  now apply list_elem_of_In.
Qed.

Lemma clinic_names_without_slash dir f :
  In f (listing clinic dir) -> Py.contains "/" f = false.
Proof.
  apply toy_names_without_slash. repeat constructor.
Qed.

Lemma mse_nonneg_zero_iff_equal_witness :
  shapeF grey = shapeF dark /\
  well_shaped grey /\ well_shaped dark /\
  dataF grey <> [] /\
  0 <= mse grey dark /\
  (mse grey dark == 0 <-> Forall2 Qeq (dataF grey) (dataF dark)).
Proof.
  split; [reflexivity|]. split; [reflexivity|]. split; [reflexivity|].
  split; [discriminate|].
  apply (mse_nonneg_zero_iff_equal grey dark);
    [reflexivity|reflexivity|reflexivity|discriminate].
Defined.

Lemma reported_avg_ssim_range_witness :
  exists r entry,
    -1 <= 0 /\ 0 <= 1 /\
    (forall a b s, structural_similarity clinic a b = Returns s ->
                   -1 <= s /\ s <= 1) /\
    compare_with_dataset clinic "/srv/uploads/in.png" 40 [NORMAL; PNEUMONIA]
    = Returns r /\
    summary r !! NORMAL = Some entry /\
    exists img v,
      preprocess_image (cv clinic) "/srv/uploads/in.png" = Returns (Some img) /\
      Report.avg_ssim entry = Some v /\
      -1 <= v /\ v <= 1 /\
      let seen := compared clinic (astype_unit img) NORMAL (drawn clinic 40 NORMAL) in
      (In NORMAL [NORMAL; PNEUMONIA] -> seen <> [] ->
       v == median (List.map s_ssim seen)) /\
      (~ In NORMAL [NORMAL; PNEUMONIA] \/ seen = [] -> v = 0).
Proof.
  eexists _, _.
  split; [discriminate|]. split; [discriminate|].
  split; [exact clinic_scores_between|].
  split; [vm_compute; reflexivity|].
  split; [vm_compute; reflexivity|].
  eapply (reported_avg_ssim_range clinic "/srv/uploads/in.png" 40
            [NORMAL; PNEUMONIA] _ NORMAL _ (-1) 1).
  - discriminate.
  - discriminate.
  - exact clinic_scores_between.
  - vm_compute. reflexivity.
  - vm_compute. reflexivity.
Defined.

Lemma verdict_independent_of_draw_order_witness :
  exists r1 r2,
    same_libraries clinic (reversed_draw clinic) /\
    (forall c, In c [NORMAL; PNEUMONIA] ->
       Permutation (drawn clinic 40 c) (drawn (reversed_draw clinic) 40 c)) /\
    compare_with_dataset clinic "/srv/uploads/in.png" 40 [NORMAL; PNEUMONIA]
    = Returns r1 /\
    compare_with_dataset (reversed_draw clinic) "/srv/uploads/in.png" 40
      [NORMAL; PNEUMONIA] = Returns r2 /\
    prediction r1 = prediction r2 /\
    confidence_diff r1 == confidence_diff r2 /\
    forall c e1,
      summary r1 !! c = Some e1 ->
      exists e2, summary r2 !! c = Some e2 /\ same_report e1 e2.
Proof.
  assert (Hperm : forall c, In c [NORMAL; PNEUMONIA] ->
            Permutation (drawn clinic 40 c) (drawn (reversed_draw clinic) 40 c))
    by (intros c _; rewrite drawn_reversed_draw; apply Permutation_rev).
  eexists _, _.
  split; [apply reversed_draw_libraries|].
  split; [exact Hperm|].
  split; [vm_compute; reflexivity|].
  split; [vm_compute; reflexivity|].
  apply (verdict_independent_of_draw_order clinic (reversed_draw clinic)
           "/srv/uploads/in.png" 40 [NORMAL; PNEUMONIA]).
  - apply reversed_draw_libraries.
  - reflexivity.
  - exact Hperm.
  - reflexivity.
  - vm_compute. reflexivity.
  - vm_compute. reflexivity.
Defined.

Lemma reported_avg_mse_witness :
  exists r entry,
    compare_with_dataset clinic "/srv/uploads/in.png" 40 [NORMAL; PNEUMONIA]
    = Returns r /\
    summary r !! PNEUMONIA = Some entry /\
    (Report.avg_mse entry = None <-> Report.samples_compared entry = 0%nat) /\
    (forall m, Report.avg_mse entry = Some m -> 0 <= m).
Proof.
  eexists _, _.
  split; [vm_compute; reflexivity|].
  split; [vm_compute; reflexivity|].
  eapply (reported_avg_mse clinic "/srv/uploads/in.png" 40 [NORMAL; PNEUMONIA]
            _ PNEUMONIA).
  - vm_compute. reflexivity.
  - vm_compute. reflexivity.
Defined.

Lemma best_match_is_a_sample_witness :
  exists r bm,
    sample_contract clinic /\
    compare_with_dataset clinic "/srv/uploads/in.png" 40 [NORMAL; PNEUMONIA]
    = Returns r /\
    best_match r = Some bm /\
    exists img c f m,
      preprocess_image (cv clinic) "/srv/uploads/in.png" = Returns (Some img) /\
      m_category bm = Some c /\ In c [NORMAL; PNEUMONIA] /\
      isdir clinic (Str.path_join (BASE_DATA_DIR clinic) c) = true /\
      In f (listing clinic (Str.path_join (BASE_DATA_DIR clinic) c)) /\
      eligible f = true /\
      m_path bm
      = Some (Str.path_join (Str.path_join (BASE_DATA_DIR clinic) c) f) /\
      m_mse bm = Finite m /\ 0 <= m /\
      compare_sample clinic (astype_unit img)
        (Str.path_join (Str.path_join (BASE_DATA_DIR clinic) c) f)
      = Returns (Some (m_ssim bm, m)).
Proof.
  eexists _, _.
  split; [apply toy_sample_contract|].
  split; [vm_compute; reflexivity|].
  split; [vm_compute; reflexivity|].
  eapply (best_match_is_a_sample clinic "/srv/uploads/in.png" 40
           [NORMAL; PNEUMONIA]).
  - apply toy_sample_contract.
  - vm_compute. reflexivity.
  - vm_compute. reflexivity.
Defined.

Lemma confidence_diff_and_verdict_witness :
  exists r,
    compare_with_dataset clinic "/srv/uploads/in.png" 40 [NORMAL; PNEUMONIA]
    = Returns r /\
    0 <= confidence_diff r /\
    (prediction r = uncertain_result -> confidence_diff r <= 2 # 100) /\
    (prediction r <> uncertain_result -> 2 # 100 <= confidence_diff r).
Proof.
  eexists.
  split; [vm_compute; reflexivity|].
  apply (confidence_diff_and_verdict clinic "/srv/uploads/in.png" 40
           [NORMAL; PNEUMONIA]).
  vm_compute. reflexivity.
Defined.

Lemma similarity_percent_range_witness :
  exists r,
    compare_with_dataset clinic "/srv/uploads/in.png" 40 [NORMAL; PNEUMONIA]
    = Returns r /\
    exists normal pneumonia a b,
      summary r !! NORMAL = Some normal /\
      summary r !! PNEUMONIA = Some pneumonia /\
      Report.avg_ssim normal = Some a /\
      Report.avg_ssim pneumonia = Some b /\
      (0 <= a -> 0 <= b ->
       (0 <= Report.similarity_percent normal /\
        Report.similarity_percent normal <= 100) /\
       (0 <= Report.similarity_percent pneumonia /\
        Report.similarity_percent pneumonia <= 100)).
Proof.
  eexists.
  split; [vm_compute; reflexivity|].
  apply (similarity_percent_range clinic "/srv/uploads/in.png" 40
           [NORMAL; PNEUMONIA]).
  vm_compute. reflexivity.
Defined.

Lemma zero_sample_size_witness :
  exists r,
    sample_contract clinic /\
    compare_with_dataset clinic "/srv/uploads/in.png" 0 [NORMAL; PNEUMONIA]
    = Returns r /\
    best_match r = None /\
    prediction r = uncertain_result /\
    confidence_diff r == 0 /\
    forall c entry,
      summary r !! c = Some entry ->
      Report.samples_compared entry = 0%nat /\
      Report.avg_mse entry = None /\
      Report.avg_ssim entry = Some 0 /\
      Report.similarity_percent entry == 0.
Proof.
  eexists.
  split; [apply toy_sample_contract|].
  split; [vm_compute; reflexivity|].
  apply (zero_sample_size clinic "/srv/uploads/in.png" [NORMAL; PNEUMONIA]).
  - apply toy_sample_contract.
  - vm_compute. reflexivity.
Defined.

Lemma predict_image_confidence_witness :
  exists confidence label,
    Cnn.predict_image reader "pneumonia_cnn_model.h5" "/srv/uploads/in.png"
    = Returns (confidence, label) /\
    exists raw,
      Cnn.model_output reader "pneumonia_cnn_model.h5" "/srv/uploads/in.png"
      = Returns raw /\
      50 <= confidence /\ confidence <= 100 /\
      (label = pneumonia_detected <-> 1 # 2 < raw) /\
      (label = normal_lungs <-> raw <= 1 # 2).
Proof.
  eexists _, _.
  split; [vm_compute; reflexivity|].
  apply (predict_image_confidence reader "pneumonia_cnn_model.h5"
           "/srv/uploads/in.png").
  vm_compute. reflexivity.
Defined.

Lemma get_available_model_choice_witness :
  exists n,
    get_available_model assistant = Some n /\
    In n ["gemini-1.5-flash"; "gemini-2.0-flash"] /\
    ((exists before after,
        preferred_models = (before ++ n :: after)%list /\
        Forall (fun p => ~ In p ["gemini-1.5-flash"; "gemini-2.0-flash"]) before) \/
     (Forall (fun p => ~ In p ["gemini-1.5-flash"; "gemini-2.0-flash"])
        preferred_models /\
      exists rest, ["gemini-1.5-flash"; "gemini-2.0-flash"] = n :: rest)).
Proof.
  destruct (get_available_model_choice assistant) as (_ & Hlisted & _).
  eapply Hlisted.
  - reflexivity.
  - reflexivity.
  - vm_compute. reflexivity.
  - discriminate.
Defined.

Lemma chat_prompt_last_five_witness :
  Py.last_n 5
    (exchanges [("q1", "a1"); ("q2", "a2"); ("q3", "a3")])
  = Py.last_n 5
      (App.chat_message "assistant" "a1"
       :: exchanges [("q2", "a2"); ("q3", "a3")]) /\
  chat_prompt "hi" (Some (exchanges [("q1", "a1"); ("q2", "a2"); ("q3", "a3")]))
  = chat_prompt "hi"
      (Some (App.chat_message "assistant" "a1"
             :: exchanges [("q2", "a2"); ("q3", "a3")])).
Proof.
  split; [reflexivity|].
  apply (chat_prompt_last_five "hi"). reflexivity.
Defined.

Lemma chat_with_gemini_answer_witness :
  chat_with_gemini assistant "hi" "/srv/uploads/in.png" None
  = Returns (Some "answer of gemini-2.0-flash").
Proof.
  destruct (chat_with_gemini_answer assistant "hi" "/srv/uploads/in.png" None)
    as (r & -> & _ & _ & Hasked).
  f_equal.
  apply (Hasked {| pil_path := "/srv/uploads/in.png" |} "gemini-2.0-flash");
    try reflexivity.
  discriminate.
Defined.

Lemma analyze_xray_image_answer_witness :
  analyze_xray_image assistant "/srv/uploads/in.png"
    {| sr_prediction := Some normal_lungs;
       sr_summary := None;
       sr_confidence_diff := None |} None
  = Returns (Some "answer of gemini-2.0-flash").
Proof.
  destruct (analyze_xray_image_answer assistant "/srv/uploads/in.png"
              {| sr_prediction := Some normal_lungs;
                 sr_summary := None;
                 sr_confidence_diff := None |} None)
    as (r & -> & _ & _ & Hasked).
  f_equal.
  apply (Hasked (Some {| pil_path := "/srv/uploads/in.png" |}) "gemini-2.0-flash");
    try reflexivity.
  discriminate.
Defined.

Lemma mismatch_warning_verdicts_witness :
  exists confidence label r,
    Cnn.predict_image reader "pneumonia_cnn_model.h5" "/srv/uploads/in.png"
    = Returns (confidence, label) /\
    compare_with_dataset clinic "/srv/uploads/in.png" 40 [NORMAL; PNEUMONIA]
    = Returns r /\
    let warning :=
      App.mismatch_warning (Some (CnnPrediction confidence label)) (prediction r) in
    (warning = None <->
     (label = pneumonia_detected /\ prediction r = pneumonia_detected) \/
     (label = normal_lungs /\ prediction r = normal_lungs)) /\
    (warning = Some App.uncertain_ssim <->
     label = normal_lungs /\ prediction r = uncertain_result) /\
    (warning = Some App.results_mismatch <->
     (label = pneumonia_detected /\ prediction r <> pneumonia_detected) \/
     (label = normal_lungs /\ prediction r = pneumonia_detected)).
Proof.
  eexists _, _, _.
  split; [vm_compute; reflexivity|].
  split; [vm_compute; reflexivity|].
  apply (mismatch_warning_verdicts reader "pneumonia_cnn_model.h5"
           "/srv/uploads/in.png" _ _ clinic "/srv/uploads/in.png" 40
           [NORMAL; PNEUMONIA]).
  - vm_compute. reflexivity.
  - vm_compute. reflexivity.
Defined.

Lemma analyze_rejects_without_saving_witness :
  exists text st',
    App.analyze front_desk
      {["file" := {| App.filename := "report.pdf" |}]} opening
    = Returns (App.redirect App.url_index, st') /\
    App.files st' = App.files opening /\
    App.session st' = App.session opening /\
    App.flashed st' = (App.flashed opening ++ [text])%list /\
    In text ["No file part"; "No selected file"; "Unsupported file type"].
Proof.
  apply (analyze_rejects_without_saving front_desk
           {["file" := {| App.filename := "report.pdf" |}]} opening).
  right. eexists. split; [vm_compute; reflexivity|reflexivity].
Defined.

Lemma analyze_raises_only_on_save_witness :
  exists e file,
    App.analyze full_disk upload_request opening = Raises e /\
    upload_request !! "file" = Some file /\
    eligible (App.filename file) = true /\
    App.save full_disk (App.files opening) file
      (Str.path_join (App.UPLOAD_FOLDER full_disk)
         (App.secure_filename full_disk (App.filename file)))
    = Raises e.
Proof.
  eexists. 
  assert (Hraises : App.analyze full_disk upload_request opening
                    = Raises (ValueError "embedded null byte"))
    by (vm_compute; reflexivity).
  destruct (analyze_raises_only_on_save full_disk upload_request opening _ Hraises)
    as (file & Hfile & Heligible & Hsave).
  exists file. auto.
Defined.

Lemma analyze_accepted_upload_witness :
  exists r page st',
    compare_with_dataset clinic "/srv/uploads/in.png" 40 [NORMAL; PNEUMONIA]
    = Returns r /\
    App.analyze front_desk upload_request opening
    = Returns (App.render_result page, st') /\
    App.upload_url page = App.url_uploaded_file "in.png" /\
    App.best_match_info page = best_match r /\
    App.page_summary page = summary r /\
    App.page_prediction page = prediction r /\
    App.page_confidence_diff page = confidence_diff r /\
    App.files st' = clinic /\
    App.session st'
    = {| App.current_image_path := Some "/srv/uploads/in.png";
         App.conversation_history := Some [] |} /\
    App.flashed st' = App.flashed opening.
Proof.
  destruct (analyze_accepted_upload front_desk upload_request opening upload clinic)
    as (_ & _ & Hpage).
  - vm_compute. reflexivity.
  - reflexivity.
  - reflexivity.
  - apply toy_cv_contract.
  - apply toy_ssim_raises_only_ValueError.
  - apply Hpage; [apply toy_listable|]. vm_compute. discriminate.
Defined.

(** A directory that cannot be read: the exception of [os.listdir] leaves
    [compare_with_dataset], and [analyze] reports it as an error of the
    comparison. *)
Example unreadable_directory_is_reported :
  let w := unreadable clinic "/srv/data/PNEUMONIA" in
  let st := {| App.files := w; App.session := App.session opening;
               App.flashed := [] |} in
  isdir w "/srv/data/PNEUMONIA" = true /\
  compare_with_dataset w "/srv/uploads/in.png" 40 [NORMAL; PNEUMONIA]
  = Raises (OSError "[Errno 13] Permission denied") /\
  App.analyze front_desk upload_request st
  = Returns (App.redirect App.url_index,
             App.flash st
               "Error during SSIM comparison: [Errno 13] Permission denied").
Proof. repeat split; vm_compute; reflexivity. Qed.

Lemma best_match_link_is_a_corpus_file_witness :
  exists r link,
    sample_contract clinic /\
    (forall dir f, In f (listing clinic dir) -> Py.contains "/" f = false) /\
    compare_with_dataset clinic "/srv/uploads/in.png" 40 [NORMAL; PNEUMONIA]
    = Returns r /\
    App.best_match_url (best_match r) = Returns link /\
    (best_match r = None -> link = None) /\
    (forall bm, best_match r = Some bm ->
       exists c f,
         link = Some (App.url_dataset_file (Some c) f) /\
         In c [NORMAL; PNEUMONIA] /\
         In f (listing clinic (Str.path_join (BASE_DATA_DIR clinic) c)) /\
         eligible f = true).
Proof.
  assert (Hrun : exists r,
            compare_with_dataset clinic "/srv/uploads/in.png" 40
              [NORMAL; PNEUMONIA] = Returns r)
    by (eexists; vm_compute; reflexivity).
  destruct Hrun as [r Hrun]. exists r.
  destruct (best_match_link_is_a_corpus_file clinic "/srv/uploads/in.png" 40
              [NORMAL; PNEUMONIA] r (toy_sample_contract _ _)
              clinic_names_without_slash Hrun) as (link & Hlink).
  exists link.
  split; [apply toy_sample_contract|].
  split; [exact clinic_names_without_slash|].
  split; [exact Hrun|exact Hlink].
Defined.

Lemma stored_history_keeps_exchanges_witness :
  exists body st' reply,
    App.gemini_chat front_desk question consulting = (body, 200%nat, st') /\
    default [] (App.conversation_history (App.session consulting))
    = exchanges [("What do you see?", "Two lungs.")] /\
    body = App.json_response reply /\
    App.conversation_history (App.session st')
    = Some (exchanges
              (Py.last_n 5
                 ([("What do you see?", "Two lungs.")]
                  ++ [(Py.strip (default "" (question !! "message")), reply)]))).
Proof.
  assert (Hrun : exists body st',
            App.gemini_chat front_desk question consulting = (body, 200%nat, st'))
    by (eexists _, _; vm_compute; reflexivity).
  destruct Hrun as (body & st' & Hrun).
  destruct (stored_history_keeps_exchanges front_desk question consulting body st'
              [("What do you see?", "Two lungs.")] Hrun eq_refl)
    as (reply & Hbody & Hstored).
  exists body, st', reply. auto.
Defined.

Lemma sample_image_serves_a_listed_image_witness :
  exists c,
    In c [NORMAL; PNEUMONIA] /\
    let cat_dir := Str.path_join (App.DATA_DIR front_desk) c in
    let no_sample :=
      Returns (App.redirect App.url_index,
               App.flash opening "No sample images available") in
    (isdir (App.files opening) cat_dir = false /\
     App.sample_image front_desk (fun _ n => (n - 1)%nat) opening = no_sample) \/
    (isdir (App.files opening) cat_dir = true /\
     exists e, listdir (App.files opening) cat_dir = Raises e /\
               App.sample_image front_desk (fun _ n => (n - 1)%nat) opening
               = Raises e) \/
    (isdir (App.files opening) cat_dir = true /\
     exists names,
       listdir (App.files opening) cat_dir = Returns names /\
       ((List.filter eligible names = [] /\
         App.sample_image front_desk (fun _ n => (n - 1)%nat) opening
         = no_sample) \/
        (exists f,
           In f names /\ eligible f = true /\
           App.sample_image front_desk (fun _ n => (n - 1)%nat) opening
           = Returns (App.send_from_directory cat_dir f, opening)))).
Proof.
  apply (sample_image_serves_a_listed_image front_desk
           (fun _ n => (n - 1)%nat) opening).
  intros _ n Hn. lia.
Defined.
